(** * RegisterContext: the register abstraction layer of the debugger

    A shallow embedding of [lldb/source/Target/RegisterContext.cpp].

    The member functions of [RegisterContext] are written as programs in a
    free monad whose actions are the calls that leave the translation unit:
    the pure virtual members of the class (implemented per architecture and
    backend), the owning [Thread], the [Process], the [Target], the frame
    layer and the DWARF expression evaluator.  A program is run against a
    handler that answers each call in some world; the run records the calls
    in order, so statements such as "the memory backend is not consulted"
    are statements about the recorded calls. *)

From Stdlib Require Import ZArith List String Bool Lia.
From Stdlib Require Import DecimalString.
Import ListNotations.
Open Scope string_scope.
Open Scope Z_scope.

(** ** Constants of lldb-defines.h used by the file *)

Definition UINT32_MAX : Z := 4294967295.
Definition UINT64_MAX : Z := 18446744073709551615.
Definition LLDB_INVALID_REGNUM : Z := UINT32_MAX.
Definition LLDB_INVALID_ADDRESS : Z := UINT64_MAX.
Definition LLDB_REGNUM_GENERIC_PC : Z := 0.

(** ** Data *)

(** [lldb::RegisterKind]: the numbering spaces a register can be named in. *)
Inductive RegisterKind :=
| eRegisterKindEHFrame
| eRegisterKindDWARF
| eRegisterKindGeneric
| eRegisterKindProcessPlugin
| eRegisterKindLLDB.

Inductive ByteOrder := eByteOrderBig | eByteOrderLittle.

Inductive AddressClass := eCode.

(** [Status], as far as this file observes it: either success or an error
    carrying a message. *)
Inductive Status :=
| StatusOK
| StatusError (msg : string).

Definition Success (error : Status) : bool :=
  match error with StatusOK => true | StatusError _ => false end.

Definition Fail (error : Status) : bool := negb (Success error).

Definition SetErrorString (msg : string) : Status := StatusError msg.

(** [Status::AsCString]: the message, a null pointer for a success. *)
Definition AsCString (error : Status) : option string :=
  match error with StatusOK => None | StatusError msg => Some msg end.

(** The line feed that ends a C string literal written with backslash n. *)
Definition LF : string := String (Ascii.ascii_of_nat 10) EmptyString.

(** The text "%u" prints for an unsigned number. *)
Definition fmt_u (n : Z) : string := NilZero.string_of_uint (N.to_uint (Z.to_N n)).

(** Modelled from the spec: the [RegisterInfo] struct is declared in
    lldb-private-types.h, which is not among the sources.  The fields are
    the ones RegisterContext.cpp reads.  [value_regs] is a pointer in the
    code ([None] is the null pointer); the file only tests it for null. *)
Record RegisterInfo := {
  name : string;
  alt_name : option string;
  byte_size : Z;
  kinds : RegisterKind -> Z;
  value_regs : option (list Z);
  dynamic_size_dwarf_expr_bytes : list Z;
  dynamic_size_dwarf_len : Z
}.

(** Modelled from the spec: [RegisterSet] (lldb-private-types.h): a named,
    ordered group of register indices; [num_registers] is the length of
    [registers]. *)
Record RegisterSet := {
  set_name : string;
  registers : list Z
}.

Definition num_registers (reg_set : RegisterSet) : Z :=
  Z.of_nat (List.length (registers reg_set)).

Record ArchSpec := {
  GetAddressByteSize : Z;
  GetByteOrder : ByteOrder
}.

(** Handles of the objects the context refers to but does not own. *)
Definition ThreadH := nat.
Definition ProcessH := nat.
Definition TargetH := nat.
Definition FrameH := nat.
Definition CtxH := nat.

(** The data members of [RegisterContext]; [self] is the identity of the
    object, under which its virtual members are called. *)
Record RegisterContext := {
  self : CtxH;
  m_thread : ThreadH;
  m_concrete_frame_idx : Z;
  m_stop_id : Z
}.

(** [GetStopID] and [SetStopID] are the accessors of [m_stop_id]. *)
Definition GetStopID (this : RegisterContext) : Z := m_stop_id this.

Definition SetStopID (this : RegisterContext) (stop_id : Z) : RegisterContext :=
  {| self := self this; m_thread := m_thread this;
     m_concrete_frame_idx := m_concrete_frame_idx this; m_stop_id := stop_id |}.

(** What [DWARFExpression::Evaluate] hands back: whether it succeeded, what
    [result.GetScalar().SInt(-1)] then yields, and the error it set. *)
Record EvalResult := {
  eval_ok : bool;
  eval_SInt : Z;
  eval_error : Status
}.

(** The operations of [RegisterValue] (lldb/Utility/RegisterValue.cpp, not
    among the sources) that the file calls, as an interface. *)
Class RegisterValueOps (RV : Type) := {
  (** [RegisterValue value;] *)
  rv_default : RV;
  (** [RegisterValue::kMaxRegisterByteSize] *)
  kMaxRegisterByteSize : Z;
  (** [value.SetUInt(uval, byte_size)] on a fresh value *)
  SetUInt : Z -> Z -> bool * RV;
  (** [value.GetAsUInt64()] *)
  GetAsUInt64 : RV -> Z;
  (** [reg_value.SetFromMemoryData(reg_info, src, src_len, order, error)]:
      the byte count, the new value, the new error *)
  SetFromMemoryData :
    RV -> RegisterInfo -> list Z -> Z -> ByteOrder -> Status -> Z * RV * Status;
  (** [reg_value.GetAsMemoryData(reg_info, dst, dst_len, order, error)]:
      the byte count, the bytes put in [dst], the new error *)
  GetAsMemoryData :
    RV -> option RegisterInfo -> Z -> ByteOrder -> Status -> Z * list Z * Status
}.

(** ** The calls that leave the file, and programs over them *)

Section Programs.
Context {RV : Type} {RVO : RegisterValueOps RV}.

Inductive Call :=
| Thread_GetProcess (t : ThreadH)
| Thread_GetID (t : ThreadH)
| Thread_GetRegisterContext (t : ThreadH)
| Thread_GetFrameWithConcreteFrameIndex (t : ThreadH) (idx : Z)
| Thread_ClearStackFrames (t : ThreadH)
| Thread_CalculateTarget (t : ThreadH)
| StackFrame_ChangePC (f : FrameH) (pc : Z)
| Target_GetOpcodeLoadAddress (tg : TargetH) (pc : Z) (cls : AddressClass)
| Process_GetStopID (p : ProcessH)
| Process_GetByteOrder (p : ProcessH)
| Process_ReadMemory (p : ProcessH) (addr : Z) (size : Z)
| Process_WriteMemory (p : ProcessH) (addr : Z) (buf : list Z) (size : Z)
| InvalidateAllRegisters (c : CtxH)
| GetRegisterCount (c : CtxH)
| GetRegisterInfoAtIndex (c : CtxH) (reg : Z)
| GetRegisterSetCount (c : CtxH)
| GetRegisterSet (c : CtxH) (set_idx : Z)
| ReadRegister (c : CtxH) (reg_info : RegisterInfo) (reg_value : RV)
| WriteRegister (c : CtxH) (reg_info : RegisterInfo) (reg_value : RV)
| ConvertRegisterKindToRegisterNumber (c : CtxH) (kind : RegisterKind) (num : Z)
| DWARFExpression_Evaluate (c : CtxH) (opcodes : list Z) (len : Z)
    (order : ByteOrder) (addr_size : Z) (reg_kind : RegisterKind)
| printf (fmt : string) (arg : option string).

(** What each call answers.  Pointers and shared pointers answer an
    option; [ReadRegister] answers its result and the value it left in
    [reg_value]; the memory calls answer the byte count, the buffer (for a
    read) and the error they set. *)
Definition Answer (c : Call) : Type :=
  match c with
  | Thread_GetProcess _ => option ProcessH
  | Thread_GetID _ => Z
  | Thread_GetRegisterContext _ => option CtxH
  | Thread_GetFrameWithConcreteFrameIndex _ _ => option FrameH
  | Thread_ClearStackFrames _ => unit
  | Thread_CalculateTarget _ => option TargetH
  | StackFrame_ChangePC _ _ => unit
  | Target_GetOpcodeLoadAddress _ _ _ => Z
  | Process_GetStopID _ => Z
  | Process_GetByteOrder _ => ByteOrder
  | Process_ReadMemory _ _ _ => (Z * list Z * Status)%type
  | Process_WriteMemory _ _ _ _ => (Z * Status)%type
  | InvalidateAllRegisters _ => unit
  | GetRegisterCount _ => Z
  | GetRegisterInfoAtIndex _ _ => option RegisterInfo
  | GetRegisterSetCount _ => Z
  | GetRegisterSet _ _ => option RegisterSet
  | ReadRegister _ _ _ => (bool * RV)%type
  | WriteRegister _ _ _ => bool
  | ConvertRegisterKindToRegisterNumber _ _ _ => Z
  | DWARFExpression_Evaluate _ _ _ _ _ _ => EvalResult
  | printf _ _ => unit
  end.

(** A program: it returns, makes a call and goes on with the answer, or
    dereferences a null pointer. *)
Inductive Prog (R : Type) : Type :=
| Ret (r : R)
| Do (c : Call) (k : Answer c -> Prog R)
| Undefined.
Arguments Ret {R} r.
Arguments Do {R} c k.
Arguments Undefined {R}.

Fixpoint bind {A B : Type} (p : Prog A) (f : A -> Prog B) : Prog B :=
  match p with
  | Ret a => f a
  | Do c k => Do c (fun x => bind (k x) f)
  | Undefined => Undefined
  end.

Definition call (c : Call) : Prog (Answer c) := Do c Ret.

(** A call together with its answer, as recorded by a run. *)
Record Event := Ev { ev_call : Call; ev_answer : Answer ev_call }.

Section Run.
Context {World : Type}.
Variable handler : forall c : Call, World -> Answer c * World.

(** [run p w]: the result ([None] after undefined behaviour), the world
    left behind and the calls made, oldest first. *)
Fixpoint run {R : Type} (p : Prog R) (w : World)
  : option R * World * list Event :=
  match p with
  | Ret r => (Some r, w, [])
  | Do c k =>
      let '(x, w1) := handler c w in
      let '(r, w2, tr) := run (k x) w1 in
      (r, w2, Ev c x :: tr)
  | Undefined => (None, w, [])
  end.

Definition result {R} (p : Prog R) (w : World) : option R := fst (fst (run p w)).
Definition world_after {R} (p : Prog R) (w : World) : World := snd (fst (run p w)).
Definition trace {R} (p : Prog R) (w : World) : list Event := snd (run p w).
End Run.
End Programs.

Arguments Call : clear implicits.
Arguments Prog : clear implicits.
Arguments Event : clear implicits.
Arguments Ret {RV R} r.
Arguments Do {RV R} c k.
Arguments Undefined {RV R}.

Declare Scope prog_scope.
Delimit Scope prog_scope with prog.
Notation "x <- p ;; k" := (bind p (fun x => k))
  (at level 61, p at next level, right associativity) : prog_scope.
Notation "' pat <- p ;; k" := (bind p (fun x => match x with pat => k end))
  (at level 61, pat pattern, p at next level, right associativity) : prog_scope.
Notation "p ;; k" := (bind p (fun _ => k))
  (at level 61, right associativity) : prog_scope.
Open Scope prog_scope.

(** ** The member functions of RegisterContext.cpp *)

Section RegisterContextCpp.
Context {RV : Type} {RVO : RegisterValueOps RV}.

Definition to_uint32 (n : Z) : Z := n mod 2 ^ 32.

Definition GetThreadID (this : RegisterContext) : Prog RV Z :=
  call (Thread_GetID (m_thread this)).

(** [void RegisterContext::InvalidateIfNeeded(bool force)]; the result is
    the object with its [m_stop_id] as the call leaves it. *)
Definition InvalidateIfNeeded (this : RegisterContext) (force : bool)
  : Prog RV RegisterContext :=
  process_sp <- call (Thread_GetProcess (m_thread this)) ;;
  let invalidate := force in
  let process_stop_id := UINT32_MAX in
  '(process_stop_id, invalidate) <-
    match process_sp with
    | Some process => id <- call (Process_GetStopID process) ;; Ret (id, invalidate)
    | None => Ret (process_stop_id, true)
    end ;;
  let invalidate :=
    if negb invalidate then negb (process_stop_id =? GetStopID this)
    else invalidate in
  if invalidate then
    call (InvalidateAllRegisters (self this)) ;;
    Ret (SetStopID this process_stop_id)
  else Ret this.

(** [uint32_t RegisterContext::UpdateDynamicRegisterSize(arch, reg_info)].
    The execution context, the data extractor and the expression object are
    built from the arguments and passed to the one call of [Evaluate]. *)
Definition UpdateDynamicRegisterSize (this : RegisterContext) (arch : ArchSpec)
    (reg_info : RegisterInfo) : Prog RV Z :=
  let addr_size := GetAddressByteSize arch in
  let dwarf_opcode_ptr := dynamic_size_dwarf_expr_bytes reg_info in
  let dwarf_opcode_len := dynamic_size_dwarf_len reg_info in
  r <- call (DWARFExpression_Evaluate (self this) dwarf_opcode_ptr dwarf_opcode_len
               (GetByteOrder arch) addr_size eRegisterKindDWARF) ;;
  if eval_ok r then
    let expr_result := eval_SInt r in
    if expr_result =? 0 then Ret 4
    else if expr_result =? 1 then Ret 8
    else Ret (byte_size reg_info)
  else
    call (printf ("Error executing DwarfExpression::Evaluate %s" ++ LF)
            (AsCString (eval_error r))) ;;
    Ret (byte_size reg_info).

(** [ReadRegisterAsUnsigned(const RegisterInfo *reg_info, fail_value)] *)
Definition ReadRegisterAsUnsigned_info (this : RegisterContext)
    (reg_info : option RegisterInfo) (fail_value : Z) : Prog RV Z :=
  match reg_info with
  | Some ri =>
      '(ok, value) <- call (ReadRegister (self this) ri rv_default) ;;
      if ok then Ret (GetAsUInt64 value) else Ret fail_value
  | None => Ret fail_value
  end.

(** [ReadRegisterAsUnsigned(uint32_t reg, fail_value)] *)
Definition ReadRegisterAsUnsigned (this : RegisterContext) (reg : Z)
    (fail_value : Z) : Prog RV Z :=
  if negb (reg =? LLDB_INVALID_REGNUM) then
    reg_info <- call (GetRegisterInfoAtIndex (self this) reg) ;;
    ReadRegisterAsUnsigned_info this reg_info fail_value
  else Ret fail_value.

(** [WriteRegisterFromUnsigned(const RegisterInfo *reg_info, uval)] *)
Definition WriteRegisterFromUnsigned_info (this : RegisterContext)
    (reg_info : option RegisterInfo) (uval : Z) : Prog RV bool :=
  match reg_info with
  | Some ri =>
      let '(ok, value) := SetUInt uval (byte_size ri) in
      if ok then call (WriteRegister (self this) ri value) else Ret false
  | None => Ret false
  end.

(** [WriteRegisterFromUnsigned(uint32_t reg, uval)] *)
Definition WriteRegisterFromUnsigned (this : RegisterContext) (reg : Z)
    (uval : Z) : Prog RV bool :=
  if reg =? LLDB_INVALID_REGNUM then Ret false
  else
    reg_info <- call (GetRegisterInfoAtIndex (self this) reg) ;;
    WriteRegisterFromUnsigned_info this reg_info uval.

(** [uint64_t RegisterContext::GetPC(uint64_t fail_value)] *)
Definition GetPC (this : RegisterContext) (fail_value : Z) : Prog RV Z :=
  reg <- call (ConvertRegisterKindToRegisterNumber (self this)
                 eRegisterKindGeneric LLDB_REGNUM_GENERIC_PC) ;;
  pc <- ReadRegisterAsUnsigned this reg fail_value ;;
  if negb (pc =? fail_value) then
    target_sp <- call (Thread_CalculateTarget (m_thread this)) ;;
    match target_sp with
    | Some target => call (Target_GetOpcodeLoadAddress target pc eCode)
    | None => Ret pc
    end
  else Ret pc.

(** [bool RegisterContext::SetPC(uint64_t pc)] *)
Definition SetPC (this : RegisterContext) (pc : Z) : Prog RV bool :=
  reg <- call (ConvertRegisterKindToRegisterNumber (self this)
                 eRegisterKindGeneric LLDB_REGNUM_GENERIC_PC) ;;
  success <- WriteRegisterFromUnsigned this reg pc ;;
  if success : bool then
    frame_sp <- call (Thread_GetFrameWithConcreteFrameIndex (m_thread this)
                        (m_concrete_frame_idx this)) ;;
    match frame_sp with
    | Some frame => call (StackFrame_ChangePC frame pc) ;; Ret success
    | None => call (Thread_ClearStackFrames (m_thread this)) ;; Ret success
    end
  else Ret success.

(** The body of the inner loop of [CopyFromRegisterContext], for the
    register number [reg] taken from the register set. *)
Definition copy_register (this context : RegisterContext)
    (frame_zero_context : option CtxH) (reg : Z) : Prog RV unit :=
  reg_info <- call (GetRegisterInfoAtIndex (self this) reg) ;;
  match reg_info with
  | None => Ret tt
  | Some ri =>
      match value_regs ri with
      | Some _ => Ret tt
      | None =>
          let reg_value := rv_default in
          '(ok, reg_value) <- call (ReadRegister (self context) ri reg_value) ;;
          if ok then call (WriteRegister (self this) ri reg_value) ;; Ret tt
          else
            match frame_zero_context with
            | None => Undefined
            | Some frame_zero =>
                '(ok0, reg_value) <- call (ReadRegister frame_zero ri reg_value) ;;
                if ok0 then call (WriteRegister (self this) ri reg_value) ;; Ret tt
                else Ret tt
            end
      end
  end.

(** [for (reg_idx = 0; reg_idx < num_registers; ++reg_idx)] over
    [reg_set->registers]. *)
Fixpoint copy_registers (this context : RegisterContext)
    (frame_zero_context : option CtxH) (regs : list Z) : Prog RV unit :=
  match regs with
  | [] => Ret tt
  | reg :: rest =>
      copy_register this context frame_zero_context reg ;;
      copy_registers this context frame_zero_context rest
  end.

(** [for (set_idx = ...; set_idx < num_register_sets; ++set_idx)], with
    [remaining] iterations left; the set's [num_registers] is kept in a
    [uint32_t]. *)
Fixpoint copy_sets (this context : RegisterContext)
    (frame_zero_context : option CtxH) (remaining : nat) (set_idx : Z)
  : Prog RV unit :=
  match remaining with
  | O => Ret tt
  | S remaining' =>
      reg_set <- call (GetRegisterSet (self this) set_idx) ;;
      match reg_set with
      | None => Undefined
      | Some rs =>
          let num_registers := to_uint32 (num_registers rs) in
          copy_registers this context frame_zero_context
            (firstn (Z.to_nat num_registers) (registers rs)) ;;
          copy_sets this context frame_zero_context remaining' (set_idx + 1)
      end
  end.

(** [bool RegisterContext::CopyFromRegisterContext(RegisterContextSP context)];
    the two thread ids are asked for in the order they are written.  The
    count of the source context is kept in a [uint32_t]; this context's
    count is compared as it comes. *)
Definition CopyFromRegisterContext (this context : RegisterContext)
  : Prog RV bool :=
  count <- call (GetRegisterSetCount (self context)) ;;
  let num_register_sets := to_uint32 count in
  context_tid <- GetThreadID context ;;
  this_tid <- GetThreadID this ;;
  if negb (context_tid =? this_tid) then Ret false
  else
    this_sets <- call (GetRegisterSetCount (self this)) ;;
    if negb (num_register_sets =? this_sets) then Ret false
    else
      frame_zero_context <- call (Thread_GetRegisterContext (m_thread this)) ;;
      copy_sets this context frame_zero_context (Z.to_nat num_register_sets) 0 ;;
      Ret true.

(** [Status RegisterContext::ReadRegisterValueFromMemory(reg_info, src_addr,
    src_len, reg_value)]: the status returned and [reg_value] as the call
    leaves it. *)
Definition ReadRegisterValueFromMemory (this : RegisterContext)
    (reg_info : option RegisterInfo) (src_addr src_len : Z) (reg_value : RV)
  : Prog RV (Status * RV) :=
  match reg_info with
  | None => Ret (SetErrorString "invalid register info argument.", reg_value)
  | Some ri =>
      if src_len >? kMaxRegisterByteSize then
        Ret (SetErrorString "register too small to receive memory data", reg_value)
      else
        let dst_len := byte_size ri in
        if src_len >? dst_len then
          Ret (SetErrorString
                 (fmt_u src_len ++ " bytes is too big to store in register "
                    ++ name ri ++ " (" ++ fmt_u dst_len ++ " bytes)"),
               reg_value)
        else
          process_sp <- call (Thread_GetProcess (m_thread this)) ;;
          match process_sp with
          | Some process =>
              '(n, src, error) <- call (Process_ReadMemory process src_addr src_len) ;;
              let bytes_read := to_uint32 n in
              if negb (bytes_read =? src_len) then
                if Success error then
                  Ret (SetErrorString
                         ("read " ++ fmt_u bytes_read ++ " of " ++ fmt_u src_len
                            ++ " bytes"),
                       reg_value)
                else Ret (error, reg_value)
              else
                order <- call (Process_GetByteOrder process) ;;
                let '(_, reg_value, error) :=
                  SetFromMemoryData reg_value ri src src_len order error in
                Ret (error, reg_value)
          | None => Ret (SetErrorString "invalid process", reg_value)
          end
  end.

(** [Status RegisterContext::WriteRegisterValueToMemory(reg_info, dst_addr,
    dst_len, reg_value)] *)
Definition WriteRegisterValueToMemory (this : RegisterContext)
    (reg_info : option RegisterInfo) (dst_addr dst_len : Z) (reg_value : RV)
  : Prog RV Status :=
  let error := StatusOK in
  process_sp <- call (Thread_GetProcess (m_thread this)) ;;
  match process_sp with
  | Some process =>
      order <- call (Process_GetByteOrder process) ;;
      let '(bytes_copied, dst, error) :=
        GetAsMemoryData reg_value reg_info dst_len order error in
      if Success error then
        if bytes_copied =? 0 then Ret (SetErrorString "byte copy failed.")
        else
          '(n, error) <- call (Process_WriteMemory process dst_addr dst bytes_copied) ;;
          let bytes_written := to_uint32 n in
          if negb (bytes_written =? bytes_copied) then
            if Success error then
              Ret (SetErrorString
                     ("only wrote " ++ fmt_u bytes_written ++ " of "
                        ++ fmt_u bytes_copied ++ " bytes"))
            else Ret error
          else Ret error
      else Ret error
  | None => Ret (SetErrorString "invalid process")
  end.

(** The loop of [ConvertBetweenRegisterKinds] from register [reg] on, with
    [remaining] iterations left; the result is the value returned and
    [target_regnum] as the call leaves it. *)
Fixpoint ConvertBetweenRegisterKinds_from (this : RegisterContext)
    (source_rk : RegisterKind) (source_regnum : Z) (target_rk : RegisterKind)
    (target_regnum : Z) (remaining : nat) (reg : Z) : Prog RV (bool * Z) :=
  match remaining with
  | O => Ret (false, target_regnum)
  | S remaining' =>
      reg_info <- call (GetRegisterInfoAtIndex (self this) reg) ;;
      match reg_info with
      | None => Undefined
      | Some ri =>
          if kinds ri source_rk =? source_regnum then
            let target_regnum := kinds ri target_rk in
            Ret (negb (target_regnum =? LLDB_INVALID_REGNUM), target_regnum)
          else
            ConvertBetweenRegisterKinds_from this source_rk source_regnum
              target_rk target_regnum remaining' (reg + 1)
      end
  end.

(** [bool RegisterContext::ConvertBetweenRegisterKinds(source_rk,
    source_regnum, target_rk, uint32_t &target_regnum)] *)
Definition ConvertBetweenRegisterKinds (this : RegisterContext)
    (source_rk : RegisterKind) (source_regnum : Z) (target_rk : RegisterKind)
    (target_regnum : Z) : Prog RV (bool * Z) :=
  count <- call (GetRegisterCount (self this)) ;;
  let num_registers := to_uint32 count in
  ConvertBetweenRegisterKinds_from this source_rk source_regnum target_rk
    target_regnum (Z.to_nat num_registers) 0.

End RegisterContextCpp.

(** ** A reference world

    One implementation of everything the file calls, small enough to run:
    a process with a flat memory, threads with their cached frames, and
    register contexts backed by a bank of values.  The general theorems
    below hold for every handler; this one instantiates them. *)

Module Sim.

(** Modelled from the spec: [RegisterValue] (RegisterValue.cpp is not among
    the sources) as "a small fixed-capacity byte buffer" holding the bytes
    of the value, least significant first; conversion to and from an
    unsigned 64-bit integer and to and from raw memory bytes with byte
    order translation and zero padding. *)
Definition Value := list Z.

Fixpoint le_bytes (n : nat) (u : Z) : list Z :=
  match n with
  | O => []
  | S n' => (u mod 256) :: le_bytes n' (u / 256)
  end.

Fixpoint le_value (bytes : list Z) : Z :=
  match bytes with
  | [] => 0
  | b :: rest => b + 256 * le_value rest
  end.

Definition zeros (n : nat) : list Z := repeat 0 n.

Definition in_order (order : ByteOrder) (bytes : list Z) : list Z :=
  match order with
  | eByteOrderLittle => bytes
  | eByteOrderBig => rev bytes
  end.

#[global] Instance ValueOps : RegisterValueOps Value := {|
  rv_default := [];
  kMaxRegisterByteSize := 256;
  SetUInt uval size :=
    if (1 <=? size) && (size <=? 8) then (true, le_bytes (Z.to_nat size) uval)
    else (false, []);
  GetAsUInt64 v := le_value (firstn 8 v);
  SetFromMemoryData _ ri src src_len order _ :=
    let data := in_order order (firstn (Z.to_nat src_len) src) in
    (src_len, (data ++ zeros (Z.to_nat (byte_size ri - src_len)))%list, StatusOK);
  GetAsMemoryData v ri dst_len order _ :=
    match ri with
    | None => (0, [], StatusError "invalid register info argument.")
    | Some _ =>
        let n := Z.to_nat dst_len in
        (dst_len, in_order order (firstn n (v ++ zeros n)%list), StatusOK)
    end
|}.

Record Process := {
  stop_id : Z;
  memory : list Z;
  byte_order : ByteOrder;
  (** the error the backend sets when it transfers fewer bytes than asked *)
  short_error : Status
}.

Record Thread := {
  tid : Z;
  frame_zero : option CtxH;
  target : option TargetH
}.

(** A cached frame: its thread, its concrete frame index, its pc. *)
Record Frame := {
  frame_thread : ThreadH;
  concrete_idx : Z;
  frame_pc : Z
}.

Record Context := {
  infos : list RegisterInfo;
  sets : list RegisterSet;
  (** by lldb register number; [None] is a register that cannot be read *)
  bank : list (option Value);
  writable : bool;
  invalidations : nat
}.

Record World := {
  process : option Process;
  threads : list Thread;
  frames : list Frame;
  contexts : list Context;
  (** targets whose opcode load address clears bit 0 *)
  clear_bit0 : bool;
  evaluator : EvalResult;
  stdout : list (string * option string)
}.

Definition no_thread : Thread := {| tid := 0; frame_zero := None; target := None |}.
Definition no_context : Context :=
  {| infos := []; sets := []; bank := []; writable := false; invalidations := 0 |}.

Definition thread_at (w : World) (t : ThreadH) : Thread := nth t (threads w) no_thread.
Definition context_at (w : World) (c : CtxH) : Context := nth c (contexts w) no_context.

Fixpoint update {A : Type} (l : list A) (i : nat) (x : A) : list A :=
  match l, i with
  | [], _ => []
  | _ :: rest, O => x :: rest
  | y :: rest, S i' => y :: update rest i' x
  end.

Definition with_process (w : World) (p : option Process) : World :=
  {| process := p; threads := threads w; frames := frames w;
     contexts := contexts w; clear_bit0 := clear_bit0 w;
     evaluator := evaluator w; stdout := stdout w |}.

Definition with_frames (w : World) (fs : list Frame) : World :=
  {| process := process w; threads := threads w; frames := fs;
     contexts := contexts w; clear_bit0 := clear_bit0 w;
     evaluator := evaluator w; stdout := stdout w |}.

Definition with_context (w : World) (c : CtxH) (x : Context) : World :=
  {| process := process w; threads := threads w; frames := frames w;
     contexts := update (contexts w) c x; clear_bit0 := clear_bit0 w;
     evaluator := evaluator w; stdout := stdout w |}.

Definition with_stdout (w : World) (out : list (string * option string)) : World :=
  {| process := process w; threads := threads w; frames := frames w;
     contexts := contexts w; clear_bit0 := clear_bit0 w;
     evaluator := evaluator w; stdout := out |}.

Definition with_bank (x : Context) (b : list (option Value)) : Context :=
  {| infos := infos x; sets := sets x; bank := b; writable := writable x;
     invalidations := invalidations x |}.

Definition invalidated (x : Context) : Context :=
  {| infos := infos x; sets := sets x; bank := bank x; writable := writable x;
     invalidations := S (invalidations x) |}.

Definition lldb_regnum (ri : RegisterInfo) : nat := Z.to_nat (kinds ri eRegisterKindLLDB).

Fixpoint find_frame (fs : list Frame) (t : ThreadH) (idx : Z) (pos : nat) : option FrameH :=
  match fs with
  | [] => None
  | f :: rest =>
      if Nat.eqb (frame_thread f) t && (concrete_idx f =? idx) then Some pos
      else find_frame rest t idx (S pos)
  end.

Fixpoint find_kind (l : list RegisterInfo) (kind : RegisterKind) (num : Z) : Z :=
  match l with
  | [] => LLDB_INVALID_REGNUM
  | ri :: rest =>
      if kinds ri kind =? num then kinds ri eRegisterKindLLDB
      else find_kind rest kind num
  end.

Definition read_memory (p : Process) (addr size : Z) : Z * list Z * Status :=
  let data := firstn (Z.to_nat size) (skipn (Z.to_nat addr) (memory p)) in
  let n := Z.of_nat (List.length data) in
  (n, data, if n =? size then StatusOK else short_error p).

Definition write_memory (p : Process) (addr : Z) (buf : list Z) (size : Z)
  : Z * Status * Process :=
  let before := firstn (Z.to_nat addr) (memory p) in
  let room := (List.length (memory p) - List.length before)%nat in
  let data := firstn (Nat.min (Z.to_nat size) room) buf in
  let n := Z.of_nat (List.length data) in
  let after := skipn (List.length before + List.length data)%nat (memory p) in
  (n, (if n =? size then StatusOK else short_error p),
   {| stop_id := stop_id p; memory := (before ++ data ++ after)%list;
      byte_order := byte_order p; short_error := short_error p |}).

Definition default_process : Process :=
  {| stop_id := 0; memory := []; byte_order := eByteOrderLittle;
     short_error := StatusOK |}.

Definition the_process (w : World) : Process :=
  match process w with Some p => p | None => default_process end.

Definition handler (c : Call Value) : World -> Answer c * World :=
  match c as c0 return World -> Answer c0 * World with
  | Thread_GetProcess _ => fun w =>
      (match process w with Some _ => Some O | None => None end, w)
  | Thread_GetID t => fun w => (tid (thread_at w t), w)
  | Thread_GetRegisterContext t => fun w => (frame_zero (thread_at w t), w)
  | Thread_GetFrameWithConcreteFrameIndex t idx => fun w =>
      (find_frame (frames w) t idx O, w)
  | Thread_ClearStackFrames t => fun w =>
      (tt, with_frames w
             (filter (fun f => negb (Nat.eqb (frame_thread f) t)) (frames w)))
  | Thread_CalculateTarget t => fun w => (target (thread_at w t), w)
  | StackFrame_ChangePC f pc => fun w =>
      (tt, match nth_error (frames w) f with
           | Some fr =>
               with_frames w
                 (update (frames w) f
                    {| frame_thread := frame_thread fr;
                       concrete_idx := concrete_idx fr; frame_pc := pc |})
           | None => w
           end)
  | Target_GetOpcodeLoadAddress _ pc _ => fun w =>
      (if clear_bit0 w then pc - pc mod 2 else pc, w)
  | Process_GetStopID _ => fun w => (stop_id (the_process w), w)
  | Process_GetByteOrder _ => fun w => (byte_order (the_process w), w)
  | Process_ReadMemory _ addr size => fun w =>
      (read_memory (the_process w) addr size, w)
  | Process_WriteMemory _ addr buf size => fun w =>
      let '(n, error, p) := write_memory (the_process w) addr buf size in
      ((n, error), with_process w (Some p))
  | InvalidateAllRegisters c => fun w =>
      (tt, with_context w c (invalidated (context_at w c)))
  | GetRegisterCount c => fun w =>
      (Z.of_nat (List.length (infos (context_at w c))), w)
  | GetRegisterInfoAtIndex c reg => fun w =>
      (nth_error (infos (context_at w c)) (Z.to_nat reg), w)
  | GetRegisterSetCount c => fun w =>
      (Z.of_nat (List.length (sets (context_at w c))), w)
  | GetRegisterSet c set_idx => fun w =>
      (nth_error (sets (context_at w c)) (Z.to_nat set_idx), w)
  | ReadRegister c ri reg_value => fun w =>
      (match nth_error (bank (context_at w c)) (lldb_regnum ri) with
       | Some (Some v) => (true, v)
       | _ => (false, reg_value)
       end, w)
  | WriteRegister c ri reg_value => fun w =>
      let x := context_at w c in
      if writable x && Nat.ltb (lldb_regnum ri) (List.length (bank x)) then
        (true, with_context w c
                 (with_bank x (update (bank x) (lldb_regnum ri) (Some reg_value))))
      else (false, w)
  | ConvertRegisterKindToRegisterNumber c kind num => fun w =>
      (find_kind (infos (context_at w c)) kind num, w)
  | DWARFExpression_Evaluate _ _ _ _ _ _ => fun w => (evaluator w, w)
  | printf fmt arg => fun w => (tt, with_stdout w (stdout w ++ [(fmt, arg)])%list)
  end.

(** The value context [c] holds for the register of [ri]. *)
Definition stored (c : CtxH) (w : World) (ri : RegisterInfo) : option Value :=
  match nth_error (bank (context_at w c)) (lldb_regnum ri) with
  | Some (Some v) => Some v
  | _ => None
  end.

End Sim.

(** ** The remaining member functions of RegisterContext.cpp *)

Definition LLDB_REGNUM_GENERIC_SP : Z := 1.
Definition LLDB_REGNUM_GENERIC_FP : Z := 2.
Definition LLDB_REGNUM_GENERIC_RA : Z := 3.
Definition LLDB_REGNUM_GENERIC_FLAGS : Z := 4.

(** Modelled from the spec: [llvm::StringRef::equals_lower] (llvm/ADT, not
    among the sources), the "case-insensitive comparison" of lookup by name:
    two strings are equal once the letters A to Z are made lower case. *)
Definition ascii_tolower (c : Ascii.ascii) : Ascii.ascii :=
  let n := Ascii.nat_of_ascii c in
  if (Nat.leb 65 n && Nat.leb n 90)%bool then Ascii.ascii_of_nat (n + 32) else c.

Fixpoint lower (s : string) : string :=
  match s with
  | EmptyString => EmptyString
  | String c rest => String (ascii_tolower c) (lower rest)
  end.

Definition equals_lower (a b : string) : bool := String.eqb (lower a) (lower b).

Definition empty (s : string) : bool :=
  match s with EmptyString => true | String _ _ => false end.

(** A [StringRef] made of a [const char *]: empty for the null pointer. *)
Definition StringRef_of (s : option string) : string :=
  match s with Some x => x | None => EmptyString end.

Section RegisterContextRest.
Context {RV : Type} {RVO : RegisterValueOps RV}.

(** [RegisterContext::RegisterContext(Thread &thread, uint32_t
    concrete_frame_idx)] for the object [self0]: the process is
    dereferenced unchecked. *)
Definition RegisterContext_new (self0 : CtxH) (thread : ThreadH)
    (concrete_frame_idx : Z) : Prog RV RegisterContext :=
  process_sp <- call (Thread_GetProcess thread) ;;
  match process_sp with
  | None => Undefined
  | Some process =>
      stop_id <- call (Process_GetStopID process) ;;
      Ret {| self := self0; m_thread := thread;
             m_concrete_frame_idx := concrete_frame_idx; m_stop_id := stop_id |}
  end.

(** The loop of [GetRegisterInfoByName] from register [reg] on, with
    [remaining] iterations left. *)
Fixpoint GetRegisterInfoByName_from (this : RegisterContext) (reg_name : string)
    (remaining : nat) (reg : Z) : Prog RV (option RegisterInfo) :=
  match remaining with
  | O => Ret None
  | S remaining' =>
      reg_info <- call (GetRegisterInfoAtIndex (self this) reg) ;;
      match reg_info with
      | None => Undefined
      | Some ri =>
          if equals_lower reg_name (name ri)
             || equals_lower reg_name (StringRef_of (alt_name ri))
          then Ret (Some ri)
          else GetRegisterInfoByName_from this reg_name remaining' (reg + 1)
      end
  end.

(** [const RegisterInfo *RegisterContext::GetRegisterInfoByName(reg_name,
    start_idx)] *)
Definition GetRegisterInfoByName (this : RegisterContext) (reg_name : string)
    (start_idx : Z) : Prog RV (option RegisterInfo) :=
  if empty reg_name then Ret None
  else
    count <- call (GetRegisterCount (self this)) ;;
    let num_registers := to_uint32 count in
    GetRegisterInfoByName_from this reg_name
      (Z.to_nat (num_registers - start_idx)) start_idx.

(** [const RegisterInfo *RegisterContext::GetRegisterInfo(kind, num)] *)
Definition GetRegisterInfo (this : RegisterContext) (kind : RegisterKind)
    (num : Z) : Prog RV (option RegisterInfo) :=
  reg_num <- call (ConvertRegisterKindToRegisterNumber (self this) kind num) ;;
  if reg_num =? LLDB_INVALID_REGNUM then Ret None
  else call (GetRegisterInfoAtIndex (self this) reg_num).

(** [const char *RegisterContext::GetRegisterName(uint32_t reg)] *)
Definition GetRegisterName (this : RegisterContext) (reg : Z)
  : Prog RV (option string) :=
  reg_info <- call (GetRegisterInfoAtIndex (self this) reg) ;;
  match reg_info with
  | Some ri => Ret (Some (name ri))
  | None => Ret None
  end.

(** [uint64_t RegisterContext::GetSP(uint64_t fail_value)] *)
Definition GetSP (this : RegisterContext) (fail_value : Z) : Prog RV Z :=
  reg <- call (ConvertRegisterKindToRegisterNumber (self this)
                 eRegisterKindGeneric LLDB_REGNUM_GENERIC_SP) ;;
  ReadRegisterAsUnsigned this reg fail_value.

(** [bool RegisterContext::SetSP(uint64_t sp)] *)
Definition SetSP (this : RegisterContext) (sp : Z) : Prog RV bool :=
  reg <- call (ConvertRegisterKindToRegisterNumber (self this)
                 eRegisterKindGeneric LLDB_REGNUM_GENERIC_SP) ;;
  WriteRegisterFromUnsigned this reg sp.

(** [uint64_t RegisterContext::GetFP(uint64_t fail_value)] *)
Definition GetFP (this : RegisterContext) (fail_value : Z) : Prog RV Z :=
  reg <- call (ConvertRegisterKindToRegisterNumber (self this)
                 eRegisterKindGeneric LLDB_REGNUM_GENERIC_FP) ;;
  ReadRegisterAsUnsigned this reg fail_value.

(** [bool RegisterContext::SetFP(uint64_t fp)] *)
Definition SetFP (this : RegisterContext) (fp : Z) : Prog RV bool :=
  reg <- call (ConvertRegisterKindToRegisterNumber (self this)
                 eRegisterKindGeneric LLDB_REGNUM_GENERIC_FP) ;;
  WriteRegisterFromUnsigned this reg fp.

(** [uint64_t RegisterContext::GetReturnAddress(uint64_t fail_value)] *)
Definition GetReturnAddress (this : RegisterContext) (fail_value : Z) : Prog RV Z :=
  reg <- call (ConvertRegisterKindToRegisterNumber (self this)
                 eRegisterKindGeneric LLDB_REGNUM_GENERIC_RA) ;;
  ReadRegisterAsUnsigned this reg fail_value.

(** [uint64_t RegisterContext::GetFlags(uint64_t fail_value)] *)
Definition GetFlags (this : RegisterContext) (fail_value : Z) : Prog RV Z :=
  reg <- call (ConvertRegisterKindToRegisterNumber (self this)
                 eRegisterKindGeneric LLDB_REGNUM_GENERIC_FLAGS) ;;
  ReadRegisterAsUnsigned this reg fail_value.

End RegisterContextRest.

(** ** Callers: [SetPC(Address)] and the WebAssembly unwinder

    [RegisterContext::SetPC(Address)] and [UnwindWasm] make calls that the
    functions above do not: resolving an [Address] against a target,
    fetching the call stack from the remote stub, and reaching the members
    of a register context through a shared pointer.  Their programs are
    written over the calls above and these. *)

Definition AddressH := nat.

Section Callers.
Context {RV : Type} {RVO : RegisterValueOps RV}.

Inductive XCall :=
| Base (c : Call RV)
| Address_GetCallableLoadAddress (addr : AddressH) (target : option TargetH)
| RegisterContext_members (c : CtxH)
| GDBRemote_GetWasmCallStack (process : ProcessH) (frames : list Z).

(** [RegisterContext_members] answers the thread, the concrete frame index
    and the stop id of the object; [GetWasmCallStack] its result and the
    vector it was given, as it leaves it. *)
Definition XAnswer (c : XCall) : Type :=
  match c with
  | Base c => Answer c
  | Address_GetCallableLoadAddress _ _ => Z
  | RegisterContext_members _ => (ThreadH * Z * Z)%type
  | GDBRemote_GetWasmCallStack _ _ => (bool * list Z)%type
  end.

Inductive XProg (R : Type) : Type :=
| XRet (r : R)
| XDo (c : XCall) (k : XAnswer c -> XProg R)
| XUndefined.
Arguments XRet {R} r.
Arguments XDo {R} c k.
Arguments XUndefined {R}.

Fixpoint xbind {A B : Type} (p : XProg A) (f : A -> XProg B) : XProg B :=
  match p with
  | XRet a => f a
  | XDo c k => XDo c (fun x => xbind (k x) f)
  | XUndefined => XUndefined
  end.

Definition xcall (c : XCall) : XProg (XAnswer c) := XDo c XRet.

(** A program of RegisterContext.cpp, run among the callers' calls. *)
Fixpoint lift {R : Type} (p : Prog RV R) : XProg R :=
  match p with
  | Ret r => XRet r
  | Do c k => XDo (Base c) (fun x => lift (k x))
  | Undefined => XUndefined
  end.

Record XEvent := XEv { xev_call : XCall; xev_answer : XAnswer xev_call }.

Definition lift_event (e : Event RV) : XEvent :=
  match e with Ev c x => XEv (Base c) x end.

Section XRun.
Context {World : Type}.
Variable handler : forall c : XCall, World -> XAnswer c * World.

Fixpoint xrun {R : Type} (p : XProg R) (w : World)
  : option R * World * list XEvent :=
  match p with
  | XRet r => (Some r, w, [])
  | XDo c k =>
      let '(x, w1) := handler c w in
      let '(r, w2, tr) := xrun (k x) w1 in
      (r, w2, XEv c x :: tr)
  | XUndefined => (None, w, [])
  end.

Definition xresult {R} (p : XProg R) (w : World) : option R := fst (fst (xrun p w)).
Definition xtrace {R} (p : XProg R) (w : World) : list XEvent := snd (xrun p w).

(** The handler seen by the programs of RegisterContext.cpp. *)
Definition base_handler (c : Call RV) : World -> Answer c * World :=
  handler (Base c).

End XRun.
End Callers.

Arguments XCall : clear implicits.
Arguments XProg : clear implicits.
Arguments XEvent : clear implicits.
Arguments XRet {RV R} r.
Arguments XDo {RV R} c k.
Arguments XUndefined {RV R}.

Declare Scope xprog_scope.
Delimit Scope xprog_scope with xprog.
Notation "x <- p ;; k" := (xbind p (fun x => k))
  (at level 61, p at next level, right associativity) : xprog_scope.
Notation "' pat <- p ;; k" := (xbind p (fun x => match x with pat => k end))
  (at level 61, pat pattern, p at next level, right associativity) : xprog_scope.
Notation "p ;; k" := (xbind p (fun _ => k))
  (at level 61, right associativity) : xprog_scope.

(** The data members of [UnwindWasm] (UnwindWasm.h); [GetThread] is the
    thread the unwinder was made for. *)
Record UnwindWasm := {
  GetThread : ThreadH;
  m_frames : list Z;
  m_unwind_complete : bool
}.

Section CallersCode.
Context {RV : Type} {RVO : RegisterValueOps RV}.
Local Open Scope xprog_scope.

(** [bool RegisterContext::SetPC(Address addr)] *)
Definition SetPC_Address (this : RegisterContext) (addr : AddressH)
  : XProg RV bool :=
  target_sp <- xcall (Base (Thread_CalculateTarget (m_thread this))) ;;
  let target := target_sp in
  callAddr <- xcall (Address_GetCallableLoadAddress addr target) ;;
  if callAddr =? LLDB_INVALID_ADDRESS then XRet false
  else lift (SetPC this callAddr).

(** [UnwindWasm::UnwindWasm(Thread &thread)] *)
Definition UnwindWasm_new (thread : ThreadH) : UnwindWasm :=
  {| GetThread := thread; m_frames := []; m_unwind_complete := false |}.

(** [void UnwindWasm::DoClear()] *)
Definition DoClear (this : UnwindWasm) : UnwindWasm :=
  {| GetThread := GetThread this; m_frames := []; m_unwind_complete := false |}.

Definition set_frames (this : UnwindWasm) (frames : list Z) : UnwindWasm :=
  {| GetThread := GetThread this; m_frames := frames;
     m_unwind_complete := m_unwind_complete this |}.

Definition size (frames : list Z) : Z := Z.of_nat (List.length frames).

(** [uint32_t UnwindWasm::DoGetFrameCount()]: the count returned and the
    object as the call leaves it. *)
Definition DoGetFrameCount (this : UnwindWasm) : XProg RV (Z * UnwindWasm) :=
  this <-
    (if negb (m_unwind_complete this) then
       let this := {| GetThread := GetThread this; m_frames := m_frames this;
                      m_unwind_complete := true |} in
       let this := set_frames this [] in
       process <- xcall (Base (Thread_GetProcess (GetThread this))) ;;
       match process with
       | Some p =>
           '(ok, frames) <- xcall (GDBRemote_GetWasmCallStack p (m_frames this)) ;;
           let this := set_frames this frames in
           if negb ok then XRet (set_frames this []) else XRet this
       | None => XRet this
       end
     else XRet this) ;;
  XRet (to_uint32 (size (m_frames this)), this).

(** [bool UnwindWasm::DoGetFrameInfoAtIndex(frame_idx, cfa, pc)]: the
    result, [cfa] and [pc] as the call leaves them, and the object. *)
Definition DoGetFrameInfoAtIndex (this : UnwindWasm) (frame_idx : Z)
  : XProg RV (bool * Z * Z * UnwindWasm) :=
  let cfa := 0 in
  this <-
    (if size (m_frames this) =? 0 then
       '(_, this) <- DoGetFrameCount this ;; XRet this
     else XRet this) ;;
  if frame_idx =? 0 then
    reg_ctx_sp <- xcall (Base (Thread_GetRegisterContext (GetThread this))) ;;
    match reg_ctx_sp with
    | None => XUndefined
    | Some c =>
        '(thread, idx, stop_id) <- xcall (RegisterContext_members c) ;;
        let reg_ctx :=
          {| self := c; m_thread := thread; m_concrete_frame_idx := idx;
             m_stop_id := stop_id |} in
        pc <- lift (GetPC reg_ctx LLDB_INVALID_ADDRESS) ;;
        XRet (true, cfa, pc, this)
    end
  else if frame_idx <? size (m_frames this) then
    XRet (true, cfa, nth (Z.to_nat frame_idx) (m_frames this) 0, this)
  else XRet (false, cfa, 0, this).

End CallersCode.

(** ** Scenarios in the reference world *)

Module Scenario.
Import Sim.

Definition kinds_of (generic lldb : Z) (kind : RegisterKind) : Z :=
  match kind with
  | eRegisterKindGeneric => generic
  | eRegisterKindLLDB => lldb
  | eRegisterKindProcessPlugin => lldb
  | _ => LLDB_INVALID_REGNUM
  end.

(** The descriptors of pc and sp, 8 bytes each, numbered 0 and 1. *)
Definition pc_info : RegisterInfo :=
  {| name := "pc"; alt_name := None; byte_size := 8;
     kinds := kinds_of LLDB_REGNUM_GENERIC_PC 0; value_regs := None;
     dynamic_size_dwarf_expr_bytes := []; dynamic_size_dwarf_len := 0 |}.

Definition sp_info : RegisterInfo :=
  {| name := "sp"; alt_name := None; byte_size := 8;
     kinds := kinds_of 1 1; value_regs := None;
     dynamic_size_dwarf_expr_bytes := []; dynamic_size_dwarf_len := 0 |}.

(** A floating point register whose size hangs on a status bit. *)
Definition f0_info : RegisterInfo :=
  {| name := "f0"; alt_name := None; byte_size := 16;
     kinds := kinds_of LLDB_INVALID_REGNUM 2; value_regs := None;
     dynamic_size_dwarf_expr_bytes := [144; 32]; dynamic_size_dwarf_len := 2 |}.

(** A pseudo register made of the low half of sp. *)
Definition wsp_info : RegisterInfo :=
  {| name := "wsp"; alt_name := None; byte_size := 4;
     kinds := kinds_of LLDB_INVALID_REGNUM 2; value_regs := Some [1];
     dynamic_size_dwarf_expr_bytes := []; dynamic_size_dwarf_len := 0 |}.

Definition arch64 : ArchSpec :=
  {| GetAddressByteSize := 8; GetByteOrder := eByteOrderLittle |}.

Definition evaluated (ok : bool) (n : Z) : EvalResult :=
  {| eval_ok := ok; eval_SInt := n;
     eval_error := if ok then StatusOK else StatusError "stack empty" |}.

Definition gpr : RegisterSet :=
  {| set_name := "General"; registers := [0; 1; 2] |}.

Definition table : list RegisterInfo := [pc_info; sp_info; wsp_info].

Definition live_context (b : list (option Value)) : Context :=
  {| infos := table; sets := [gpr]; bank := b;
     writable := true; invalidations := 0 |}.

Definition stopped (generation : Z) (mem : list Z) (short : Status) : Process :=
  {| stop_id := generation; memory := mem; byte_order := eByteOrderLittle;
     short_error := short |}.

(** Two threads, with ids 7 and 9; the frame zero context of the first is
    context 0, that of the second context 2.  Both share one target, whose
    opcode load addresses have bit 0 cleared. *)
Definition world (p : option Process) (fs : list Frame) (ev : EvalResult)
    (cs : list Context) : World :=
  {| process := p;
     threads := [ {| tid := 7; frame_zero := Some O; target := Some O |};
                  {| tid := 9; frame_zero := Some 2%nat; target := Some O |} ];
     frames := fs; contexts := cs; clear_bit0 := true;
     evaluator := ev; stdout := [] |}.

Definition ctx (c : CtxH) (t : ThreadH) (frame : Z) (gen : Z) : RegisterContext :=
  {| self := c; m_thread := t; m_concrete_frame_idx := frame; m_stop_id := gen |}.

(** The context of frame 0 of thread 0, last valid at generation 3. *)
Definition this0 : RegisterContext := ctx O O 0 3.

Definition w_eval (ok : bool) (n : Z) : World :=
  world (Some (stopped 3 [] StatusOK)) [] (evaluated ok n)
    [live_context [Some [0]; Some [0]]].

(** The process has stopped again (generation 5) since [this0] was valid. *)
Definition w_resumed : World :=
  world (Some (stopped 5 [] StatusOK)) [] (evaluated true 0)
    [live_context [Some [0]; Some [0]]].

(** The process is gone. *)
Definition w_gone : World :=
  world None [] (evaluated true 0) [live_context [Some [0]; Some [0]]].

(** A process with two bytes of memory, whose backend calls a short
    transfer a success. *)
Definition w_two_bytes : World :=
  world (Some (stopped 3 [17; 34] StatusOK)) [] (evaluated true 0)
    [live_context [Some [1; 2; 3; 4; 5; 6; 7; 8]; Some [0]]].

(** The same, with a backend that reports the short transfer itself. *)
Definition w_two_bytes_err : World :=
  world (Some (stopped 3 [17; 34] (StatusError "memory not mapped"))) []
    (evaluated true 0) [live_context [Some [1; 2; 3; 4; 5; 6; 7; 8]; Some [0]]].

(** The contexts [xs] in a stopped process: context 0 is frame zero of
    thread 0, context 1 an older frame of thread 0, context 2 frame zero of
    thread 1. *)
Definition three_contexts (xs : list Context) (fs : list Frame) : World :=
  world (Some (stopped 3 [] StatusOK)) fs (evaluated true 0) xs.

Definition frame1 : RegisterContext := ctx 1%nat O 1 3.
Definition other_thread : RegisterContext := ctx 2%nat 1%nat 0 3.

Definition w_threads : World :=
  three_contexts
    [live_context [Some [1]; Some [2]];
     live_context [Some [3]; Some [4]];
     live_context [Some [5]; Some [6]]] [].

(** Thread 0 has cached the frame with concrete index 1 only. *)
Definition w_frame1_cached : World :=
  three_contexts
    [live_context [Some [1]; Some [2]]; live_context [Some [3]; Some [4]]]
    [ {| frame_thread := O; concrete_idx := 1; frame_pc := 4096 |} ].

(** The register sets list pc only; sp has a descriptor and a value but
    is in no set. *)
Definition only_pc : RegisterSet := {| set_name := "PC"; registers := [0] |}.

Definition unlisted_sp (b : list (option Value)) : Context :=
  {| infos := [pc_info; sp_info]; sets := [only_pc]; bank := b;
     writable := true; invalidations := 0 |}.

Definition w_partial_sets : World :=
  three_contexts
    [unlisted_sp [Some [1]; Some [2]]; unlisted_sp [Some [3]; Some [4]]] [].

(** A context that cannot be written (as that of a core file). *)
Definition read_only (b : list (option Value)) : Context :=
  {| infos := table; sets := [gpr]; bank := b;
     writable := false; invalidations := 0 |}.

Definition w_read_only : World :=
  three_contexts
    [read_only [Some [0; 16]; Some [2]]; read_only [Some [3]; Some [4]]] [].

(** Contexts none of whose registers can be read. *)
Definition w_unreadable : World :=
  three_contexts [live_context [None; None]; live_context [None; None]] [].

End Scenario.

(** ** The reference world, with what the callers call *)

Module XSim.

Record World := {
  base : Sim.World;
  (** the call stack the remote stub hands out, if it does *)
  wasm_call_stack : option (list Z);
  (** the callable load address of each address, for any target *)
  callable_load_address : AddressH -> Z;
  (** the thread of each register context *)
  thread_of : CtxH -> ThreadH
}.

Definition with_base (w : World) (b : Sim.World) : World :=
  {| base := b; wasm_call_stack := wasm_call_stack w;
     callable_load_address := callable_load_address w; thread_of := thread_of w |}.

Definition handler (c : XCall Sim.Value) : World -> XAnswer c * World :=
  match c as c0 return World -> XAnswer c0 * World with
  | Base c => fun w =>
      let '(x, b) := Sim.handler c (base w) in (x, with_base w b)
  | Address_GetCallableLoadAddress addr _ => fun w => (callable_load_address w addr, w)
  | RegisterContext_members c => fun w => ((thread_of w c, 0, 0), w)
  | GDBRemote_GetWasmCallStack _ frames => fun w =>
      (match wasm_call_stack w with
       | Some stack => (true, (frames ++ stack)%list)
       | None => (false, frames)
       end, w)
  end.

(** Address 0 resolves to 0x4010, address 1 does not resolve. *)
Definition world (b : Sim.World) (stack : option (list Z)) : World :=
  {| base := b; wasm_call_stack := stack;
     callable_load_address :=
       fun addr => match addr with O => 16400 | _ => LLDB_INVALID_ADDRESS end;
     thread_of := fun _ => O |}.

End XSim.

(** ** Edge cases in the reference world *)

Module Edge.
Import Sim.

(** Context 0 has one register set, context 1 of the same thread two. *)
Definition two_sets (b : list (option Value)) : Context :=
  {| infos := Scenario.table; sets := [Scenario.gpr; Scenario.only_pc]; bank := b;
     writable := true; invalidations := 0 |}.

Definition w_more_sets : World :=
  Scenario.three_contexts
    [Scenario.live_context [Some [1]; Some [2]]; two_sets [Some [3]; Some [4]]] [].

(** A thread that hands out no register context of its own, and contexts
    none of whose registers can be read. *)
Definition w_no_frame_zero : World :=
  {| process := Some (Scenario.stopped 3 [] StatusOK);
     threads := [ {| tid := 7; frame_zero := None; target := Some O |} ];
     frames := [];
     contexts := [Scenario.live_context [None; None];
                  Scenario.live_context [None; None]];
     clear_bit0 := true; evaluator := Scenario.evaluated true 0; stdout := [] |}.

(** The reference world with a context 0 that reports 2^32 + 1 register
    sets. *)
Definition many_sets_handler (c : Call Value) : World -> Answer c * World :=
  match c as c0 return World -> Answer c0 * World with
  | GetRegisterSetCount c' => fun w =>
      if Nat.eqb c' O then (4294967297, w)
      else Sim.handler (GetRegisterSetCount c') w
  | c0 => Sim.handler c0
  end.

(** The reference world with 2^32 + 1 register sets in every context. *)
Definition equal_large_handler (c : Call Value) : World -> Answer c * World :=
  match c as c0 return World -> Answer c0 * World with
  | GetRegisterSetCount c' => fun w => (4294967297, w)
  | c0 => Sim.handler c0
  end.

End Edge.

(** ** What a run shows *)

Section Observations.
Context {RV : Type} {RVO : RegisterValueOps RV} {World : Type}.
Variable h : forall c : Call RV, World -> Answer c * World.

Definition count (f : Event RV -> bool) (calls : list (Event RV)) : nat :=
  List.length (filter f calls).

Definition is_InvalidateAllRegisters (e : Event RV) : bool :=
  match ev_call e with InvalidateAllRegisters _ => true | _ => false end.

Definition is_register_access (e : Event RV) : bool :=
  match ev_call e with
  | ReadRegister _ _ _ | WriteRegister _ _ _ => true
  | _ => false
  end.

Definition is_frame_effect (e : Event RV) : bool :=
  match ev_call e with
  | StackFrame_ChangePC _ _ | Thread_ClearStackFrames _ => true
  | _ => false
  end.

(** The stop generation a call of [InvalidateIfNeeded] made in world [w]
    gets to see: [None] when the process is gone. *)
Definition process_generation (t : ThreadH) (w : World) : option Z :=
  let '(process_sp, w1) := h (Thread_GetProcess t) w in
  match process_sp with
  | Some process => Some (fst (h (Process_GetStopID process) w1))
  | None => None
  end.

(** The call by which [UpdateDynamicRegisterSize] evaluates the program. *)
Definition evaluate_call (this : RegisterContext) (arch : ArchSpec)
    (reg_info : RegisterInfo) : Call RV :=
  DWARFExpression_Evaluate (self this) (dynamic_size_dwarf_expr_bytes reg_info)
    (dynamic_size_dwarf_len reg_info) (GetByteOrder arch)
    (GetAddressByteSize arch) eRegisterKindDWARF.

(** In world [w] the context [c] answers [GetRegisterCount] and
    [GetRegisterInfoAtIndex] from the descriptor table [regs], and the
    questions leave the world as it is. *)
Definition table_at (c : CtxH) (regs : list RegisterInfo) (w : World) : Prop :=
  h (GetRegisterCount c) w = (Z.of_nat (List.length regs), w) /\
  forall reg : Z,
    h (GetRegisterInfoAtIndex c reg) w = (nth_error regs (Z.to_nat reg), w).

(** The first descriptor of the table that maps [kind] to [num]. *)
Definition first_match (regs : list RegisterInfo) (kind : RegisterKind) (num : Z)
  : option RegisterInfo :=
  find (fun ri => kinds ri kind =? num) regs.

(** How often [InvalidateIfNeeded this force], run in world [w], calls
    [InvalidateAllRegisters]. *)
Definition invalidations (this : RegisterContext) (force : bool) (w : World) : nat :=
  count is_InvalidateAllRegisters (trace h (InvalidateIfNeeded this force) w).

(** Whether a call in world [w] finds the cached values stale. *)
Definition stale (this : RegisterContext) (force : bool) (w : World) : bool :=
  force ||
  match process_generation (m_thread this) w with
  | Some g => negb (g =? GetStopID this)
  | None => true
  end.

(** What the scan answers on a table: the first match decides. *)
Definition translated (regs : list RegisterInfo) (source_rk : RegisterKind)
    (source_regnum : Z) (target_rk : RegisterKind) (target_regnum : Z) : bool * Z :=
  match first_match regs source_rk source_regnum with
  | Some ri =>
      (negb (kinds ri target_rk =? LLDB_INVALID_REGNUM), kinds ri target_rk)
  | None => (false, target_regnum)
  end.

(** What the memory backend does for a read of [size] bytes at [addr] asked
    in world [w] through thread [t]: the process is there, hands back [n]
    bytes and sets [error]. *)
Definition read_answers (t : ThreadH) (addr size : Z) (w : World)
    (n : Z) (error : Status) : Prop :=
  exists p w1 src w2,
    h (Thread_GetProcess t) w = (Some p, w1) /\
    h (Process_ReadMemory p addr size) w1 = ((n, src, error), w2).

(** The same for a write of the [copied] bytes [dst]. *)
Definition write_answers (t : ThreadH) (addr : Z) (dst : list Z) (copied : Z)
    (order : ByteOrder) (w : World) (n : Z) (error : Status) : Prop :=
  exists p w1 w2 w3,
    h (Thread_GetProcess t) w = (Some p, w1) /\
    h (Process_GetByteOrder p) w1 = (order, w2) /\
    h (Process_WriteMemory p addr dst copied) w2 = ((n, error), w3).

(** The first half of [SetPC]: resolve the generic program counter and
    write [pc] to it as an unsigned number. *)
Definition write_pc (this : RegisterContext) (pc : Z) : Prog RV bool :=
  reg <- call (ConvertRegisterKindToRegisterNumber (self this)
                 eRegisterKindGeneric LLDB_REGNUM_GENERIC_PC) ;;
  WriteRegisterFromUnsigned this reg pc.

(** The call by which [SetPC] looks its frame up. *)
Definition frame_lookup (this : RegisterContext) : Call RV :=
  Thread_GetFrameWithConcreteFrameIndex (m_thread this) (m_concrete_frame_idx this).

Definition is_successful_write (e : Event RV) : bool :=
  match e with
  | Ev c x =>
      match c as c0 return Answer c0 -> bool with
      | WriteRegister _ _ _ => fun ok => ok
      | _ => fun _ => false
      end x
  end.

Definition is_write (e : Event RV) : bool :=
  match ev_call e with WriteRegister _ _ _ => true | _ => false end.

(** A write of the register called [reg_name]. *)
Definition writes_register (reg_name : string) (e : Event RV) : bool :=
  match ev_call e with
  | WriteRegister _ ri _ => String.eqb (name ri) reg_name
  | _ => false
  end.

(** The descriptor the generic program counter resolves to in world [w],
    the way [GetPC] and [SetPC] look it up: none when the number is
    [LLDB_INVALID_REGNUM] or has no descriptor. *)
Definition pc_descriptor (this : RegisterContext) (w : World)
  : option RegisterInfo :=
  let '(reg, w1) :=
    h (ConvertRegisterKindToRegisterNumber (self this) eRegisterKindGeneric
         LLDB_REGNUM_GENERIC_PC) w in
  if reg =? LLDB_INVALID_REGNUM then None
  else fst (h (GetRegisterInfoAtIndex (self this) reg) w1).

Definition changes_registers (c : Call RV) : bool :=
  match c with
  | WriteRegister _ _ _ | InvalidateAllRegisters _ => true
  | _ => false
  end.

(** The backend of context [c] keeps what it is given: [stored w ri] is
    the value it holds for [ri] in world [w]; a [WriteRegister] that
    answers true stores its value, a [ReadRegister] answers the stored
    value, and the calls that are not register writes or invalidations
    leave stored values alone. *)
Record faithful_store (c : CtxH) (stored : World -> RegisterInfo -> option RV)
  : Prop := {
  write_stores : forall (ri : RegisterInfo) (v : RV) (w : World),
      fst (h (WriteRegister c ri v) w) = true ->
      stored (snd (h (WriteRegister c ri v) w)) ri = Some v;
  read_stored : forall (ri : RegisterInfo) (v v0 : RV) (w : World),
      stored w ri = Some v -> fst (h (ReadRegister c ri v0) w) = (true, v);
  calls_keep : forall (call : Call RV) (w : World) (ri : RegisterInfo) (v : RV),
      changes_registers call = false ->
      stored w ri = Some v -> stored (snd (h call w)) ri = Some v
}.

(** A property of worlds that no call undoes. *)
Definition preserved (Inv : World -> Prop) : Prop :=
  forall (c : Call RV) (w : World), Inv w -> Inv (snd (h c w)).

(** The calls of one pass of the inner loop of [CopyFromRegisterContext],
    for register number [reg]: a register without descriptor or with
    [value_regs] is passed over; otherwise the value the source context
    reads is written to this context, else the value the frame zero
    context reads, else nothing is written. *)
Inductive visit (this context : RegisterContext) (frame_zero : option CtxH)
    (reg : Z) : list (Event RV) -> Prop :=
| visit_no_descriptor :
    visit this context frame_zero reg
      [Ev (GetRegisterInfoAtIndex (self this) reg) None]
| visit_pseudo (ri : RegisterInfo) (parts : list Z) :
    value_regs ri = Some parts ->
    visit this context frame_zero reg
      [Ev (GetRegisterInfoAtIndex (self this) reg) (Some ri)]
| visit_from_source (ri : RegisterInfo) (v : RV) (written : bool) :
    value_regs ri = None ->
    visit this context frame_zero reg
      [Ev (GetRegisterInfoAtIndex (self this) reg) (Some ri);
       Ev (ReadRegister (self context) ri rv_default) (true, v);
       Ev (WriteRegister (self this) ri v) written]
| visit_from_frame_zero (ri : RegisterInfo) (f : CtxH) (v0 v : RV) (written : bool) :
    value_regs ri = None ->
    frame_zero = Some f ->
    visit this context frame_zero reg
      [Ev (GetRegisterInfoAtIndex (self this) reg) (Some ri);
       Ev (ReadRegister (self context) ri rv_default) (false, v0);
       Ev (ReadRegister f ri v0) (true, v);
       Ev (WriteRegister (self this) ri v) written]
| visit_unreadable (ri : RegisterInfo) (f : CtxH) (v0 v : RV) :
    value_regs ri = None ->
    frame_zero = Some f ->
    visit this context frame_zero reg
      [Ev (GetRegisterInfoAtIndex (self this) reg) (Some ri);
       Ev (ReadRegister (self context) ri rv_default) (false, v0);
       Ev (ReadRegister f ri v0) (false, v)].

(** The register numbers of a set that the inner loop goes through: the
    first [num_registers], taken as a [uint32_t]. *)
Definition listed (rs : RegisterSet) : list Z :=
  firstn (Z.to_nat (to_uint32 (num_registers rs))) (registers rs).

(** The calls of the inner loop over the registers [regs] of a set. *)
Inductive visits (this context : RegisterContext) (frame_zero : option CtxH)
  : list Z -> list (Event RV) -> Prop :=
| visits_nil : visits this context frame_zero [] []
| visits_cons (reg : Z) (rest : list Z) (t ts : list (Event RV)) :
    visit this context frame_zero reg t ->
    visits this context frame_zero rest ts ->
    visits this context frame_zero (reg :: rest) (t ++ ts)%list.

(** The calls of the outer loop from set [set_idx] on, with [remaining]
    sets to go: each set is fetched from this context and its registers
    are visited in order. *)
Inductive set_visits (this context : RegisterContext) (frame_zero : option CtxH)
  : nat -> Z -> list (Event RV) -> Prop :=
| set_visits_done (set_idx : Z) :
    set_visits this context frame_zero O set_idx []
| set_visits_next (remaining : nat) (set_idx : Z) (rs : RegisterSet)
    (t ts : list (Event RV)) :
    visits this context frame_zero (listed rs) t ->
    set_visits this context frame_zero remaining (set_idx + 1) ts ->
    set_visits this context frame_zero (S remaining) set_idx
      (Ev (GetRegisterSet (self this) set_idx) (Some rs) :: t ++ ts)%list.

End Observations.

(** ** Further observations *)

Section MoreObservations.
Context {RV : Type} {RVO : RegisterValueOps RV} {World : Type}.
Variable h : forall c : Call RV, World -> Answer c * World.

(** Whether the descriptor answers to [reg_name], by name or alternate
    name, ignoring case. *)
Definition answers_to (reg_name : string) (ri : RegisterInfo) : bool :=
  equals_lower reg_name (name ri)
  || equals_lower reg_name (StringRef_of (alt_name ri)).

Definition is_target_call (e : Event RV) : bool :=
  match ev_call e with
  | Thread_CalculateTarget _ | Target_GetOpcodeLoadAddress _ _ _ => true
  | _ => false
  end.

Definition is_ReadRegister (e : Event RV) : bool :=
  match ev_call e with ReadRegister _ _ _ => true | _ => false end.

Definition is_ReadMemory (e : Event RV) : bool :=
  match ev_call e with Process_ReadMemory _ _ _ => true | _ => false end.

Definition is_WriteMemory (e : Event RV) : bool :=
  match ev_call e with Process_WriteMemory _ _ _ _ => true | _ => false end.

Definition is_descriptor_fetch (e : Event RV) : bool :=
  match ev_call e with GetRegisterInfoAtIndex _ _ => true | _ => false end.

(** A write to a context other than [c]. *)
Definition writes_elsewhere (c : CtxH) (e : Event RV) : bool :=
  match ev_call e with
  | WriteRegister c' _ _ => negb (Nat.eqb c c')
  | _ => false
  end.

(** The descriptor the generic role [role] resolves to in world [w], the
    way the generic accessors look it up. *)
Definition role_descriptor (this : RegisterContext) (role : Z) (w : World)
  : option RegisterInfo :=
  let '(reg, w1) :=
    h (ConvertRegisterKindToRegisterNumber (self this) eRegisterKindGeneric role) w in
  if reg =? LLDB_INVALID_REGNUM then None
  else fst (h (GetRegisterInfoAtIndex (self this) reg) w1).

(** Reading and writing the register of a generic role as an unsigned
    number: the common shape of the accessors for sp, fp, ra and flags. *)
Definition read_role (this : RegisterContext) (role : Z) (fail_value : Z)
  : Prog RV Z :=
  reg <- call (ConvertRegisterKindToRegisterNumber (self this)
                 eRegisterKindGeneric role) ;;
  ReadRegisterAsUnsigned this reg fail_value.

Definition write_role (this : RegisterContext) (role : Z) (uval : Z)
  : Prog RV bool :=
  reg <- call (ConvertRegisterKindToRegisterNumber (self this)
                 eRegisterKindGeneric role) ;;
  WriteRegisterFromUnsigned this reg uval.

(** No two descriptors of the table have the same valid number in [kind]. *)
Definition unique_in_kind (regs : list RegisterInfo) (kind : RegisterKind) : Prop :=
  forall a b : RegisterInfo,
    In a regs -> In b regs ->
    kinds a kind = kinds b kind -> kinds a kind <> LLDB_INVALID_REGNUM -> a = b.

(** Every register write of the calls goes to context [c] and there are
    no more writes than reads. *)
Definition writes_follow_reads (c : CtxH) (calls : list (Event RV)) : Prop :=
  count (writes_elsewhere c) calls = O /\
  (count is_write calls <= count is_ReadRegister calls)%nat.

End MoreObservations.

Section CallerObservations.
Context {RV : Type} {RVO : RegisterValueOps RV}.

Definition xcount (f : XEvent RV -> bool) (calls : list (XEvent RV)) : nat :=
  List.length (filter f calls).

Definition is_GetWasmCallStack (e : XEvent RV) : bool :=
  match xev_call e with GDBRemote_GetWasmCallStack _ _ => true | _ => false end.

(** What a new or cleared unwinder of thread [t] holds once the stub has
    answered [(ok, frames)]. *)
Definition fetched (t : ThreadH) (ok : bool) (frames : list Z) : UnwindWasm :=
  {| GetThread := t; m_frames := if ok then frames else [];
     m_unwind_complete := true |}.

End CallerObservations.

(** * Properties *)

Section Runs.
Context {RV : Type} {World : Type}.
Variable h : forall c : Call RV, World -> Answer c * World.

Lemma run_bind {A B : Type} (p : Prog RV A) (f : A -> Prog RV B) (w : World) :
  run h (bind p f) w =
  match run h p w with
  | (Some a, w1, t1) =>
      let '(r, w2, t2) := run h (f a) w1 in (r, w2, (t1 ++ t2)%list)
  | (None, w1, t1) => (None, w1, t1)
  end.
Proof.
  revert w. induction p as [a | c k IH | ]; intro w; simpl.
  - destruct (run h (f a) w) as [[r w2] t2]. reflexivity.
  - destruct (h c w) as [x w1]. rewrite IH.
    destruct (run h (k x) w1) as [[[a|] w2] t1]; [|reflexivity].
    destruct (run h (f a) w2) as [[r w3] t2]. reflexivity.
  - reflexivity.
Qed.

End Runs.

Lemma to_uint32_small (n : Z) : 0 <= n <= UINT32_MAX -> to_uint32 n = n.
Proof.
  intro H. unfold to_uint32. apply Z.mod_small. unfold UINT32_MAX in H. lia.
Qed.

Lemma to_uint32_length {A : Type} (l : list A) :
  Z.of_nat (List.length l) <= UINT32_MAX ->
  Z.to_nat (to_uint32 (Z.of_nat (List.length l))) = List.length l.
Proof.
  intro H. rewrite to_uint32_small by lia. apply Nat2Z.id.
Qed.

Arguments to_uint32 : simpl never.

Section DynamicSize.
Context {RV : Type} {RVO : RegisterValueOps RV} {World : Type}.
Variable h : forall c : Call RV, World -> Answer c * World.

(** C1. Resolving the size of a register evaluates its program once; the
    result is 4 when the evaluator succeeds with 0, 8 when it succeeds
    with 1, and the descriptor's [byte_size] when it succeeds with another
    value or fails.  A failure is printed and not handed to the caller:
    the call always returns a size. *)
Theorem UpdateDynamicRegisterSize_resolves
    (this : RegisterContext) (arch : ArchSpec) (reg_info : RegisterInfo)
    (w : World) :
  let r := fst (h (evaluate_call this arch reg_info) w) in
  let size := result h (UpdateDynamicRegisterSize this arch reg_info) w in
  let calls := trace h (UpdateDynamicRegisterSize this arch reg_info) w in
  (eval_ok r = true -> eval_SInt r = 0 -> size = Some 4) /\
  (eval_ok r = true -> eval_SInt r = 1 -> size = Some 8) /\
  (eval_ok r = true -> eval_SInt r <> 0 -> eval_SInt r <> 1 ->
     size = Some (byte_size reg_info)) /\
  (eval_ok r = false ->
     size = Some (byte_size reg_info) /\
     calls = [Ev (evaluate_call this arch reg_info) r;
              Ev (printf ("Error executing DwarfExpression::Evaluate %s" ++ LF)
                    (AsCString (eval_error r))) tt]) /\
  (eval_ok r = true -> calls = [Ev (evaluate_call this arch reg_info) r]) /\
  (exists n, size = Some n).
Proof.
  unfold result, trace, UpdateDynamicRegisterSize, evaluate_call; simpl.
  destruct (h _ w) as [r w1]; simpl.
  destruct (eval_ok r) eqn:Hok; simpl.
  - destruct (eval_SInt r =? 0) eqn:H0; simpl.
    + apply Z.eqb_eq in H0.
      repeat split; intros; try reflexivity; try congruence; eauto.
    + destruct (eval_SInt r =? 1) eqn:H1; simpl.
      * apply Z.eqb_eq in H1. apply Z.eqb_neq in H0.
        repeat split; intros; try reflexivity; try congruence; eauto.
      * repeat split; intros; try reflexivity; try congruence; eauto.
        apply Z.eqb_neq in H0. congruence.
        apply Z.eqb_neq in H1. congruence.
  - destruct (h (printf _ _) w1) as [[] w2]; simpl.
    repeat split; intros; try reflexivity; try congruence; eauto.
Qed.

End DynamicSize.

(** The evaluator stub answers 0, 1, 42 and a failure in turn. *)
Lemma UpdateDynamicRegisterSize_resolves_witness :
  let size ok n :=
    result Sim.handler
      (UpdateDynamicRegisterSize Scenario.this0 Scenario.arch64
         Scenario.f0_info) (Scenario.w_eval ok n) in
  size true 0 = Some 4 /\ size true 1 = Some 8 /\ size true 42 = Some 16 /\
  size false 0 = Some 16.
Proof.
  intro size. unfold size.
  pose proof (fun ok n =>
    UpdateDynamicRegisterSize_resolves Sim.handler Scenario.this0
      Scenario.arch64 Scenario.f0_info (Scenario.w_eval ok n)) as H.
  split; [|split; [|split]].
  - destruct (H true 0) as (H0 & _). apply H0; reflexivity.
  - destruct (H true 1) as (_ & H1 & _). apply H1; reflexivity.
  - destruct (H true 42) as (_ & _ & H2 & _).
    apply H2; [reflexivity | discriminate | discriminate].
  - destruct (H false 0) as (_ & _ & _ & H3 & _).
    apply H3. reflexivity.
Defined.

Section Invalidation.
Context {RV : Type} {RVO : RegisterValueOps RV} {World : Type}.
Variable h : forall c : Call RV, World -> Answer c * World.

Lemma InvalidateIfNeeded_run (this : RegisterContext) (force : bool) (w : World) :
  count is_InvalidateAllRegisters (trace h (InvalidateIfNeeded this force) w)
    = (if stale h this force w then 1 else 0)%nat /\
  result h (InvalidateIfNeeded this force) w =
    Some (if stale h this force w
          then SetStopID this
                 (match process_generation h (m_thread this) w with
                  | Some g => g
                  | None => UINT32_MAX
                  end)
          else this).
Proof.
  unfold stale, process_generation, result, trace, InvalidateIfNeeded; simpl.
  destruct (h (Thread_GetProcess (m_thread this)) w) as [[p|] w1]; simpl.
  - destruct (h (Process_GetStopID p) w1) as [g w2]; simpl.
    destruct force; simpl.
    + destruct (h (InvalidateAllRegisters (self this)) w2) as [[] w3]. simpl. auto.
    + destruct (g =? GetStopID this); simpl.
      * auto.
      * destruct (h (InvalidateAllRegisters (self this)) w2) as [[] w3]. simpl. auto.
  - rewrite orb_true_r.
    destruct force; simpl;
      destruct (h (InvalidateAllRegisters (self this)) w1) as [[] w3]; simpl; auto.
Qed.

(** C2 (amended). [InvalidateIfNeeded] calls [InvalidateAllRegisters],
    once, exactly when [force] is set, the process is gone or the cached
    stop generation differs from the process's, and then records the
    generation it saw ([UINT32_MAX] without a process); otherwise it
    changes nothing.  Two successive calls with [force = false] that both
    find the process present at the same stop generation invalidate at
    most once between them. *)
Theorem InvalidateIfNeeded_gate (this : RegisterContext) (force : bool) (w : World) :
  (invalidations h this force w = if stale h this force w then 1 else 0)%nat /\
  result h (InvalidateIfNeeded this force) w =
    Some (if stale h this force w
          then SetStopID this
                 (match process_generation h (m_thread this) w with
                  | Some g => g
                  | None => UINT32_MAX
                  end)
          else this) /\
  (forall (g : Z) (this1 : RegisterContext),
     let w1 := world_after h (InvalidateIfNeeded this false) w in
     process_generation h (m_thread this) w = Some g ->
     process_generation h (m_thread this) w1 = Some g ->
     result h (InvalidateIfNeeded this false) w = Some this1 ->
     (invalidations h this false w + invalidations h this1 false w1 <= 1)%nat).
Proof.
  unfold invalidations.
  destruct (InvalidateIfNeeded_run this force w) as [Hc Hr].
  split; [exact Hc|]. split; [exact Hr|].
  intros g this1; cbv zeta.
  set (w1 := world_after h (InvalidateIfNeeded this false) w).
  intros Hg Hg1 Hres.
  destruct (InvalidateIfNeeded_run this false w) as [Hc0 Hr0].
  destruct (InvalidateIfNeeded_run this1 false w1) as [Hc1 _].
  rewrite Hc0, Hc1. rewrite Hr0 in Hres. injection Hres as Hthis1.
  assert (Hst1 : stale h this1 false w1 = false).
  { unfold stale in *. simpl in *. rewrite Hg in *.
    assert (Ht : m_thread this1 = m_thread this) by (subst this1; destruct (negb _); reflexivity).
    rewrite Ht, Hg1. subst this1.
    destruct (g =? GetStopID this) eqn:E; simpl.
    - rewrite E. reflexivity.
    - unfold GetStopID, SetStopID; simpl. rewrite Z.eqb_refl. reflexivity. }
  rewrite Hst1. destruct (stale h this false w); simpl; lia.
Qed.

End Invalidation.

(** The process stopped anew: the first call invalidates and records
    generation 5, the second finds nothing to do. *)
Lemma InvalidateIfNeeded_gate_witness :
  (invalidations Sim.handler Scenario.this0 false Scenario.w_resumed
   + invalidations Sim.handler (SetStopID Scenario.this0 5) false
       (world_after Sim.handler (InvalidateIfNeeded Scenario.this0 false)
          Scenario.w_resumed)
   <= 1)%nat.
Proof.
  destruct (InvalidateIfNeeded_gate Sim.handler Scenario.this0 false Scenario.w_resumed)
    as (_ & _ & H).
  apply (H 5); reflexivity.
Defined.

(** C2 as stated fails without a process: nothing changes between the two
    calls, no generation can be read either time, and both calls
    invalidate. *)
Lemma InvalidateIfNeeded_twice_without_process :
  process_generation Sim.handler (m_thread Scenario.this0) Scenario.w_gone = None /\
  process_generation Sim.handler (m_thread Scenario.this0)
    (world_after Sim.handler (InvalidateIfNeeded Scenario.this0 false) Scenario.w_gone)
    = None /\
  result Sim.handler (InvalidateIfNeeded Scenario.this0 false) Scenario.w_gone
    = Some (SetStopID Scenario.this0 UINT32_MAX) /\
  (invalidations Sim.handler Scenario.this0 false Scenario.w_gone
   + invalidations Sim.handler (SetStopID Scenario.this0 UINT32_MAX) false
       (world_after Sim.handler (InvalidateIfNeeded Scenario.this0 false)
          Scenario.w_gone))%nat = 2%nat.
Proof. repeat split. Qed.

Section Translation.
Context {RV : Type} {RVO : RegisterValueOps RV} {World : Type}.
Variable h : forall c : Call RV, World -> Answer c * World.

Lemma ConvertBetweenRegisterKinds_from_scan
    (this : RegisterContext) (s t : RegisterKind) (n target0 : Z) (w : World)
    (regs : list RegisterInfo) :
  (forall reg : Z,
      h (GetRegisterInfoAtIndex (self this) reg) w
      = (nth_error regs (Z.to_nat reg), w)) ->
  forall (rest : list RegisterInfo) (k : nat),
    skipn k regs = rest ->
    result h (ConvertBetweenRegisterKinds_from this s n t target0
                (List.length rest) (Z.of_nat k)) w
    = Some (translated rest s n t target0) /\
    world_after h (ConvertBetweenRegisterKinds_from this s n t target0
                     (List.length rest) (Z.of_nat k)) w = w.
Proof.
  intros Htab rest. induction rest as [|ri rest IH]; intros k Hk.
  - split; reflexivity.
  - assert (Hnth : nth_error regs k = Some ri).
    { rewrite <- (firstn_skipn k regs) at 1. rewrite Hk.
      destruct (Nat.le_gt_cases (List.length regs) k) as [Hle|Hlt].
      - rewrite skipn_all2 in Hk by exact Hle. discriminate.
      - rewrite nth_error_app2; rewrite firstn_length_le by lia; [|lia].
        rewrite Nat.sub_diag. reflexivity. }
    assert (Hk' : skipn (S k) regs = rest).
    { replace (S k) with (1 + k)%nat by lia. rewrite <- skipn_skipn, Hk. reflexivity. }
    specialize (IH (S k) Hk').
    unfold result, world_after in *. simpl.
    rewrite Htab, Nat2Z.id, Hnth. simpl.
    unfold translated, first_match. simpl.
    destruct (kinds ri s =? n) eqn:E; simpl.
    + split; reflexivity.
    + replace (Z.of_nat k + 1) with (Z.of_nat (S k)) by lia.
      destruct (run h _ w) as [[r w'] tr]. simpl in *. exact IH.
Qed.

(** C3 (amended). On a descriptor table of fewer than 2^32 descriptors,
    [ConvertBetweenRegisterKinds] succeeds exactly when some descriptor's
    entry for the source kind equals the source number, the invalid number
    included, and the first such descriptor's number in the target kind is
    not [LLDB_INVALID_REGNUM]; it then hands out that number.  When no
    descriptor's entry for the source kind equals the source number it
    returns false and leaves [target_regnum] as the caller set it. *)
Theorem ConvertBetweenRegisterKinds_first_match
    (this : RegisterContext) (regs : list RegisterInfo)
    (source_rk : RegisterKind) (source_regnum : Z) (target_rk : RegisterKind)
    (target_regnum : Z) (w : World) :
  table_at h (self this) regs w ->
  Z.of_nat (List.length regs) <= UINT32_MAX ->
  let answer :=
    result h (ConvertBetweenRegisterKinds this source_rk source_regnum
                target_rk target_regnum) w in
  answer = Some (translated regs source_rk source_regnum target_rk target_regnum) /\
  (forall m : Z,
      answer = Some (true, m) <->
      exists ri, first_match regs source_rk source_regnum = Some ri /\
                 kinds ri target_rk = m /\ m <> LLDB_INVALID_REGNUM) /\
  ((forall ri, In ri regs -> kinds ri source_rk <> source_regnum) ->
   answer = Some (false, target_regnum)).
Proof.
  intros [Hcount Hinfo] Hsmall answer.
  assert (Hans : answer
                 = Some (translated regs source_rk source_regnum target_rk target_regnum)).
  { unfold answer, result, ConvertBetweenRegisterKinds. simpl.
    rewrite Hcount. cbv zeta. rewrite (to_uint32_length regs Hsmall).
    destruct (ConvertBetweenRegisterKinds_from_scan this source_rk target_rk
                source_regnum target_regnum w regs Hinfo regs O eq_refl) as [Hr _].
    unfold result in Hr. simpl in Hr.
    destruct (run h _ w) as [[r w'] tr]. simpl in *. exact Hr. }
  split; [exact Hans|]. rewrite Hans. unfold translated. split.
  - intro m. split.
    + destruct (first_match regs source_rk source_regnum) as [ri|]; [|discriminate].
      intro H. injection H as Hv Hm. exists ri. repeat split; [exact Hm|].
      apply negb_true_iff, Z.eqb_neq in Hv. congruence.
    + intros (ri & Hf & Hm & Hv). rewrite Hf. subst m.
      apply Z.eqb_neq in Hv. rewrite Hv. reflexivity.
  - intro Hnone. unfold first_match.
    destruct (find _ regs) as [ri|] eqn:Hf; [|reflexivity].
    apply find_some in Hf. destruct Hf as [Hin Heq].
    apply Z.eqb_eq in Heq. exfalso. exact (Hnone ri Hin Heq).
Qed.

End Translation.

(** Generic PC translates to native register 0; a number no descriptor
    carries is not found and the output is left alone. *)
Lemma ConvertBetweenRegisterKinds_first_match_witness :
  result Sim.handler
    (ConvertBetweenRegisterKinds Scenario.this0 eRegisterKindGeneric
       LLDB_REGNUM_GENERIC_PC eRegisterKindProcessPlugin 99) Scenario.w_resumed
  = Some (true, 0) /\
  result Sim.handler
    (ConvertBetweenRegisterKinds Scenario.this0 eRegisterKindGeneric
       5 eRegisterKindProcessPlugin 99) Scenario.w_resumed
  = Some (false, 99).
Proof.
  assert (Htab : table_at Sim.handler (self Scenario.this0)
                   Scenario.table Scenario.w_resumed).
  { split; [reflexivity | intro reg; reflexivity]. }
  assert (Hsmall : Z.of_nat (List.length Scenario.table) <= UINT32_MAX)
    by (vm_compute; discriminate).
  split.
  - destruct (ConvertBetweenRegisterKinds_first_match Sim.handler Scenario.this0
                Scenario.table eRegisterKindGeneric
                LLDB_REGNUM_GENERIC_PC eRegisterKindProcessPlugin 99
                Scenario.w_resumed Htab Hsmall) as (_ & Hiff & _).
    apply Hiff.
    exists Scenario.pc_info. split; [reflexivity|]. split; [reflexivity|discriminate].
  - destruct (ConvertBetweenRegisterKinds_first_match Sim.handler Scenario.this0
                Scenario.table eRegisterKindGeneric
                5 eRegisterKindProcessPlugin 99 Scenario.w_resumed Htab Hsmall)
      as (_ & _ & Hnone).
    apply Hnone.
    intros ri [<-|[<-|[<-|[]]]]; discriminate.
Defined.

(** C3 as stated fails for the invalid number: no descriptor of the table
    has a DWARF number, yet asking for the register whose DWARF number is
    [LLDB_INVALID_REGNUM] succeeds and hands out the number of pc, the
    first descriptor without one. *)
Lemma ConvertBetweenRegisterKinds_matches_the_invalid_number :
  Forall (fun ri => kinds ri eRegisterKindDWARF = LLDB_INVALID_REGNUM) Scenario.table /\
  result Sim.handler
    (ConvertBetweenRegisterKinds Scenario.this0 eRegisterKindDWARF
       LLDB_INVALID_REGNUM eRegisterKindLLDB 99) Scenario.w_resumed
  = Some (true, 0).
Proof. split; [repeat constructor | reflexivity]. Qed.

Section MemoryTransfer.
Context {RV : Type} {RVO : RegisterValueOps RV} {World : Type}.
Variable h : forall c : Call RV, World -> Answer c * World.

(** C4. A read of more bytes than a [RegisterValue] can hold, or than the
    register has, returns an error; the destination value is the one
    passed in, no call is made (the process is not even looked up) and
    the world is as before. *)
Theorem ReadRegisterValueFromMemory_rejects_oversize
    (this : RegisterContext) (ri : RegisterInfo) (src_addr src_len : Z)
    (reg_value : RV) (w : World) :
  src_len > kMaxRegisterByteSize \/ src_len > byte_size ri ->
  exists error : Status,
    run h (ReadRegisterValueFromMemory this (Some ri) src_addr src_len reg_value) w
    = (Some (error, reg_value), w, []) /\
    Fail error = true.
Proof.
  intro Hbig. unfold ReadRegisterValueFromMemory.
  destruct (src_len >? kMaxRegisterByteSize) eqn:Hmax.
  - eexists. split; reflexivity.
  - destruct (src_len >? byte_size ri) eqn:Hsize.
    + eexists. split; reflexivity.
    + exfalso. rewrite Z.gtb_ltb in Hmax, Hsize.
      apply Z.ltb_ge in Hmax, Hsize. lia.
Qed.

(** C5. A transfer the memory backend cuts short is an error.  For a read
    that passed the size checks and got [n < src_len] bytes, and for a
    write of the [copied] bytes of the value of which [n < copied] went
    out, the status returned is a failure: the backend's own error when
    it set one, and an error made here ("read n of m bytes", "only wrote
    n of m bytes") when the backend reported success.  The destination of
    a short read keeps its value. *)
Theorem short_transfer_is_an_error
    (this : RegisterContext) (ri : RegisterInfo) (addr len : Z)
    (reg_value : RV) (w : World) (n : Z) (error : Status) :
  (len <= kMaxRegisterByteSize -> len <= byte_size ri -> len <= UINT32_MAX ->
   read_answers h (m_thread this) addr len w n error -> 0 <= n < len ->
   exists status : Status,
     result h (ReadRegisterValueFromMemory this (Some ri) addr len reg_value) w
     = Some (status, reg_value) /\
     Fail status = true /\
     (Success error = true ->
      status = StatusError ("read " ++ fmt_u n ++ " of " ++ fmt_u len ++ " bytes")) /\
     (Success error = false -> status = error)) /\
  (forall (order : ByteOrder) (copied : Z) (dst : list Z),
      GetAsMemoryData reg_value (Some ri) len order StatusOK = (copied, dst, StatusOK) ->
      copied <= UINT32_MAX ->
      write_answers h (m_thread this) addr dst copied order w n error ->
      0 <= n < copied ->
      exists status : Status,
        result h (WriteRegisterValueToMemory this (Some ri) addr len reg_value) w
        = Some status /\
        Fail status = true /\
        (Success error = true ->
         status = StatusError ("only wrote " ++ fmt_u n ++ " of " ++ fmt_u copied
                                 ++ " bytes")) /\
        (Success error = false -> status = error)).
Proof.
  split.
  - intros Hmax Hsize Hu32 (p & w1 & src & w2 & Hp & Hread) Hn.
    unfold result, ReadRegisterValueFromMemory.
    replace (len >? kMaxRegisterByteSize) with false
      by (symmetry; rewrite Z.gtb_ltb; apply Z.ltb_ge; lia).
    replace (len >? byte_size ri) with false
      by (symmetry; rewrite Z.gtb_ltb; apply Z.ltb_ge; lia).
    simpl. rewrite Hp. simpl. rewrite Hread. simpl.
    assert (Hne : (to_uint32 n =? len) = false).
    { unfold to_uint32. rewrite Z.mod_small by (unfold UINT32_MAX in Hu32; lia).
      apply Z.eqb_neq. lia. }
    assert (Hid : to_uint32 n = n).
    { unfold to_uint32. apply Z.mod_small. unfold UINT32_MAX in Hu32. lia. }
    rewrite Hne. simpl. destruct error as [|msg]; simpl.
    + eexists. split; [reflexivity|]. rewrite Hid.
      repeat split; intros; try reflexivity; discriminate.
    + eexists. split; [reflexivity|].
      repeat split; intros; try reflexivity; discriminate.
  - intros order copied dst Hcopy Hu32 (p & w1 & w2 & w3 & Hp & Ho & Hwrite) Hn.
    unfold result, WriteRegisterValueToMemory.
    simpl. rewrite Hp. simpl. rewrite Ho. simpl. rewrite Hcopy. simpl.
    replace (copied =? 0) with false by (symmetry; apply Z.eqb_neq; lia).
    simpl. rewrite Hwrite. simpl.
    assert (Hid : to_uint32 n = n).
    { unfold to_uint32. apply Z.mod_small. unfold UINT32_MAX in Hu32. lia. }
    rewrite Hid.
    replace (n =? copied) with false by (symmetry; apply Z.eqb_neq; lia).
    simpl. destruct error as [|msg]; simpl.
    + eexists. split; [reflexivity|].
      repeat split; intros; try reflexivity; discriminate.
    + eexists. split; [reflexivity|].
      repeat split; intros; try reflexivity; discriminate.
Qed.

End MemoryTransfer.

(** Sixteen bytes for the 8-byte pc, and 300 bytes for any register. *)
Lemma ReadRegisterValueFromMemory_rejects_oversize_witness :
  (exists error : Status,
      run Sim.handler
        (ReadRegisterValueFromMemory Scenario.this0 (Some Scenario.pc_info) 0 16 [1; 2])
        Scenario.w_two_bytes
      = (Some (error, [1; 2]), Scenario.w_two_bytes, []) /\ Fail error = true) /\
  (exists error : Status,
      run Sim.handler
        (ReadRegisterValueFromMemory Scenario.this0 (Some Scenario.f0_info) 0 300 [1; 2])
        Scenario.w_two_bytes
      = (Some (error, [1; 2]), Scenario.w_two_bytes, []) /\ Fail error = true).
Proof.
  split.
  - apply (ReadRegisterValueFromMemory_rejects_oversize Sim.handler).
    right. reflexivity.
  - apply (ReadRegisterValueFromMemory_rejects_oversize Sim.handler).
    left. reflexivity.
Defined.

(** Four bytes asked of a memory that has two: with a backend that calls
    the short transfer a success, and with one that reports it. *)
Lemma short_transfer_is_an_error_witness :
  result Sim.handler
    (ReadRegisterValueFromMemory Scenario.this0 (Some Scenario.pc_info) 0 4 [9])
    Scenario.w_two_bytes
  = Some (StatusError "read 2 of 4 bytes", [9]) /\
  result Sim.handler
    (ReadRegisterValueFromMemory Scenario.this0 (Some Scenario.pc_info) 0 4 [9])
    Scenario.w_two_bytes_err
  = Some (StatusError "memory not mapped", [9]) /\
  result Sim.handler
    (WriteRegisterValueToMemory Scenario.this0 (Some Scenario.pc_info) 0 4
       [1; 2; 3; 4; 5; 6; 7; 8])
    Scenario.w_two_bytes
  = Some (StatusError "only wrote 2 of 4 bytes") /\
  result Sim.handler
    (WriteRegisterValueToMemory Scenario.this0 (Some Scenario.pc_info) 0 4
       [1; 2; 3; 4; 5; 6; 7; 8])
    Scenario.w_two_bytes_err
  = Some (StatusError "memory not mapped").
Proof.
  pose proof (fun v w error =>
    short_transfer_is_an_error Sim.handler Scenario.this0 Scenario.pc_info
      0 4 v w 2 error) as H.
  assert (Hmax : 4 <= kMaxRegisterByteSize) by (vm_compute; discriminate).
  assert (Hsize : 4 <= byte_size Scenario.pc_info) by (vm_compute; discriminate).
  assert (Hu32 : 4 <= UINT32_MAX) by (vm_compute; discriminate).
  assert (Hn : 0 <= 2 < 4) by lia.
  assert (Hr : read_answers Sim.handler (m_thread Scenario.this0) 0 4
                 Scenario.w_two_bytes 2 StatusOK).
  { exists O, Scenario.w_two_bytes, [17; 34], Scenario.w_two_bytes.
    split; reflexivity. }
  assert (Hr' : read_answers Sim.handler (m_thread Scenario.this0) 0 4
                  Scenario.w_two_bytes_err 2 (StatusError "memory not mapped")).
  { exists O, Scenario.w_two_bytes_err, [17; 34], Scenario.w_two_bytes_err.
    split; reflexivity. }
  assert (Hw : write_answers Sim.handler (m_thread Scenario.this0) 0 [1; 2; 3; 4] 4
                 eByteOrderLittle Scenario.w_two_bytes 2 StatusOK).
  { eexists O, Scenario.w_two_bytes, Scenario.w_two_bytes, _. repeat split. }
  assert (Hw' : write_answers Sim.handler (m_thread Scenario.this0) 0 [1; 2; 3; 4] 4
                  eByteOrderLittle Scenario.w_two_bytes_err 2
                  (StatusError "memory not mapped")).
  { eexists O, Scenario.w_two_bytes_err, Scenario.w_two_bytes_err, _. repeat split. }
  split; [|split; [|split]].
  - destruct (H [9] Scenario.w_two_bytes StatusOK) as [Hread _].
    destruct (Hread Hmax Hsize Hu32 Hr Hn)
      as (status & Hres & _ & Hok & _).
    rewrite (Hok eq_refl) in Hres. exact Hres.
  - destruct (H [9] Scenario.w_two_bytes_err (StatusError "memory not mapped"))
      as [Hread _].
    destruct (Hread Hmax Hsize Hu32 Hr' Hn)
      as (status & Hres & _ & _ & Herr).
    rewrite (Herr eq_refl) in Hres. exact Hres.
  - destruct (H [1; 2; 3; 4; 5; 6; 7; 8] Scenario.w_two_bytes StatusOK) as [_ Hwrite].
    destruct (Hwrite eByteOrderLittle 4 [1; 2; 3; 4] eq_refl Hu32 Hw Hn)
      as (status & Hres & _ & Hok & _).
    rewrite (Hok eq_refl) in Hres. exact Hres.
  - destruct (H [1; 2; 3; 4; 5; 6; 7; 8] Scenario.w_two_bytes_err
                (StatusError "memory not mapped")) as [_ Hwrite].
    destruct (Hwrite eByteOrderLittle 4 [1; 2; 3; 4] eq_refl Hu32 Hw' Hn)
      as (status & Hres & _ & _ & Herr).
    rewrite (Herr eq_refl) in Hres. exact Hres.
Defined.

Section CopyPreconditions.
Context {RV : Type} {RVO : RegisterValueOps RV} {World : Type}.
Variable h : forall c : Call RV, World -> Answer c * World.

(** C6 (amended). When the two contexts' threads report different ids, or
    the ids agree and the source context's number of register sets, as
    kept in 32 bits, differs from this context's, [CopyFromRegisterContext]
    returns false having asked for nothing but those ids and counts: no
    register is read and none is written.  So it does whenever the source
    context's count is below 2^32 and the two counts differ. *)
Theorem CopyFromRegisterContext_rejects_mismatch
    (this context : RegisterContext) (w w1 w2 w3 : World)
    (sets_context tid_context tid_this : Z) :
  h (GetRegisterSetCount (self context)) w = (sets_context, w1) ->
  h (Thread_GetID (m_thread context)) w1 = (tid_context, w2) ->
  h (Thread_GetID (m_thread this)) w2 = (tid_this, w3) ->
  (tid_context <> tid_this ->
   run h (CopyFromRegisterContext this context) w
   = (Some false, w3,
      [Ev (GetRegisterSetCount (self context)) sets_context;
       Ev (Thread_GetID (m_thread context)) tid_context;
       Ev (Thread_GetID (m_thread this)) tid_this])) /\
  (forall (sets_this : Z) (w4 : World),
      tid_context = tid_this ->
      h (GetRegisterSetCount (self this)) w3 = (sets_this, w4) ->
      to_uint32 sets_context <> sets_this ->
      run h (CopyFromRegisterContext this context) w
      = (Some false, w4,
         [Ev (GetRegisterSetCount (self context)) sets_context;
          Ev (Thread_GetID (m_thread context)) tid_context;
          Ev (Thread_GetID (m_thread this)) tid_this;
          Ev (GetRegisterSetCount (self this)) sets_this])) /\
  ((tid_context <> tid_this \/
    to_uint32 sets_context <> fst (h (GetRegisterSetCount (self this)) w3)) ->
   result h (CopyFromRegisterContext this context) w = Some false /\
   count is_register_access (trace h (CopyFromRegisterContext this context) w) = O) /\
  (0 <= sets_context <= UINT32_MAX ->
   sets_context <> fst (h (GetRegisterSetCount (self this)) w3) ->
   result h (CopyFromRegisterContext this context) w = Some false /\
   count is_register_access (trace h (CopyFromRegisterContext this context) w) = O).
Proof.
  intros Hn Hc Ht.
  assert (Htid : tid_context <> tid_this ->
            run h (CopyFromRegisterContext this context) w
            = (Some false, w3,
               [Ev (GetRegisterSetCount (self context)) sets_context;
                Ev (Thread_GetID (m_thread context)) tid_context;
                Ev (Thread_GetID (m_thread this)) tid_this])).
  { intro Hne. unfold CopyFromRegisterContext, GetThreadID. simpl.
    rewrite Hn. simpl. rewrite Hc. simpl. rewrite Ht. simpl.
    apply Z.eqb_neq in Hne. rewrite Hne. reflexivity. }
  assert (Hsets : forall (sets_this : Z) (w4 : World),
            tid_context = tid_this ->
            h (GetRegisterSetCount (self this)) w3 = (sets_this, w4) ->
            to_uint32 sets_context <> sets_this ->
            run h (CopyFromRegisterContext this context) w
            = (Some false, w4,
               [Ev (GetRegisterSetCount (self context)) sets_context;
                Ev (Thread_GetID (m_thread context)) tid_context;
                Ev (Thread_GetID (m_thread this)) tid_this;
                Ev (GetRegisterSetCount (self this)) sets_this])).
  { intros sets_this w4 Heq Hs Hne. unfold CopyFromRegisterContext, GetThreadID. simpl.
    rewrite Hn. simpl. rewrite Hc. simpl. rewrite Ht. simpl.
    apply Z.eqb_eq in Heq. rewrite Heq. simpl. rewrite Hs. simpl.
    apply Z.eqb_neq in Hne. rewrite Hne. reflexivity. }
  assert (Hboth :
    (tid_context <> tid_this \/
     to_uint32 sets_context <> fst (h (GetRegisterSetCount (self this)) w3)) ->
    result h (CopyFromRegisterContext this context) w = Some false /\
    count is_register_access (trace h (CopyFromRegisterContext this context) w) = O).
  { intros Hmis. unfold result, trace.
    destruct (Z.eq_dec tid_context tid_this) as [Heq|Hne].
    - destruct Hmis as [Hne|Hne]; [contradiction|].
      destruct (h (GetRegisterSetCount (self this)) w3) as [sets_this w4] eqn:Hs.
      rewrite (Hsets sets_this w4 Heq eq_refl Hne). split; reflexivity.
    - rewrite (Htid Hne). split; reflexivity. }
  split; [exact Htid|]. split; [exact Hsets|]. split; [exact Hboth|].
  intros Hrange Hne. apply Hboth. right.
  rewrite to_uint32_small by exact Hrange. exact Hne.
Qed.

End CopyPreconditions.

(** Copying into a context of thread 7 from a context of thread 9, and
    into a context with two register sets from one with one set. *)
Lemma CopyFromRegisterContext_rejects_mismatch_witness :
  (result Sim.handler (CopyFromRegisterContext Scenario.frame1 Scenario.other_thread)
     Scenario.w_threads = Some false /\
   count is_register_access
     (trace Sim.handler (CopyFromRegisterContext Scenario.frame1 Scenario.other_thread)
        Scenario.w_threads) = O) /\
  (result Sim.handler (CopyFromRegisterContext Scenario.frame1 Scenario.this0)
     Edge.w_more_sets = Some false /\
   count is_register_access
     (trace Sim.handler (CopyFromRegisterContext Scenario.frame1 Scenario.this0)
        Edge.w_more_sets) = O).
Proof.
  split.
  - destruct (CopyFromRegisterContext_rejects_mismatch Sim.handler Scenario.frame1
                Scenario.other_thread Scenario.w_threads Scenario.w_threads
                Scenario.w_threads Scenario.w_threads 1 9 7 eq_refl eq_refl eq_refl)
      as (_ & _ & H & _).
    apply H. left. discriminate.
  - destruct (CopyFromRegisterContext_rejects_mismatch Sim.handler Scenario.frame1
                Scenario.this0 Edge.w_more_sets Edge.w_more_sets
                Edge.w_more_sets Edge.w_more_sets 1 7 7 eq_refl eq_refl eq_refl)
      as (_ & _ & _ & H).
    apply H; [vm_compute; split; discriminate | discriminate].
Defined.

(** C6 as stated fails when the source context's count does not fit 32
    bits: context 0 reports 2^32 + 1 register sets and this context 1, the
    counts differ, and yet the copy goes ahead, reads and writes registers
    and returns true. *)
Lemma CopyFromRegisterContext_count_wraps :
  fst (Edge.many_sets_handler (GetRegisterSetCount (self Scenario.this0))
         Scenario.w_threads) = 4294967297 /\
  fst (Edge.many_sets_handler (GetRegisterSetCount (self Scenario.frame1))
         Scenario.w_threads) = 1 /\
  result Edge.many_sets_handler
    (CopyFromRegisterContext Scenario.frame1 Scenario.this0) Scenario.w_threads
  = Some true /\
  count is_register_access
    (trace Edge.many_sets_handler
       (CopyFromRegisterContext Scenario.frame1 Scenario.this0) Scenario.w_threads)
  = 4%nat.
Proof. split; [|split; [|split]]; reflexivity. Qed.

Section ProgramCounter.
Context {RV : Type} {RVO : RegisterValueOps RV} {World : Type}.
Variable h : forall c : Call RV, World -> Answer c * World.

Lemma SetPC_split (this : RegisterContext) (pc : Z) :
  SetPC this pc =
  (success <- write_pc this pc ;;
   if success : bool then
     frame_sp <- call (frame_lookup this) ;;
     match frame_sp with
     | Some frame => call (StackFrame_ChangePC frame pc) ;; Ret success
     | None => call (Thread_ClearStackFrames (m_thread this)) ;; Ret success
     end
   else Ret success).
Proof. reflexivity. Qed.

Lemma write_pc_no_frame_effect (this : RegisterContext) (pc : Z) (w : World) :
  count is_frame_effect (trace h (write_pc this pc) w) = O.
Proof.
  unfold trace, write_pc, WriteRegisterFromUnsigned, WriteRegisterFromUnsigned_info.
  simpl. destruct (h _ w) as [reg w1]. simpl.
  destruct (reg =? LLDB_INVALID_REGNUM); simpl; [reflexivity|].
  destruct (h _ w1) as [[ri|] w2]; simpl; [|reflexivity].
  destruct (SetUInt pc (byte_size ri)) as [[|] v]; simpl; [|reflexivity].
  destruct (h _ w2) as [ok w3]. reflexivity.
Qed.

(** C8. Once [SetPC] has written the program counter, it looks up the
    frame with the context's concrete frame index: a frame that exists is
    told of the new pc ([ChangePC]), otherwise the thread's cached frames
    are cleared ([ClearStackFrames]); these are the last two calls of a
    [SetPC] that returns true.  When the write fails [SetPC] returns false
    and stops there.  The write itself makes no call on the frame layer. *)
Theorem SetPC_frame_effect (this : RegisterContext) (pc : Z) (w w1 : World)
    (calls : list (Event RV)) :
  (forall (frame : FrameH) (w2 : World),
      run h (write_pc this pc) w = (Some true, w1, calls) ->
      h (frame_lookup this) w1 = (Some frame, w2) ->
      run h (SetPC this pc) w
      = (Some true, snd (h (StackFrame_ChangePC frame pc) w2),
         (calls ++ [Ev (frame_lookup this) (Some frame);
                    Ev (StackFrame_ChangePC frame pc) tt])%list)) /\
  (forall w2 : World,
      run h (write_pc this pc) w = (Some true, w1, calls) ->
      h (frame_lookup this) w1 = (None, w2) ->
      run h (SetPC this pc) w
      = (Some true, snd (h (Thread_ClearStackFrames (m_thread this)) w2),
         (calls ++ [Ev (frame_lookup this) None;
                    Ev (Thread_ClearStackFrames (m_thread this)) tt])%list)) /\
  (run h (write_pc this pc) w = (Some false, w1, calls) ->
   run h (SetPC this pc) w = (Some false, w1, calls) /\
   count is_frame_effect calls = O) /\
  count is_frame_effect (trace h (write_pc this pc) w) = O.
Proof.
  split; [|split; [|split]].
  - intros frame w2 Hw Hf. rewrite SetPC_split, run_bind, Hw. simpl.
    rewrite Hf. simpl.
    destruct (h (StackFrame_ChangePC frame pc) w2) as [[] w3]. reflexivity.
  - intros w2 Hw Hf. rewrite SetPC_split, run_bind, Hw. simpl.
    rewrite Hf. simpl.
    destruct (h (Thread_ClearStackFrames (m_thread this)) w2) as [[] w3]. reflexivity.
  - intro Hw. split.
    + rewrite SetPC_split, run_bind, Hw. simpl. rewrite app_nil_r. reflexivity.
    + pose proof (write_pc_no_frame_effect this pc w) as H0.
      unfold trace in H0. rewrite Hw in H0. exact H0.
  - apply write_pc_no_frame_effect.
Qed.

End ProgramCounter.

Section Copy.
Context {RV : Type} {RVO : RegisterValueOps RV} {World : Type}.
Variable h : forall c : Call RV, World -> Answer c * World.

Lemma run_bind_Some {A B : Type} (p : Prog RV A) (f : A -> Prog RV B)
    (w w2 : World) (b : B) (tr : list (Event RV)) :
  run h (bind p f) w = (Some b, w2, tr) ->
  exists a w1 t1 t2,
    run h p w = (Some a, w1, t1) /\ run h (f a) w1 = (Some b, w2, t2) /\
    tr = (t1 ++ t2)%list.
Proof.
  rewrite run_bind. destruct (run h p w) as [[[a|] w1] t1]; [|discriminate].
  destruct (run h (f a) w1) as [[r w3] t2] eqn:Hf.
  intro H. injection H as -> -> <-. exists a, w1, t1, t2. auto.
Qed.

Lemma copy_register_visit (this context : RegisterContext)
    (frame_zero : option CtxH) (reg : Z) (w w' : World) (tr : list (Event RV)) :
  run h (copy_register this context frame_zero reg) w = (Some tt, w', tr) ->
  visit this context frame_zero reg tr.
Proof.
  unfold copy_register. simpl.
  destruct (h (GetRegisterInfoAtIndex (self this) reg) w) as [[ri|] w1]; simpl.
  2: { intro H. injection H as _ <-. constructor. }
  destruct (value_regs ri) as [parts|] eqn:Hparts; simpl.
  { intro H. injection H as _ <-. econstructor. exact Hparts. }
  destruct (h (ReadRegister (self context) ri rv_default) w1) as [[[|] v] w2]; simpl.
  - destruct (h (WriteRegister (self this) ri v) w2) as [written w3]; simpl.
    intro H. injection H as _ <-. constructor. exact Hparts.
  - destruct frame_zero as [f|]; simpl; [|discriminate].
    destruct (h (ReadRegister f ri v) w2) as [[[|] v'] w3]; simpl.
    + destruct (h (WriteRegister (self this) ri v') w3) as [written w4]; simpl.
      intro H. injection H as _ <-. econstructor; [exact Hparts | reflexivity].
    + intro H. injection H as _ <-. econstructor; [exact Hparts | reflexivity].
Qed.

Lemma copy_registers_visits (this context : RegisterContext)
    (frame_zero : option CtxH) (regs : list Z) :
  forall (w w' : World) (tr : list (Event RV)),
    run h (copy_registers this context frame_zero regs) w = (Some tt, w', tr) ->
    visits this context frame_zero regs tr.
Proof.
  induction regs as [|reg rest IH]; intros w w' tr; cbn [copy_registers].
  - intro H. injection H as _ <-. constructor.
  - intro H. apply run_bind_Some in H.
    destruct H as ([] & w1 & t1 & t2 & H1 & H2 & ->).
    constructor.
    + exact (copy_register_visit _ _ _ _ _ _ _ H1).
    + exact (IH _ _ _ H2).
Qed.

Lemma copy_sets_visits (this context : RegisterContext)
    (frame_zero : option CtxH) (remaining : nat) :
  forall (set_idx : Z) (w w' : World) (tr : list (Event RV)),
    run h (copy_sets this context frame_zero remaining set_idx) w = (Some tt, w', tr) ->
    set_visits this context frame_zero remaining set_idx tr.
Proof.
  induction remaining as [|n IH]; intros set_idx w w' tr; simpl.
  - intro H. injection H as _ <-. constructor.
  - destruct (h (GetRegisterSet (self this) set_idx) w) as [[rs|] w1]; simpl.
    2: discriminate.
    destruct (run h (_ ;; _) w1) as [[r w2] t] eqn:Hrest.
    intro H. injection H as -> _ <-.
    apply run_bind_Some in Hrest.
    destruct Hrest as ([] & w3 & t1 & t2 & H1 & H2 & ->).
    constructor.
    + exact (copy_registers_visits _ _ _ _ _ _ _ H1).
    + exact (IH _ _ _ _ H2).
Qed.

(** C7 (amended). A [CopyFromRegisterContext] that returns true has asked
    the two set counts and thread ids and the thread's frame zero context,
    and then gone through this context's register sets in order (as many
    as the source context's count, kept in 32 bits, which this context's
    count equals) and through the register numbers each set lists (its
    first [num_registers], kept in 32 bits).  For each listed number:
    without a descriptor, or with [value_regs] (a pseudo register), no
    register call is made; otherwise the source context is read and, on
    success, that value is written to this context; on failure the frame
    zero context is read with the same buffer and, on success, that value
    is written; when both reads fail nothing is written.  A register that
    no set lists is not visited. *)
Theorem CopyFromRegisterContext_visits
    (this context : RegisterContext) (w w' : World) (tr : list (Event RV)) :
  run h (CopyFromRegisterContext this context) w = (Some true, w', tr) ->
  exists (count_context count_this tid : Z) (frame_zero : option CtxH)
         (body : list (Event RV)),
    tr = ([Ev (GetRegisterSetCount (self context)) count_context;
           Ev (Thread_GetID (m_thread context)) tid;
           Ev (Thread_GetID (m_thread this)) tid;
           Ev (GetRegisterSetCount (self this)) count_this;
           Ev (Thread_GetRegisterContext (m_thread this)) frame_zero]
            ++ body)%list /\
    to_uint32 count_context = count_this /\
    set_visits this context frame_zero (Z.to_nat (to_uint32 count_context)) 0 body.
Proof.
  unfold CopyFromRegisterContext, GetThreadID. simpl.
  destruct (h (GetRegisterSetCount (self context)) w) as [n w1]; simpl.
  destruct (h (Thread_GetID (m_thread context)) w1) as [tc w2]; simpl.
  destruct (h (Thread_GetID (m_thread this)) w2) as [tt' w3]; simpl.
  destruct (tc =? tt') eqn:Htid; simpl; [|discriminate].
  apply Z.eqb_eq in Htid. subst tt'.
  destruct (h (GetRegisterSetCount (self this)) w3) as [n' w4]; simpl.
  destruct (to_uint32 n =? n') eqn:Hn; simpl; [|discriminate].
  apply Z.eqb_eq in Hn.
  destruct (h (Thread_GetRegisterContext (m_thread this)) w4) as [fz w5]; simpl.
  destruct (run h (_ ;; _) w5) as [[r w6] t] eqn:Hloop.
  intro H. injection H as -> _ <-.
  apply run_bind_Some in Hloop.
  destruct Hloop as ([] & w7 & t1 & t2 & H1 & H2 & ->).
  simpl in H2. injection H2 as _ <-.
  exists n, n', tc, fz, t1. split; [|split].
  - rewrite app_nil_r. reflexivity.
  - exact Hn.
  - exact (copy_sets_visits _ _ _ _ _ _ _ _ H1).
Qed.

End Copy.

(** In the scenario of two contexts of one thread, the trace of a copy
    has the shape the theorem gives. *)
Lemma CopyFromRegisterContext_visits_witness :
  exists (count_context count_this tid : Z) (frame_zero : option CtxH)
         (body : list (Event Sim.Value)),
    trace Sim.handler (CopyFromRegisterContext Scenario.frame1 Scenario.this0)
      Scenario.w_threads
    = ([Ev (GetRegisterSetCount (self Scenario.this0)) count_context;
        Ev (Thread_GetID (m_thread Scenario.this0)) tid;
        Ev (Thread_GetID (m_thread Scenario.frame1)) tid;
        Ev (GetRegisterSetCount (self Scenario.frame1)) count_this;
        Ev (Thread_GetRegisterContext (m_thread Scenario.frame1)) frame_zero]
         ++ body)%list /\
    to_uint32 count_context = count_this /\
    set_visits Scenario.frame1 Scenario.this0 frame_zero
      (Z.to_nat (to_uint32 count_context)) 0 body.
Proof.
  exact (CopyFromRegisterContext_visits Sim.handler Scenario.frame1 Scenario.this0
           Scenario.w_threads
           (world_after Sim.handler
              (CopyFromRegisterContext Scenario.frame1 Scenario.this0)
              Scenario.w_threads)
           (trace Sim.handler
              (CopyFromRegisterContext Scenario.frame1 Scenario.this0)
              Scenario.w_threads)
           eq_refl).
Defined.

(** C7 as stated fails for a register that no register set lists: sp has a
    descriptor without [value_regs] and the source context reads it, yet the
    copy returns true without a write of sp, and this context keeps its own
    value of it. *)
Lemma CopyFromRegisterContext_skips_unlisted_register :
  result Sim.handler (CopyFromRegisterContext Scenario.frame1 Scenario.this0)
    Scenario.w_partial_sets = Some true /\
  fst (Sim.handler (GetRegisterInfoAtIndex (self Scenario.frame1) 1)
         Scenario.w_partial_sets) = Some Scenario.sp_info /\
  value_regs Scenario.sp_info = None /\
  fst (Sim.handler (ReadRegister (self Scenario.this0) Scenario.sp_info rv_default)
         Scenario.w_partial_sets) = (true, [2]) /\
  count (writes_register "sp")
    (trace Sim.handler (CopyFromRegisterContext Scenario.frame1 Scenario.this0)
       Scenario.w_partial_sets) = O /\
  Sim.bank
    (Sim.context_at
       (world_after Sim.handler
          (CopyFromRegisterContext Scenario.frame1 Scenario.this0)
          Scenario.w_partial_sets) (self Scenario.frame1))
  = [Some [1]; Some [4]].
Proof. repeat split. Qed.

(** Between the two contexts of thread 7 pc and sp are copied; wsp, which
    is made of sp, takes no part. *)
Example CopyFromRegisterContext_two_frames :
  Sim.bank
    (Sim.context_at
       (world_after Sim.handler
          (CopyFromRegisterContext Scenario.frame1 Scenario.this0)
          Scenario.w_threads) (self Scenario.frame1))
  = [Some [1]; Some [2]] /\
  count is_register_access
    (trace Sim.handler (CopyFromRegisterContext Scenario.frame1 Scenario.this0)
       Scenario.w_threads) = 4%nat /\
  count (writes_register "wsp")
    (trace Sim.handler (CopyFromRegisterContext Scenario.frame1 Scenario.this0)
       Scenario.w_threads) = O.
Proof. repeat split. Qed.

Section CopyResult.
Context {RV : Type} {RVO : RegisterValueOps RV} {World : Type}.
Variable h : forall c : Call RV, World -> Answer c * World.
Variable Inv : World -> Prop.
Hypothesis Inv_preserved : preserved h Inv.

Lemma run_preserves {R : Type} (p : Prog RV R) :
  forall w : World, Inv w -> Inv (world_after h p w).
Proof.
  unfold world_after.
  induction p as [r | c k IH | ]; intros w Hw; simpl; try exact Hw.
  pose proof (Inv_preserved c w Hw) as H1.
  destruct (h c w) as [x w1]. simpl in H1. specialize (IH x w1 H1).
  destruct (run h (k x) w1) as [[r w2] tr]. exact IH.
Qed.

Lemma copy_register_defined (this context : RegisterContext) (f : CtxH)
    (reg : Z) (w : World) :
  exists w' tr, run h (copy_register this context (Some f) reg) w = (Some tt, w', tr).
Proof.
  unfold copy_register. simpl.
  destruct (h (GetRegisterInfoAtIndex (self this) reg) w) as [[ri|] w1]; simpl;
    [|eauto].
  destruct (value_regs ri); simpl; [eauto|].
  destruct (h (ReadRegister (self context) ri rv_default) w1) as [[[|] v] w2]; simpl.
  - destruct (h (WriteRegister (self this) ri v) w2) as [written w3]; simpl. eauto.
  - destruct (h (ReadRegister f ri v) w2) as [[[|] v'] w3]; simpl; [|eauto].
    destruct (h (WriteRegister (self this) ri v') w3) as [written w4]; simpl. eauto.
Qed.

Lemma copy_registers_defined (this context : RegisterContext) (f : CtxH)
    (regs : list Z) :
  forall w : World,
  exists w' tr, run h (copy_registers this context (Some f) regs) w = (Some tt, w', tr).
Proof.
  induction regs as [|reg rest IH]; intro w; cbn [copy_registers].
  - simpl. eauto.
  - rewrite run_bind.
    destruct (copy_register_defined this context f reg w) as (w1 & t1 & ->).
    destruct (IH w1) as (w2 & t2 & ->). eauto.
Qed.

Lemma copy_sets_defined (this context : RegisterContext) (f : CtxH) (n : Z) :
  (forall (w : World) (set_idx : Z),
      Inv w -> 0 <= set_idx < n ->
      fst (h (GetRegisterSet (self this) set_idx) w) <> None) ->
  forall (remaining : nat) (set_idx : Z) (w : World),
    Inv w -> 0 <= set_idx -> set_idx + Z.of_nat remaining <= n ->
    exists w' tr,
      run h (copy_sets this context (Some f) remaining set_idx) w = (Some tt, w', tr).
Proof.
  intros Hsets remaining.
  induction remaining as [|k IH]; intros set_idx w Hw H0 Hn.
  - simpl. eauto.
  - cbn [copy_sets]. rewrite run_bind. simpl.
    pose proof (Hsets w set_idx Hw ltac:(lia)) as Hset.
    pose proof (Inv_preserved (GetRegisterSet (self this) set_idx) w Hw) as Hw1.
    destruct (h (GetRegisterSet (self this) set_idx) w) as [[rs|] w1]; simpl in *.
    2: congruence.
    cbv zeta. rewrite run_bind.
    pose proof (run_preserves (copy_registers this context (Some f) (listed rs))
                  w1 Hw1) as Hw2.
    unfold world_after in Hw2.
    destruct (copy_registers_defined this context f (listed rs) w1)
      as (w2 & t2 & Hregs).
    unfold listed in *.
    rewrite Hregs in *. simpl in Hw2.
    destruct (IH (set_idx + 1) w2 Hw2 ltac:(lia) ltac:(lia)) as (w3 & t3 & ->).
    eauto.
Qed.

Lemma CopyFromRegisterContext_true
    (this context : RegisterContext) (w w1 w2 w3 w4 : World)
    (count_context count_this tid : Z) :
  to_uint32 count_context = count_this ->
  (forall (w' : World) (set_idx : Z),
      Inv w' -> 0 <= set_idx < count_this ->
      fst (h (GetRegisterSet (self this) set_idx) w') <> None) ->
  Inv w ->
  h (GetRegisterSetCount (self context)) w = (count_context, w1) ->
  h (Thread_GetID (m_thread context)) w1 = (tid, w2) ->
  h (Thread_GetID (m_thread this)) w2 = (tid, w3) ->
  h (GetRegisterSetCount (self this)) w3 = (count_this, w4) ->
  fst (h (Thread_GetRegisterContext (m_thread this)) w4) <> None ->
  result h (CopyFromRegisterContext this context) w = Some true.
Proof.
  intros Hcount Hsets Hw Hn Hc Ht Hn' Hfz.
  assert (Hw4 : Inv w4).
  { pose proof (Inv_preserved (GetRegisterSetCount (self context)) w Hw) as A1.
    rewrite Hn in A1.
    pose proof (Inv_preserved (Thread_GetID (m_thread context)) w1 A1) as A2.
    rewrite Hc in A2.
    pose proof (Inv_preserved (Thread_GetID (m_thread this)) w2 A2) as A3.
    rewrite Ht in A3.
    pose proof (Inv_preserved (GetRegisterSetCount (self this)) w3 A3) as A4.
    rewrite Hn' in A4. exact A4. }
  pose proof (Inv_preserved (Thread_GetRegisterContext (m_thread this)) w4 Hw4) as Hw5.
  assert (Hpos : 0 <= count_this).
  { subst count_this. unfold to_uint32. apply Z.mod_pos_bound. reflexivity. }
  unfold result, CopyFromRegisterContext, GetThreadID. simpl.
  rewrite Hn. simpl. rewrite Hc. simpl. rewrite Ht. simpl.
  rewrite Z.eqb_refl. simpl. rewrite Hn'. simpl. rewrite Hcount, Z.eqb_refl. simpl.
  destruct (h (Thread_GetRegisterContext (m_thread this)) w4) as [[f|] w5];
    simpl in *; [|congruence].
  rewrite run_bind.
  destruct (copy_sets_defined this context f count_this Hsets (Z.to_nat count_this)
              0 w5 Hw5 ltac:(lia) ltac:(lia)) as (w6 & t6 & ->).
  reflexivity.
Qed.

End CopyResult.

(** *** Facts about the reference world *)

Lemma nth_update {A : Type} (l : list A) (i j : nat) (x d : A) :
  nth j (Sim.update l i x) d
  = if Nat.eqb i j && Nat.ltb i (List.length l) then x else nth j l d.
Proof.
  revert i j. induction l as [|y l IH]; intros i j; simpl.
  - rewrite andb_false_r. reflexivity.
  - destruct i as [|i], j as [|j]; simpl; try reflexivity.
    rewrite IH. reflexivity.
Qed.

Lemma Sim_sets_preserved (c0 : CtxH) (ss : list RegisterSet) :
  preserved Sim.handler (fun w => Sim.sets (Sim.context_at w c0) = ss).
Proof.
  intros c w H. destruct c; simpl; try exact H.
  - destruct (nth_error (Sim.frames w) f); exact H.
  - unfold Sim.context_at in *. simpl. rewrite nth_update.
    destruct (Nat.eqb c c0) eqn:E; simpl; [|exact H].
    apply Nat.eqb_eq in E. subst c0.
    destruct (Nat.ltb c _); simpl; exact H.
  - destruct (Sim.writable _ && _); simpl; [|exact H].
    unfold Sim.context_at in *. simpl. rewrite nth_update.
    destruct (Nat.eqb c c0) eqn:E; simpl; [|exact H].
    apply Nat.eqb_eq in E. subst c0.
    destruct (Nat.ltb c _); simpl; exact H.
Qed.

(** C10 (amended). With equal thread ids, a source set count that, kept
    in 32 bits, equals this context's count, and the register sets and the
    frame zero context there to be dereferenced, [CopyFromRegisterContext]
    returns true whatever the register reads and writes answer: the result
    of [WriteRegister] is dropped.  So it returns true on a context that
    refuses both writes it attempts, leaving the world as it was, and on
    contexts where no register can be read and no write is attempted. *)
Theorem CopyFromRegisterContext_ignores_failures :
  (forall (RV : Type) (RVO : RegisterValueOps RV) (World : Type)
          (h : forall c : Call RV, World -> Answer c * World)
          (Inv : World -> Prop) (this context : RegisterContext)
          (w w1 w2 w3 w4 : World) (count_context count_this tid : Z),
      preserved h Inv ->
      to_uint32 count_context = count_this ->
      (forall (w' : World) (set_idx : Z),
          Inv w' -> 0 <= set_idx < count_this ->
          fst (h (GetRegisterSet (self this) set_idx) w') <> None) ->
      Inv w ->
      h (GetRegisterSetCount (self context)) w = (count_context, w1) ->
      h (Thread_GetID (m_thread context)) w1 = (tid, w2) ->
      h (Thread_GetID (m_thread this)) w2 = (tid, w3) ->
      h (GetRegisterSetCount (self this)) w3 = (count_this, w4) ->
      fst (h (Thread_GetRegisterContext (m_thread this)) w4) <> None ->
      result h (CopyFromRegisterContext this context) w = Some true) /\
  (result Sim.handler (CopyFromRegisterContext Scenario.frame1 Scenario.this0)
     Scenario.w_read_only = Some true /\
   count is_write
     (trace Sim.handler (CopyFromRegisterContext Scenario.frame1 Scenario.this0)
        Scenario.w_read_only) = 2%nat /\
   count is_successful_write
     (trace Sim.handler (CopyFromRegisterContext Scenario.frame1 Scenario.this0)
        Scenario.w_read_only) = O /\
   world_after Sim.handler (CopyFromRegisterContext Scenario.frame1 Scenario.this0)
     Scenario.w_read_only = Scenario.w_read_only) /\
  (result Sim.handler (CopyFromRegisterContext Scenario.frame1 Scenario.this0)
     Scenario.w_unreadable = Some true /\
   count is_write
     (trace Sim.handler (CopyFromRegisterContext Scenario.frame1 Scenario.this0)
        Scenario.w_unreadable) = O).
Proof.
  split; [|split].
  - intros RV RVO World h Inv this context w w1 w2 w3 w4
      count_context count_this tid Hinv.
    exact (CopyFromRegisterContext_true h Inv Hinv this context w w1 w2 w3 w4
             count_context count_this tid).
  - repeat split.
  - repeat split.
Qed.

(** The preconditions hold between the two contexts of thread 7. *)
Lemma CopyFromRegisterContext_ignores_failures_witness :
  result Sim.handler (CopyFromRegisterContext Scenario.frame1 Scenario.this0)
    Scenario.w_read_only = Some true.
Proof.
  destruct CopyFromRegisterContext_ignores_failures as [H _].
  apply (H _ _ _ Sim.handler
           (fun w => Sim.sets (Sim.context_at w (self Scenario.frame1)) = [Scenario.gpr])
           Scenario.frame1 Scenario.this0
           Scenario.w_read_only Scenario.w_read_only Scenario.w_read_only
           Scenario.w_read_only Scenario.w_read_only 1 1 7).
  - apply Sim_sets_preserved.
  - reflexivity.
  - intros w' set_idx Hw' Hidx. simpl in *. rewrite Hw'.
    replace set_idx with 0 by lia. discriminate.
  - reflexivity.
  - reflexivity.
  - reflexivity.
  - reflexivity.
  - reflexivity.
  - discriminate.
Defined.

(** C10 as stated fails when the thread hands out no frame zero context:
    the two contexts belong to one thread and have one register set each,
    the source cannot supply pc, and the copy dereferences the null frame
    zero context instead of returning true.  It fails as well when both
    contexts report the same 2^32 + 1 register sets: kept in 32 bits the
    source's count is 1, and the copy returns false. *)
Lemma CopyFromRegisterContext_null_frame_zero :
  fst (Sim.handler (Thread_GetID (m_thread Scenario.this0)) Edge.w_no_frame_zero)
  = fst (Sim.handler (Thread_GetID (m_thread Scenario.frame1)) Edge.w_no_frame_zero) /\
  fst (Sim.handler (GetRegisterSetCount (self Scenario.this0)) Edge.w_no_frame_zero)
  = 1 /\
  fst (Sim.handler (GetRegisterSetCount (self Scenario.frame1)) Edge.w_no_frame_zero)
  = 1 /\
  fst (Sim.handler (Thread_GetRegisterContext (m_thread Scenario.frame1))
         Edge.w_no_frame_zero) = None /\
  result Sim.handler (CopyFromRegisterContext Scenario.frame1 Scenario.this0)
    Edge.w_no_frame_zero = None /\
  fst (Edge.equal_large_handler (GetRegisterSetCount (self Scenario.this0))
         Scenario.w_threads)
  = fst (Edge.equal_large_handler (GetRegisterSetCount (self Scenario.frame1))
           Scenario.w_threads) /\
  result Edge.equal_large_handler
    (CopyFromRegisterContext Scenario.frame1 Scenario.this0) Scenario.w_threads
  = Some false.
Proof. split; [|split; [|split; [|split; [|split; [|split]]]]]; reflexivity. Qed.

(** Thread 7 has cached the frame with concrete index 1 only.  A [SetPC] on
    the context of frame 0 finds no frame and clears the thread's cached
    frames; on the context of frame 1 it tells the frame. *)
Lemma SetPC_frame_effect_witness :
  (run Sim.handler (SetPC Scenario.this0 16400) Scenario.w_frame1_cached
   = (Some true,
      snd (Sim.handler (Thread_ClearStackFrames (m_thread Scenario.this0))
             (world_after Sim.handler (write_pc Scenario.this0 16400)
                Scenario.w_frame1_cached)),
      (trace Sim.handler (write_pc Scenario.this0 16400) Scenario.w_frame1_cached
         ++ [Ev (frame_lookup Scenario.this0) None;
             Ev (Thread_ClearStackFrames (m_thread Scenario.this0)) tt])%list) /\
   Sim.frames
     (world_after Sim.handler (SetPC Scenario.this0 16400) Scenario.w_frame1_cached)
   = []) /\
  (run Sim.handler (SetPC Scenario.frame1 16400) Scenario.w_frame1_cached
   = (Some true,
      snd (Sim.handler (StackFrame_ChangePC O 16400)
             (world_after Sim.handler (write_pc Scenario.frame1 16400)
                Scenario.w_frame1_cached)),
      (trace Sim.handler (write_pc Scenario.frame1 16400) Scenario.w_frame1_cached
         ++ [Ev (frame_lookup Scenario.frame1) (Some O);
             Ev (StackFrame_ChangePC O 16400) tt])%list) /\
   Sim.frames
     (world_after Sim.handler (SetPC Scenario.frame1 16400) Scenario.w_frame1_cached)
   = [ {| Sim.frame_thread := O; Sim.concrete_idx := 1; Sim.frame_pc := 16400 |} ]) /\
  (run Sim.handler (SetPC Scenario.this0 16400) Scenario.w_read_only
   = (Some false,
      Scenario.w_read_only,
      trace Sim.handler (write_pc Scenario.this0 16400) Scenario.w_read_only) /\
   count is_frame_effect
     (trace Sim.handler (write_pc Scenario.this0 16400) Scenario.w_read_only) = O).
Proof.
  split; [|split].
  - split; [|reflexivity].
    apply (SetPC_frame_effect Sim.handler Scenario.this0 16400
             Scenario.w_frame1_cached
             (world_after Sim.handler (write_pc Scenario.this0 16400)
                Scenario.w_frame1_cached)
             (trace Sim.handler (write_pc Scenario.this0 16400)
                Scenario.w_frame1_cached)); reflexivity.
  - split; [|reflexivity].
    apply (SetPC_frame_effect Sim.handler Scenario.frame1 16400
             Scenario.w_frame1_cached
             (world_after Sim.handler (write_pc Scenario.frame1 16400)
                Scenario.w_frame1_cached)
             (trace Sim.handler (write_pc Scenario.frame1 16400)
                Scenario.w_frame1_cached)); reflexivity.
  - apply (SetPC_frame_effect Sim.handler Scenario.this0 16400
             Scenario.w_read_only Scenario.w_read_only
             (trace Sim.handler (write_pc Scenario.this0 16400)
                Scenario.w_read_only)); reflexivity.
Defined.

Section RoundTrip.
Context {RV : Type} {RVO : RegisterValueOps RV} {World : Type}.
Variable h : forall c : Call RV, World -> Answer c * World.
Variable stored : World -> RegisterInfo -> option RV.

Lemma SetPC_stores (this : RegisterContext) (pc : Z) (ri : RegisterInfo)
    (w w1 : World) (calls : list (Event RV)) :
  faithful_store h (self this) stored ->
  pc_descriptor h this w = Some ri ->
  run h (SetPC this pc) w = (Some true, w1, calls) ->
  stored w1 ri = Some (snd (SetUInt pc (byte_size ri))).
Proof.
  intros [Hwrite _ Hkeep] Hdesc.
  unfold pc_descriptor in Hdesc.
  unfold SetPC, WriteRegisterFromUnsigned, WriteRegisterFromUnsigned_info. simpl.
  destruct (h (ConvertRegisterKindToRegisterNumber _ _ _) w) as [reg wa]. simpl.
  destruct (reg =? LLDB_INVALID_REGNUM); [discriminate|]. simpl.
  destruct (h (GetRegisterInfoAtIndex (self this) reg) wa) as [ri' wb].
  simpl in Hdesc. subst ri'. simpl.
  destruct (SetUInt pc (byte_size ri)) as [[|] v]; simpl; [|discriminate].
  pose proof (Hwrite ri v wb) as Hst.
  destruct (h (WriteRegister (self this) ri v) wb) as [[|] wc]; simpl in *;
    [|discriminate].
  specialize (Hst eq_refl).
  pose proof (Hkeep (frame_lookup this) wc ri v eq_refl Hst) as Hst1.
  unfold frame_lookup in Hst1.
  destruct (h (Thread_GetFrameWithConcreteFrameIndex _ _) wc) as [[frame|] wd];
    simpl in *.
  - pose proof (Hkeep (StackFrame_ChangePC frame pc) wd ri v eq_refl Hst1) as Hst2.
    destruct (h (StackFrame_ChangePC frame pc) wd) as [[] we]. simpl in *.
    intro H. injection H as <- _. exact Hst2.
  - pose proof (Hkeep (Thread_ClearStackFrames (m_thread this)) wd ri v eq_refl Hst1)
      as Hst2.
    destruct (h (Thread_ClearStackFrames (m_thread this)) wd) as [[] we]. simpl in *.
    intro H. injection H as <- _. exact Hst2.
Qed.

Lemma GetPC_reads (this : RegisterContext) (pc fail_value : Z)
    (ri : RegisterInfo) (v : RV) (w : World) :
  faithful_store h (self this) stored ->
  pc_descriptor h this w = Some ri ->
  stored w ri = Some v ->
  GetAsUInt64 v = pc ->
  (forall (target : TargetH) (w' : World),
      fst (h (Target_GetOpcodeLoadAddress target pc eCode) w') = pc) ->
  result h (GetPC this fail_value) w = Some pc.
Proof.
  intros [_ Hread Hkeep] Hdesc Hst Hv Htarget.
  unfold pc_descriptor in Hdesc.
  unfold result, GetPC, ReadRegisterAsUnsigned, ReadRegisterAsUnsigned_info. simpl.
  pose proof (Hkeep (ConvertRegisterKindToRegisterNumber (self this)
                       eRegisterKindGeneric LLDB_REGNUM_GENERIC_PC) w ri v
                eq_refl Hst) as Hst1.
  destruct (h (ConvertRegisterKindToRegisterNumber _ _ _) w) as [reg wa]. simpl in *.
  destruct (reg =? LLDB_INVALID_REGNUM); [discriminate|]. simpl.
  pose proof (Hkeep (GetRegisterInfoAtIndex (self this) reg) wa ri v eq_refl Hst1)
    as Hst2.
  destruct (h (GetRegisterInfoAtIndex (self this) reg) wa) as [ri' wb].
  simpl in *. subst ri'. simpl.
  pose proof (Hread ri v rv_default wb Hst2) as Hr.
  destruct (h (ReadRegister (self this) ri rv_default) wb) as [[ok v'] wc].
  simpl in Hr. injection Hr as -> ->. simpl. rewrite Hv.
  destruct (pc =? fail_value); simpl; [reflexivity|].
  destruct (h (Thread_CalculateTarget (m_thread this)) wc) as [[target|] wd]; simpl;
    [|reflexivity].
  specialize (Htarget target wd).
  destruct (h (Target_GetOpcodeLoadAddress target pc eCode) wd) as [pc' we].
  simpl in *. subst pc'. reflexivity.
Qed.

(** C9 (amended). When [SetPC pc] returns true on a context whose backend
    keeps what it is given, whose generic program counter resolves to the
    same descriptor before and after, whose register holds [pc] without
    loss at its size, and whose target's opcode load address of [pc] is
    [pc], a [GetPC] that follows returns [pc]. *)
Theorem SetPC_GetPC_round_trip (this : RegisterContext) (pc fail_value : Z)
    (ri : RegisterInfo) (w : World) :
  faithful_store h (self this) stored ->
  pc_descriptor h this w = Some ri ->
  pc_descriptor h this (world_after h (SetPC this pc) w) = Some ri ->
  GetAsUInt64 (snd (SetUInt pc (byte_size ri))) = pc ->
  (forall (target : TargetH) (w' : World),
      fst (h (Target_GetOpcodeLoadAddress target pc eCode) w') = pc) ->
  result h (SetPC this pc) w = Some true ->
  result h (SetPC this pc ;; GetPC this fail_value) w = Some pc.
Proof.
  intros Hstore Hdesc Hdesc1 Hv Htarget Hset.
  unfold result, world_after in *. rewrite run_bind.
  destruct (run h (SetPC this pc) w) as [[r w1] t1] eqn:HS.
  cbn [fst snd] in Hset, Hdesc1. subst r. cbv beta iota.
  pose proof (SetPC_stores this pc ri w w1 t1 Hstore Hdesc HS) as Hst.
  pose proof (GetPC_reads this pc fail_value ri _ w1 Hstore Hdesc1 Hst Hv Htarget)
    as Hget.
  unfold result in Hget.
  destruct (run h (GetPC this fail_value) w1) as [[r2 w2] t2].
  cbn [fst snd] in *. exact Hget.
Qed.

End RoundTrip.

Lemma nth_error_update_same {A : Type} (l : list A) (i : nat) (x : A) :
  (i < List.length l)%nat -> nth_error (Sim.update l i x) i = Some x.
Proof.
  revert i. induction l as [|y l IH]; intros i Hi; simpl in *; [lia|].
  destruct i as [|i]; simpl; [reflexivity|]. apply IH. lia.
Qed.

Lemma Sim_faithful_store (c : CtxH) : faithful_store Sim.handler c (Sim.stored c).
Proof.
  split.
  - intros ri v w. simpl. unfold Sim.stored.
    destruct (Sim.writable (Sim.context_at w c)); simpl; [|discriminate].
    destruct (Nat.ltb_spec (Sim.lldb_regnum ri)
                (List.length (Sim.bank (Sim.context_at w c)))) as [Hlt|Hge];
      simpl; [|discriminate].
    intros _. unfold Sim.context_at at 1. simpl. rewrite nth_update.
    rewrite Nat.eqb_refl. simpl.
    destruct (Nat.ltb_spec c (List.length (Sim.contexts w))) as [Hc|Hc]; simpl.
    + rewrite nth_error_update_same by exact Hlt. reflexivity.
    + unfold Sim.context_at in Hlt. rewrite nth_overflow in Hlt by exact Hc.
      simpl in Hlt. lia.
  - intros ri v v0 w. simpl. unfold Sim.stored.
    destruct (nth_error _ _) as [[x|]|]; try discriminate.
    intro H. injection H as ->. reflexivity.
  - intros call w ri v Hcall. unfold Sim.stored.
    destruct call; simpl in *; try discriminate; try (intro H; exact H).
    destruct (nth_error (Sim.frames w) f); intro H; exact H.
Qed.

(** pc is 8 bytes wide and the context can be written. *)
Lemma SetPC_GetPC_round_trip_witness :
  result Sim.handler
    (SetPC Scenario.this0 16400 ;; GetPC Scenario.this0 LLDB_INVALID_ADDRESS)
    Scenario.w_frame1_cached = Some 16400.
Proof.
  apply (SetPC_GetPC_round_trip Sim.handler (Sim.stored O) Scenario.this0 16400
           LLDB_INVALID_ADDRESS Scenario.pc_info Scenario.w_frame1_cached).
  - apply Sim_faithful_store.
  - reflexivity.
  - reflexivity.
  - reflexivity.
  - intros target w'. simpl. destruct (Sim.clear_bit0 w'); reflexivity.
  - reflexivity.
Defined.

(** C9 as stated fails on a context that cannot be written: the generic
    program counter resolves to register 0, [SetPC] returns false and
    [GetPC] returns the pc the context had (0x1000). *)
Lemma SetPC_GetPC_read_only_context :
  fst (Sim.handler
         (ConvertRegisterKindToRegisterNumber (self Scenario.this0)
            eRegisterKindGeneric LLDB_REGNUM_GENERIC_PC) Scenario.w_read_only) = 0 /\
  pc_descriptor Sim.handler Scenario.this0 Scenario.w_read_only
    = Some Scenario.pc_info /\
  result Sim.handler (SetPC Scenario.this0 16400) Scenario.w_read_only = Some false /\
  result Sim.handler
    (SetPC Scenario.this0 16400 ;; GetPC Scenario.this0 LLDB_INVALID_ADDRESS)
    Scenario.w_read_only = Some 4096.
Proof. repeat split. Qed.

(** * Further properties of RegisterContext.cpp *)

Section LookupByName.
Context {RV : Type} {RVO : RegisterValueOps RV} {World : Type}.
Variable h : forall c : Call RV, World -> Answer c * World.

Lemma skipn_cons_nth {A : Type} (l : list A) (k : nat) (x : A) (rest : list A) :
  skipn k l = x :: rest -> nth_error l k = Some x /\ skipn (S k) l = rest.
Proof.
  revert k. induction l as [|y l IH]; intros k Hk.
  - destruct k; discriminate.
  - destruct k as [|k]; simpl in *.
    + injection Hk as -> ->. split; reflexivity.
    + apply IH. exact Hk.
Qed.

Lemma GetRegisterInfoByName_from_scan
    (this : RegisterContext) (reg_name : string) (w : World)
    (regs : list RegisterInfo) :
  (forall reg : Z,
      h (GetRegisterInfoAtIndex (self this) reg) w
      = (nth_error regs (Z.to_nat reg), w)) ->
  forall (rest : list RegisterInfo) (k : nat),
    skipn k regs = rest ->
    result h (GetRegisterInfoByName_from this reg_name (List.length rest)
                (Z.of_nat k)) w
    = Some (find (answers_to reg_name) rest) /\
    world_after h (GetRegisterInfoByName_from this reg_name (List.length rest)
                     (Z.of_nat k)) w = w.
Proof.
  intros Htab rest. induction rest as [|ri rest IH]; intros k Hk.
  - split; reflexivity.
  - destruct (skipn_cons_nth regs k ri rest Hk) as [Hnth Hk'].
    specialize (IH (S k) Hk').
    unfold result, world_after in *. simpl.
    rewrite Htab, Nat2Z.id, Hnth. simpl. unfold answers_to at 1.
    destruct (equals_lower reg_name (name ri)
              || equals_lower reg_name (StringRef_of (alt_name ri))); simpl.
    + split; reflexivity.
    + replace (Z.of_nat k + 1) with (Z.of_nat (S k)) by lia.
      destruct (run h _ w) as [[r w'] tr]. simpl in *. exact IH.
Qed.

(** X1. On a descriptor table of fewer than 2^32 descriptors, lookup by
    name returns the first descriptor at or after [start_idx] whose name or
    alternate name equals [reg_name] ignoring case, and a null pointer when
    there is none, when [start_idx] is at or past the end, or when
    [reg_name] is empty.  The bound keeps the register count, which the
    function holds in 32 bits, equal to the length of the table. *)
Theorem GetRegisterInfoByName_first_match
    (this : RegisterContext) (regs : list RegisterInfo) (reg_name : string)
    (start_idx : Z) (w : World) :
  table_at h (self this) regs w ->
  Z.of_nat (List.length regs) <= UINT32_MAX ->
  0 <= start_idx ->
  result h (GetRegisterInfoByName this reg_name start_idx) w
  = Some (if empty reg_name then None
          else find (answers_to reg_name) (skipn (Z.to_nat start_idx) regs)) /\
  (Z.of_nat (List.length regs) <= start_idx ->
   result h (GetRegisterInfoByName this reg_name start_idx) w = Some None).
Proof.
  intros [Hcount Hinfo] Hsmall Hstart.
  assert (Hres : result h (GetRegisterInfoByName this reg_name start_idx) w
                 = Some (if empty reg_name then None
                         else find (answers_to reg_name)
                                (skipn (Z.to_nat start_idx) regs))).
  { unfold result, GetRegisterInfoByName.
    destruct (empty reg_name); [reflexivity|]. simpl. rewrite Hcount.
    cbv zeta. rewrite (to_uint32_small (Z.of_nat (List.length regs))) by lia.
    destruct (GetRegisterInfoByName_from_scan this reg_name w regs Hinfo
                (skipn (Z.to_nat start_idx) regs) (Z.to_nat start_idx) eq_refl)
      as [Hr _].
    rewrite length_skipn in Hr. rewrite Z2Nat.id in Hr by exact Hstart.
    replace (Z.to_nat (Z.of_nat (List.length regs) - start_idx))
      with (List.length regs - Z.to_nat start_idx)%nat by lia.
    unfold result in Hr.
    destruct (run h _ w) as [[r w'] tr]. simpl in *. exact Hr. }
  split; [exact Hres|].
  intro Hpast. rewrite Hres. rewrite skipn_all2 by lia.
  destruct (empty reg_name); reflexivity.
Qed.

Lemma equals_lower_same (a b c : string) :
  equals_lower a b = true -> equals_lower a c = equals_lower b c.
Proof.
  unfold equals_lower. intro H. apply String.eqb_eq in H. rewrite H. reflexivity.
Qed.

Lemma equals_lower_empty (a b : string) :
  equals_lower a b = true -> empty a = empty b.
Proof.
  unfold equals_lower. intro H. apply String.eqb_eq in H.
  destruct a, b; simpl in *; try reflexivity; discriminate.
Qed.

Lemma GetRegisterInfoByName_from_case (this : RegisterContext) (a b : string) :
  equals_lower a b = true ->
  forall (remaining : nat) (reg : Z) (w : World),
    run h (GetRegisterInfoByName_from this a remaining reg) w
    = run h (GetRegisterInfoByName_from this b remaining reg) w.
Proof.
  intros Hab remaining. induction remaining as [|n IH]; intros reg w; simpl.
  - reflexivity.
  - destruct (h (GetRegisterInfoAtIndex (self this) reg) w) as [[ri|] w1]; simpl;
      [|reflexivity].
    rewrite !(equals_lower_same a b _ Hab).
    destruct (equals_lower b (name ri) || equals_lower b (StringRef_of (alt_name ri)));
      [reflexivity|].
    rewrite IH. reflexivity.
Qed.

(** X2. Lookup by name does not tell apart two spellings that differ in
    the case of letters only: against every backend the two lookups make
    the same calls and return the same descriptor. *)
Theorem GetRegisterInfoByName_ignores_case
    (this : RegisterContext) (a b : string) (start_idx : Z) (w : World) :
  equals_lower a b = true ->
  run h (GetRegisterInfoByName this a start_idx) w
  = run h (GetRegisterInfoByName this b start_idx) w.
Proof.
  intro Hab. unfold GetRegisterInfoByName.
  rewrite (equals_lower_empty a b Hab).
  destruct (empty b); [reflexivity|]. simpl.
  destruct (h (GetRegisterCount (self this)) w) as [n w1]. cbv zeta.
  rewrite (GetRegisterInfoByName_from_case this a b Hab). reflexivity.
Qed.

End LookupByName.

(** "SP" finds the descriptor of sp; from index 2 on it does not. *)
Lemma GetRegisterInfoByName_first_match_witness :
  result Sim.handler (GetRegisterInfoByName Scenario.this0 "SP" 0) Scenario.w_threads
  = Some (Some Scenario.sp_info) /\
  result Sim.handler (GetRegisterInfoByName Scenario.this0 "SP" 2) Scenario.w_threads
  = Some None /\
  result Sim.handler (GetRegisterInfoByName Scenario.this0 "SP" 3) Scenario.w_threads
  = Some None.
Proof.
  assert (Htab : table_at Sim.handler (self Scenario.this0) Scenario.table
                   Scenario.w_threads).
  { split; [reflexivity | intro reg; reflexivity]. }
  assert (Hsmall : Z.of_nat (List.length Scenario.table) <= UINT32_MAX).
  { vm_compute. discriminate. }
  pose proof (fun start =>
    GetRegisterInfoByName_first_match Sim.handler Scenario.this0 Scenario.table
      "SP" start Scenario.w_threads Htab Hsmall) as H.
  split; [|split].
  - destruct (H 0 ltac:(lia)) as [H0 _]. exact H0.
  - destruct (H 2 ltac:(lia)) as [H0 _]. exact H0.
  - destruct (H 3 ltac:(lia)) as [_ H1]. apply H1. simpl. lia.
Defined.

Lemma GetRegisterInfoByName_ignores_case_witness :
  run Sim.handler (GetRegisterInfoByName Scenario.this0 "Sp" 0) Scenario.w_threads
  = run Sim.handler (GetRegisterInfoByName Scenario.this0 "sP" 0) Scenario.w_threads.
Proof.
  apply (GetRegisterInfoByName_ignores_case Sim.handler). reflexivity.
Defined.

Section UnsignedAccess.
Context {RV : Type} {RVO : RegisterValueOps RV} {World : Type}.
Variable h : forall c : Call RV, World -> Answer c * World.

(** X3. [ReadRegisterAsUnsigned] always returns a number: the caller's
    [fail_value], or the unsigned value of what one successful
    [ReadRegister] on this context gave.  It reads at most once, and for
    [LLDB_INVALID_REGNUM] it makes no call at all. *)
Theorem ReadRegisterAsUnsigned_never_raises
    (this : RegisterContext) (reg fail_value : Z) (w : World) :
  let calls := trace h (ReadRegisterAsUnsigned this reg fail_value) w in
  (exists v : Z,
      result h (ReadRegisterAsUnsigned this reg fail_value) w = Some v /\
      (v = fail_value \/
       exists (ri : RegisterInfo) (x : RV),
         In (Ev (ReadRegister (self this) ri rv_default) (true, x)) calls /\
         v = GetAsUInt64 x)) /\
  (count is_ReadRegister calls <= 1)%nat /\
  (if reg =? LLDB_INVALID_REGNUM then calls = [] else True).
Proof.
  unfold result, trace, ReadRegisterAsUnsigned, ReadRegisterAsUnsigned_info.
  destruct (reg =? LLDB_INVALID_REGNUM); simpl.
  { repeat split; eauto. }
  destruct (h (GetRegisterInfoAtIndex (self this) reg) w) as [[ri|] w1]; simpl.
  2: { repeat split; eauto. }
  destruct (h (ReadRegister (self this) ri rv_default) w1) as [[[|] x] w2]; simpl.
  - repeat split; auto. eexists. split; [reflexivity|]. right.
    exists ri, x. split; [|reflexivity]. right. left. reflexivity.
  - repeat split; eauto.
Qed.

(** X4. [WriteRegisterFromUnsigned] always returns; it calls
    [WriteRegister] at most once, and returns true only when the number has
    a descriptor, [SetUInt] accepted the value at the register's size and
    [WriteRegister] was given that value on this context and answered
    true.  For [LLDB_INVALID_REGNUM] it returns false with no call. *)
Theorem WriteRegisterFromUnsigned_at_most_one_write
    (this : RegisterContext) (reg uval : Z) (w : World) :
  let calls := trace h (WriteRegisterFromUnsigned this reg uval) w in
  (exists b : bool,
      result h (WriteRegisterFromUnsigned this reg uval) w = Some b /\
      if b then
        exists (ri : RegisterInfo),
          In (Ev (GetRegisterInfoAtIndex (self this) reg) (Some ri)) calls /\
          fst (SetUInt uval (byte_size ri)) = true /\
          In (Ev (WriteRegister (self this) ri (snd (SetUInt uval (byte_size ri)))) true)
             calls
      else count is_successful_write calls = O) /\
  (count is_write calls <= 1)%nat /\
  (if reg =? LLDB_INVALID_REGNUM
   then run h (WriteRegisterFromUnsigned this reg uval) w = (Some false, w, [])
   else True).
Proof.
  unfold result, trace, WriteRegisterFromUnsigned, WriteRegisterFromUnsigned_info.
  destruct (reg =? LLDB_INVALID_REGNUM); simpl.
  { repeat split; auto. exists false. split; reflexivity. }
  destruct (h (GetRegisterInfoAtIndex (self this) reg) w) as [[ri|] w1]; simpl.
  2: { repeat split; auto. exists false. split; reflexivity. }
  destruct (SetUInt uval (byte_size ri)) as [[|] v] eqn:Hset; simpl.
  2: { repeat split; auto. exists false. split; reflexivity. }
  destruct (h (WriteRegister (self this) ri v) w1) as [[|] w2]; simpl.
  - repeat split; auto. exists true. split; [reflexivity|].
    exists ri. rewrite Hset. simpl. split; [left; reflexivity|].
    split; [reflexivity|]. right. left. reflexivity.
  - repeat split; auto. exists false. split; reflexivity.
Qed.

Lemma ReadRegisterAsUnsigned_no_target (this : RegisterContext)
    (reg fail_value : Z) (w : World) :
  count is_target_call (trace h (ReadRegisterAsUnsigned this reg fail_value) w) = O.
Proof.
  unfold trace, ReadRegisterAsUnsigned, ReadRegisterAsUnsigned_info.
  destruct (reg =? LLDB_INVALID_REGNUM); simpl; [reflexivity|].
  destruct (h (GetRegisterInfoAtIndex (self this) reg) w) as [[ri|] w1]; simpl;
    [|reflexivity].
  destruct (h (ReadRegister (self this) ri rv_default) w1) as [[[|] x] w2];
    reflexivity.
Qed.

Lemma read_role_no_target (this : RegisterContext) (role fail_value : Z) (w : World) :
  count is_target_call (trace h (read_role this role fail_value) w) = O.
Proof.
  unfold trace, read_role. rewrite run_bind. simpl.
  destruct (h (ConvertRegisterKindToRegisterNumber _ _ _) w) as [reg w1]. simpl.
  pose proof (ReadRegisterAsUnsigned_no_target this reg fail_value w1) as H.
  unfold trace in H.
  destruct (run h (ReadRegisterAsUnsigned this reg fail_value) w1) as [[[v|] w2] tr];
    simpl in *; exact H.
Qed.

Lemma write_role_no_frame_effect (this : RegisterContext) (role uval : Z) (w : World) :
  count is_frame_effect (trace h (write_role this role uval) w) = O.
Proof.
  unfold trace, write_role, WriteRegisterFromUnsigned, WriteRegisterFromUnsigned_info.
  simpl. destruct (h _ w) as [reg w1]. simpl.
  destruct (reg =? LLDB_INVALID_REGNUM); simpl; [reflexivity|].
  destruct (h _ w1) as [[ri|] w2]; simpl; [|reflexivity].
  destruct (SetUInt uval (byte_size ri)) as [[|] v]; simpl; [|reflexivity].
  destruct (h _ w2) as [ok w3]. reflexivity.
Qed.

(** X5. Unlike [GetPC], the accessors of the stack pointer, the frame
    pointer, the return address and the flags hand out the register's value
    as read: they never ask for the target.  Unlike [SetPC], [SetSP] and
    [SetFP] make no call on the frame layer. *)
Theorem generic_accessors_leave_target_and_frames_alone
    (this : RegisterContext) (value : Z) (w : World) :
  count is_target_call (trace h (GetSP this value) w) = O /\
  count is_target_call (trace h (GetFP this value) w) = O /\
  count is_target_call (trace h (GetReturnAddress this value) w) = O /\
  count is_target_call (trace h (GetFlags this value) w) = O /\
  count is_frame_effect (trace h (SetSP this value) w) = O /\
  count is_frame_effect (trace h (SetFP this value) w) = O.
Proof.
  repeat split;
    first [ apply (read_role_no_target this _ value w)
          | apply (write_role_no_frame_effect this _ value w) ].
Qed.

End UnsignedAccess.

Section RoleRoundTrip.
Context {RV : Type} {RVO : RegisterValueOps RV} {World : Type}.
Variable h : forall c : Call RV, World -> Answer c * World.
Variable stored : World -> RegisterInfo -> option RV.

Lemma write_role_stores (this : RegisterContext) (role uval : Z)
    (ri : RegisterInfo) (w w1 : World) (calls : list (Event RV)) :
  faithful_store h (self this) stored ->
  role_descriptor h this role w = Some ri ->
  run h (write_role this role uval) w = (Some true, w1, calls) ->
  stored w1 ri = Some (snd (SetUInt uval (byte_size ri))).
Proof.
  intros [Hwrite _ _] Hdesc.
  unfold role_descriptor in Hdesc.
  unfold write_role, WriteRegisterFromUnsigned, WriteRegisterFromUnsigned_info. simpl.
  destruct (h (ConvertRegisterKindToRegisterNumber _ _ _) w) as [reg wa]. simpl.
  destruct (reg =? LLDB_INVALID_REGNUM); [discriminate|]. simpl.
  destruct (h (GetRegisterInfoAtIndex (self this) reg) wa) as [ri' wb].
  simpl in Hdesc. subst ri'. simpl.
  destruct (SetUInt uval (byte_size ri)) as [[|] v]; simpl; [|discriminate].
  pose proof (Hwrite ri v wb) as Hst.
  destruct (h (WriteRegister (self this) ri v) wb) as [[|] wc]; simpl in *;
    [|discriminate].
  intro H. injection H as <- _. exact (Hst eq_refl).
Qed.

Lemma read_role_reads (this : RegisterContext) (role fail_value : Z)
    (ri : RegisterInfo) (v : RV) (w : World) :
  faithful_store h (self this) stored ->
  role_descriptor h this role w = Some ri ->
  stored w ri = Some v ->
  result h (read_role this role fail_value) w = Some (GetAsUInt64 v).
Proof.
  intros [_ Hread Hkeep] Hdesc Hst.
  unfold role_descriptor in Hdesc.
  unfold result, read_role, ReadRegisterAsUnsigned, ReadRegisterAsUnsigned_info. simpl.
  pose proof (Hkeep (ConvertRegisterKindToRegisterNumber (self this)
                       eRegisterKindGeneric role) w ri v eq_refl Hst) as Hst1.
  destruct (h (ConvertRegisterKindToRegisterNumber _ _ _) w) as [reg wa]. simpl in *.
  destruct (reg =? LLDB_INVALID_REGNUM); [discriminate|]. simpl.
  pose proof (Hkeep (GetRegisterInfoAtIndex (self this) reg) wa ri v eq_refl Hst1)
    as Hst2.
  destruct (h (GetRegisterInfoAtIndex (self this) reg) wa) as [ri' wb].
  simpl in *. subst ri'. simpl.
  pose proof (Hread ri v rv_default wb Hst2) as Hr.
  destruct (h (ReadRegister (self this) ri rv_default) wb) as [[ok v'] wc].
  simpl in Hr. injection Hr as -> ->. reflexivity.
Qed.

Lemma write_role_read_role (this : RegisterContext) (role uval fail_value : Z)
    (ri : RegisterInfo) (w : World) :
  faithful_store h (self this) stored ->
  role_descriptor h this role w = Some ri ->
  role_descriptor h this role (world_after h (write_role this role uval) w) = Some ri ->
  GetAsUInt64 (snd (SetUInt uval (byte_size ri))) = uval ->
  result h (write_role this role uval) w = Some true ->
  result h (write_role this role uval ;; read_role this role fail_value) w
  = Some uval.
Proof.
  intros Hstore Hdesc Hdesc1 Hv Hset.
  unfold result, world_after in *. rewrite run_bind.
  destruct (run h (write_role this role uval) w) as [[r w1] t1] eqn:HS.
  cbn [fst snd] in Hset, Hdesc1. subst r. cbv beta iota.
  pose proof (write_role_stores this role uval ri w w1 t1 Hstore Hdesc HS) as Hst.
  pose proof (read_role_reads this role fail_value ri _ w1 Hstore Hdesc1 Hst) as Hget.
  unfold result in Hget.
  destruct (run h (read_role this role fail_value) w1) as [[r2 w2] t2].
  cbn [fst snd] in *. rewrite Hget, Hv. reflexivity.
Qed.

(** X6. On a backend that keeps what it is given, a [SetSP] that returns
    true is read back by [GetSP], and a [SetFP] by [GetFP], provided the
    role resolves to the same descriptor before and after and the register
    holds the value without loss at its size.  No target and no frame is
    involved, and the caller's [fail_value] plays no part. *)
Theorem SetSP_GetSP_round_trip (this : RegisterContext) (value fail_value : Z)
    (ri : RegisterInfo) (w : World) :
  faithful_store h (self this) stored ->
  GetAsUInt64 (snd (SetUInt value (byte_size ri))) = value ->
  (role_descriptor h this LLDB_REGNUM_GENERIC_SP w = Some ri ->
   role_descriptor h this LLDB_REGNUM_GENERIC_SP
     (world_after h (SetSP this value) w) = Some ri ->
   result h (SetSP this value) w = Some true ->
   result h (SetSP this value ;; GetSP this fail_value) w = Some value) /\
  (role_descriptor h this LLDB_REGNUM_GENERIC_FP w = Some ri ->
   role_descriptor h this LLDB_REGNUM_GENERIC_FP
     (world_after h (SetFP this value) w) = Some ri ->
   result h (SetFP this value) w = Some true ->
   result h (SetFP this value ;; GetFP this fail_value) w = Some value).
Proof.
  intros Hstore Hv. split; intros Hd Hd1 Hset.
  - exact (write_role_read_role this LLDB_REGNUM_GENERIC_SP value fail_value ri w
             Hstore Hd Hd1 Hv Hset).
  - exact (write_role_read_role this LLDB_REGNUM_GENERIC_FP value fail_value ri w
             Hstore Hd Hd1 Hv Hset).
Qed.

End RoleRoundTrip.

(** The stack pointer of the scenario: 8 bytes, generic number 1. *)
Lemma SetSP_GetSP_round_trip_witness :
  result Sim.handler
    (SetSP Scenario.this0 8192 ;; GetSP Scenario.this0 LLDB_INVALID_ADDRESS)
    Scenario.w_threads = Some 8192.
Proof.
  assert (Hv : GetAsUInt64 (snd (SetUInt 8192 (byte_size Scenario.sp_info))) = 8192)
    by reflexivity.
  destruct (SetSP_GetSP_round_trip Sim.handler (Sim.stored O) Scenario.this0 8192
              LLDB_INVALID_ADDRESS Scenario.sp_info Scenario.w_threads
              (Sim_faithful_store O) Hv) as [H _].
  apply H; reflexivity.
Defined.

Section ProgramCounterRead.
Context {RV : Type} {RVO : RegisterValueOps RV} {World : Type}.
Variable h : forall c : Call RV, World -> Answer c * World.

Lemma GetPC_split (this : RegisterContext) (fail_value : Z) :
  GetPC this fail_value =
  (pc <- read_role this LLDB_REGNUM_GENERIC_PC fail_value ;;
   if negb (pc =? fail_value) then
     target_sp <- call (Thread_CalculateTarget (m_thread this)) ;;
     match target_sp with
     | Some target => call (Target_GetOpcodeLoadAddress target pc eCode)
     | None => Ret pc
     end
   else Ret pc).
Proof. reflexivity. Qed.

Lemma read_role_defined (this : RegisterContext) (role fail_value : Z) (w : World) :
  exists v w1 calls, run h (read_role this role fail_value) w = (Some v, w1, calls).
Proof.
  unfold read_role, ReadRegisterAsUnsigned, ReadRegisterAsUnsigned_info. simpl.
  destruct (h (ConvertRegisterKindToRegisterNumber _ _ _) w) as [reg w1]. simpl.
  destruct (reg =? LLDB_INVALID_REGNUM); simpl; [eauto|].
  destruct (h (GetRegisterInfoAtIndex (self this) reg) w1) as [[ri|] w2]; simpl;
    [|eauto].
  destruct (h (ReadRegister (self this) ri rv_default) w2) as [[[|] x] w3];
    simpl; eauto.
Qed.

Lemma GetPC_defined (this : RegisterContext) (fail_value : Z) (w : World) :
  exists v : Z, result h (GetPC this fail_value) w = Some v.
Proof.
  destruct (read_role_defined this LLDB_REGNUM_GENERIC_PC fail_value w)
    as (pc & w1 & calls & Hread).
  rewrite GetPC_split. unfold result. rewrite run_bind, Hread.
  destruct (negb (pc =? fail_value)); simpl; [|eauto].
  destruct (h (Thread_CalculateTarget (m_thread this)) w1) as [[target|] w2];
    simpl; [|eauto].
  destruct (h (Target_GetOpcodeLoadAddress target pc eCode) w2) as [pc' w3].
  simpl. eauto.
Qed.

(** X7. [GetPC] passes the value read through the target's
    [GetOpcodeLoadAddress] only when it differs from [fail_value] and the
    thread has a target.  When the read yields [fail_value] (the register
    could not be read, or holds that very number) [GetPC] makes no further
    call and returns it; without a target it returns the value read.  It
    always returns a number. *)
Theorem GetPC_target_adjustment (this : RegisterContext) (fail_value : Z)
    (w w1 : World) (pc : Z) (calls : list (Event RV)) :
  run h (read_role this LLDB_REGNUM_GENERIC_PC fail_value) w = (Some pc, w1, calls) ->
  (pc = fail_value -> run h (GetPC this fail_value) w = (Some fail_value, w1, calls)) /\
  (forall w2 : World,
      pc <> fail_value ->
      h (Thread_CalculateTarget (m_thread this)) w1 = (None, w2) ->
      run h (GetPC this fail_value) w
      = (Some pc, w2,
         (calls ++ [Ev (Thread_CalculateTarget (m_thread this)) None])%list)) /\
  (forall (target : TargetH) (w2 : World),
      pc <> fail_value ->
      h (Thread_CalculateTarget (m_thread this)) w1 = (Some target, w2) ->
      result h (GetPC this fail_value) w
      = Some (fst (h (Target_GetOpcodeLoadAddress target pc eCode) w2))) /\
  (exists v : Z, result h (GetPC this fail_value) w = Some v).
Proof.
  intro Hread. rewrite GetPC_split. unfold result. rewrite run_bind, Hread.
  destruct (pc =? fail_value) eqn:E; simpl.
  - apply Z.eqb_eq in E. subst pc. rewrite app_nil_r.
    split; [reflexivity|]. split; [congruence|]. split; [congruence|]. eauto.
  - apply Z.eqb_neq in E.
    destruct (h (Thread_CalculateTarget (m_thread this)) w1) as [[target|] w2] eqn:Ht;
      simpl.
    + destruct (h (Target_GetOpcodeLoadAddress target pc eCode) w2) as [pc' w3] eqn:Hadj.
      simpl. split; [congruence|]. split; [congruence|]. split; [|eauto].
      intros target' w2' _ H. injection H as -> ->. rewrite Hadj. reflexivity.
    + split; [congruence|]. split; [|split; [congruence|eauto]].
      intros w2' _ H. injection H as <-. reflexivity.
Qed.

End ProgramCounterRead.

(** With no readable register [GetPC] hands back the caller's
    [fail_value] (here 5, an odd number the target would have changed). *)
Lemma GetPC_target_adjustment_witness :
  run Sim.handler (GetPC Scenario.this0 5) Scenario.w_unreadable
  = (Some 5, Scenario.w_unreadable,
     trace Sim.handler (read_role Scenario.this0 LLDB_REGNUM_GENERIC_PC 5)
       Scenario.w_unreadable).
Proof.
  destruct (GetPC_target_adjustment Sim.handler Scenario.this0 5
              Scenario.w_unreadable Scenario.w_unreadable 5
              (trace Sim.handler (read_role Scenario.this0 LLDB_REGNUM_GENERIC_PC 5)
                 Scenario.w_unreadable) eq_refl) as [H _].
  apply H. reflexivity.
Defined.

Section MemoryTransferOutcomes.
Context {RV : Type} {RVO : RegisterValueOps RV} {World : Type}.
Variable h : forall c : Call RV, World -> Answer c * World.

(** X8. [ReadRegisterValueFromMemory] always returns, having read memory
    at most once.  Either it fails and the destination value is the one
    passed in, or the lengths were in range, the backend handed back
    exactly [src_len] bytes, and the status and the value are those
    [SetFromMemoryData] produced from these bytes.  Without a descriptor it
    makes no call. *)
Theorem ReadRegisterValueFromMemory_outcomes
    (this : RegisterContext) (reg_info : option RegisterInfo)
    (src_addr src_len : Z) (reg_value : RV) (w : World) :
  let calls :=
    trace h (ReadRegisterValueFromMemory this reg_info src_addr src_len reg_value) w in
  (exists (status : Status) (value : RV),
      result h (ReadRegisterValueFromMemory this reg_info src_addr src_len reg_value) w
      = Some (status, value) /\
      ((Fail status = true /\ value = reg_value) \/
       exists (ri : RegisterInfo) (p : ProcessH) (n : Z) (src : list Z)
              (error : Status) (order : ByteOrder),
         reg_info = Some ri /\
         src_len <= kMaxRegisterByteSize /\ src_len <= byte_size ri /\
         In (Ev (Process_ReadMemory p src_addr src_len) (n, src, error)) calls /\
         to_uint32 n = src_len /\
         In (Ev (Process_GetByteOrder p) order) calls /\
         SetFromMemoryData reg_value ri src src_len order error
         = (fst (fst (SetFromMemoryData reg_value ri src src_len order error)),
            value, status))) /\
  (count is_ReadMemory calls <= 1)%nat /\
  match reg_info with None => calls = [] | Some _ => True end.
Proof.
  unfold result, trace, ReadRegisterValueFromMemory.
  destruct reg_info as [ri|]; simpl.
  2: { split; [|split; auto]. eexists _, _. split; [reflexivity|]. left. auto. }
  destruct (src_len >? kMaxRegisterByteSize) eqn:Hmax; simpl.
  { split; [|split; auto]. eexists _, _. split; [reflexivity|]. left. auto. }
  destruct (src_len >? byte_size ri) eqn:Hsize; simpl.
  { split; [|split; auto]. eexists _, _. split; [reflexivity|]. left. auto. }
  rewrite Z.gtb_ltb in Hmax, Hsize. apply Z.ltb_ge in Hmax, Hsize.
  destruct (h (Thread_GetProcess (m_thread this)) w) as [[p|] w1]; simpl.
  2: { split; [|split; auto]. eexists _, _. split; [reflexivity|]. left. auto. }
  destruct (h (Process_ReadMemory p src_addr src_len) w1) as [[[n src] error] w2].
  simpl.
  destruct (to_uint32 n =? src_len) eqn:Hn; simpl.
  - apply Z.eqb_eq in Hn.
    destruct (h (Process_GetByteOrder p) w2) as [order w3]. simpl.
    destruct (SetFromMemoryData reg_value ri src src_len order error)
      as [[m value] status] eqn:Hset.
    simpl. split; [|split; auto].
    eexists _, _. split; [reflexivity|]. right.
    exists ri, p, n, src, error, order.
    split; [reflexivity|]. split; [exact Hmax|]. split; [exact Hsize|].
    split; [right; left; reflexivity|]. split; [exact Hn|].
    split; [right; right; left; reflexivity|].
    rewrite Hset. reflexivity.
  - destruct error as [|msg]; simpl.
    + split; [|split; auto]. eexists _, _. split; [reflexivity|]. left. auto.
    + split; [|split; auto]. eexists _, _. split; [reflexivity|]. left. auto.
Qed.

(** X9. [WriteRegisterValueToMemory] always returns, having written memory
    at most once.  It returns success only when [GetAsMemoryData] made a
    non-zero number of bytes without error and the backend, given exactly
    these bytes, reported success and that many bytes written. *)
Theorem WriteRegisterValueToMemory_outcomes
    (this : RegisterContext) (reg_info : option RegisterInfo)
    (dst_addr dst_len : Z) (reg_value : RV) (w : World) :
  let calls :=
    trace h (WriteRegisterValueToMemory this reg_info dst_addr dst_len reg_value) w in
  (exists status : Status,
      result h (WriteRegisterValueToMemory this reg_info dst_addr dst_len reg_value) w
      = Some status /\
      (Fail status = true \/
       exists (p : ProcessH) (order : ByteOrder) (copied n : Z) (dst : list Z),
         In (Ev (Process_GetByteOrder p) order) calls /\
         GetAsMemoryData reg_value reg_info dst_len order StatusOK
         = (copied, dst, StatusOK) /\
         copied <> 0 /\
         In (Ev (Process_WriteMemory p dst_addr dst copied) (n, StatusOK)) calls /\
         to_uint32 n = copied)) /\
  (count is_WriteMemory calls <= 1)%nat.
Proof.
  unfold result, trace, WriteRegisterValueToMemory. simpl.
  destruct (h (Thread_GetProcess (m_thread this)) w) as [[p|] w1]; simpl.
  2: { split; auto. eexists. split; [reflexivity|]. left. reflexivity. }
  destruct (h (Process_GetByteOrder p) w1) as [order w2]. simpl.
  destruct (GetAsMemoryData reg_value reg_info dst_len order StatusOK)
    as [[copied dst] e] eqn:Hcopy.
  destruct e as [|msg]; simpl.
  2: { split; auto. eexists. split; [reflexivity|]. left. reflexivity. }
  destruct (copied =? 0) eqn:H0; simpl.
  { split; auto. eexists. split; [reflexivity|]. left. reflexivity. }
  apply Z.eqb_neq in H0.
  destruct (h (Process_WriteMemory p dst_addr dst copied) w2) as [[n error] w3].
  simpl. destruct (to_uint32 n =? copied) eqn:Hn; simpl.
  - apply Z.eqb_eq in Hn. split; auto. eexists. split; [reflexivity|].
    destruct error as [|msg]; [|left; reflexivity].
    right. exists p, order, copied, n, dst.
    split; [right; left; reflexivity|]. split; [exact Hcopy|].
    split; [exact H0|]. split; [right; right; left; reflexivity|]. exact Hn.
  - destruct error as [|msg]; simpl;
      (split; auto; eexists; split; [reflexivity|]; left; reflexivity).
Qed.

(** X10. Without a process neither transfer touches memory: a write, and
    a read whose lengths are in range, ask the thread for its process and
    return the error "invalid process"; the destination of the read keeps
    its value. *)
Theorem memory_transfer_without_process
    (this : RegisterContext) (reg_info : option RegisterInfo) (ri : RegisterInfo)
    (addr len : Z) (reg_value : RV) (w w1 : World) :
  h (Thread_GetProcess (m_thread this)) w = (None, w1) ->
  run h (WriteRegisterValueToMemory this reg_info addr len reg_value) w
  = (Some (StatusError "invalid process"), w1,
     [Ev (Thread_GetProcess (m_thread this)) None]) /\
  (len <= kMaxRegisterByteSize -> len <= byte_size ri ->
   run h (ReadRegisterValueFromMemory this (Some ri) addr len reg_value) w
   = (Some (StatusError "invalid process", reg_value), w1,
      [Ev (Thread_GetProcess (m_thread this)) None])).
Proof.
  intro Hp. split.
  - unfold WriteRegisterValueToMemory. simpl. rewrite Hp. reflexivity.
  - intros Hmax Hsize. unfold ReadRegisterValueFromMemory.
    replace (len >? kMaxRegisterByteSize) with false
      by (symmetry; rewrite Z.gtb_ltb; apply Z.ltb_ge; lia).
    replace (len >? byte_size ri) with false
      by (symmetry; rewrite Z.gtb_ltb; apply Z.ltb_ge; lia).
    simpl. rewrite Hp. reflexivity.
Qed.

End MemoryTransferOutcomes.

(** The process is gone. *)
Lemma memory_transfer_without_process_witness :
  result Sim.handler
    (WriteRegisterValueToMemory Scenario.this0 (Some Scenario.pc_info) 0 4 [1; 2; 3; 4])
    Scenario.w_gone = Some (StatusError "invalid process") /\
  result Sim.handler
    (ReadRegisterValueFromMemory Scenario.this0 (Some Scenario.pc_info) 0 4 [9])
    Scenario.w_gone = Some (StatusError "invalid process", [9]).
Proof.
  pose proof (fun v =>
    memory_transfer_without_process Sim.handler Scenario.this0
      (Some Scenario.pc_info) Scenario.pc_info 0 4 v Scenario.w_gone Scenario.w_gone
      eq_refl) as H.
  split.
  - destruct (H [1; 2; 3; 4]) as [Hw _].
    exact (f_equal (fun r => fst (fst r)) Hw).
  - destruct (H [9]) as [_ Hr].
    assert (Hmax : 4 <= kMaxRegisterByteSize) by (vm_compute; discriminate).
    assert (Hsize : 4 <= byte_size Scenario.pc_info) by (vm_compute; discriminate).
    exact (f_equal (fun r => fst (fst r)) (Hr Hmax Hsize)).
Defined.

Section TranslationMore.
Context {RV : Type} {RVO : RegisterValueOps RV} {World : Type}.
Variable h : forall c : Call RV, World -> Answer c * World.

Lemma ConvertBetweenRegisterKinds_translated
    (this : RegisterContext) (regs : list RegisterInfo)
    (s t : RegisterKind) (n target0 : Z) (w : World) :
  table_at h (self this) regs w ->
  Z.of_nat (List.length regs) <= UINT32_MAX ->
  result h (ConvertBetweenRegisterKinds this s n t target0) w
  = Some (translated regs s n t target0).
Proof.
  intros [Hcount Hinfo] Hsmall.
  unfold result, ConvertBetweenRegisterKinds. simpl.
  rewrite Hcount. cbv zeta. rewrite (to_uint32_length regs Hsmall).
  destruct (ConvertBetweenRegisterKinds_from_scan h this s t n target0 w regs
              Hinfo regs O eq_refl) as [Hr _].
  unfold result in Hr. simpl in Hr.
  destruct (run h _ w) as [[r w'] tr]. simpl in *. exact Hr.
Qed.

Lemma first_match_kinds (regs : list RegisterInfo) (k : RegisterKind) (n : Z)
    (ri : RegisterInfo) :
  first_match regs k n = Some ri -> In ri regs /\ kinds ri k = n.
Proof.
  unfold first_match. intro H. apply find_some in H.
  destruct H as [Hin Heq]. apply Z.eqb_eq in Heq. auto.
Qed.

(** X11. On a table of fewer than 2^32 descriptors, translating a number
    into its own kind gives the number back: when some descriptor's entry
    for [kind] equals [num], the output is [num] and the call succeeds
    unless [num] is [LLDB_INVALID_REGNUM] itself, which "matches" the first
    descriptor that has no number in that kind. *)
Theorem ConvertBetweenRegisterKinds_same_kind
    (this : RegisterContext) (regs : list RegisterInfo) (kind : RegisterKind)
    (num target0 : Z) (ri : RegisterInfo) (w : World) :
  table_at h (self this) regs w ->
  Z.of_nat (List.length regs) <= UINT32_MAX ->
  first_match regs kind num = Some ri ->
  result h (ConvertBetweenRegisterKinds this kind num kind target0) w
  = Some (negb (num =? LLDB_INVALID_REGNUM), num).
Proof.
  intros Htab Hsmall Hf.
  rewrite (ConvertBetweenRegisterKinds_translated this regs kind kind num target0 w
             Htab Hsmall).
  unfold translated. rewrite Hf.
  destruct (first_match_kinds regs kind num ri Hf) as [_ ->]. reflexivity.
Qed.

(** X12. On a table of fewer than 2^32 descriptors, when
    [ConvertBetweenRegisterKinds] returns false, the caller's
    [target_regnum] is left as it was if no descriptor's entry for the
    source kind equals the source number, and is overwritten with
    [LLDB_INVALID_REGNUM] if one does but has no number in the target
    kind. *)
Theorem ConvertBetweenRegisterKinds_failure_output
    (this : RegisterContext) (regs : list RegisterInfo)
    (s t : RegisterKind) (n target0 out : Z) (w : World) :
  table_at h (self this) regs w ->
  Z.of_nat (List.length regs) <= UINT32_MAX ->
  result h (ConvertBetweenRegisterKinds this s n t target0) w = Some (false, out) ->
  (first_match regs s n = None /\ out = target0) \/
  (exists ri, first_match regs s n = Some ri /\
              kinds ri t = LLDB_INVALID_REGNUM /\ out = LLDB_INVALID_REGNUM).
Proof.
  intros Htab Hsmall.
  rewrite (ConvertBetweenRegisterKinds_translated this regs s t n target0 w
             Htab Hsmall).
  unfold translated.
  destruct (first_match regs s n) as [ri|].
  - intro H. injection H as Hv Hout. right. exists ri.
    apply negb_false_iff, Z.eqb_eq in Hv. split; [reflexivity|].
    split; [exact Hv | congruence].
  - intro H. injection H as Hout. left. auto.
Qed.

(** X13. On a table of fewer than 2^32 descriptors in which no two
    descriptors share a valid number of the target kind, a successful
    translation can be undone: translating the result back into the source
    kind gives the number started from. *)
Theorem ConvertBetweenRegisterKinds_round_trip
    (this : RegisterContext) (regs : list RegisterInfo)
    (s t : RegisterKind) (n m out0 out1 : Z) (w : World) :
  table_at h (self this) regs w ->
  Z.of_nat (List.length regs) <= UINT32_MAX ->
  unique_in_kind regs t ->
  result h (ConvertBetweenRegisterKinds this s n t out0) w = Some (true, m) ->
  result h (ConvertBetweenRegisterKinds this t m s out1) w
  = Some (negb (n =? LLDB_INVALID_REGNUM), n).
Proof.
  intros Htab Hsmall Huniq.
  rewrite (ConvertBetweenRegisterKinds_translated this regs s t n out0 w Htab Hsmall).
  rewrite (ConvertBetweenRegisterKinds_translated this regs t s m out1 w Htab Hsmall).
  unfold translated.
  destruct (first_match regs s n) as [ri|] eqn:Hf; [|discriminate].
  intro H. injection H as Hv Hm.
  apply negb_true_iff, Z.eqb_neq in Hv.
  destruct (first_match_kinds regs s n ri Hf) as [Hin Hn].
  destruct (first_match regs t m) as [rj|] eqn:Hb.
  - destruct (first_match_kinds regs t m rj Hb) as [Hjn Hjm].
    assert (rj = ri) by (apply Huniq; congruence). subst rj.
    rewrite Hn. reflexivity.
  - exfalso. unfold first_match in Hb.
    apply (find_none _ _ Hb ri) in Hin. apply Z.eqb_neq in Hin. congruence.
Qed.

End TranslationMore.

Lemma Scenario_table_unique : unique_in_kind Scenario.table eRegisterKindLLDB.
Proof.
  intros a b Ha Hb Hk _.
  destruct Ha as [<-|[<-|[<-|[]]]]; destruct Hb as [<-|[<-|[<-|[]]]];
    try reflexivity; discriminate.
Qed.

Lemma Scenario_table_at :
  table_at Sim.handler (self Scenario.this0) Scenario.table Scenario.w_threads.
Proof. split; [reflexivity | intro reg; reflexivity]. Qed.

Lemma Scenario_table_small : Z.of_nat (List.length Scenario.table) <= UINT32_MAX.
Proof. vm_compute. discriminate. Qed.

(** Register 1 of the native numbering is register 1. *)
Lemma ConvertBetweenRegisterKinds_same_kind_witness :
  result Sim.handler
    (ConvertBetweenRegisterKinds Scenario.this0 eRegisterKindLLDB 1
       eRegisterKindLLDB 77) Scenario.w_threads = Some (true, 1).
Proof.
  exact (ConvertBetweenRegisterKinds_same_kind Sim.handler Scenario.this0
           Scenario.table eRegisterKindLLDB 1 77 Scenario.sp_info Scenario.w_threads
           Scenario_table_at Scenario_table_small eq_refl).
Defined.

(** wsp has no DWARF number: the translation fails and the caller's 77 is
    replaced by the invalid number. *)
Lemma ConvertBetweenRegisterKinds_failure_output_witness :
  (first_match Scenario.table eRegisterKindLLDB 2 = None /\ LLDB_INVALID_REGNUM = 77) \/
  (exists ri, first_match Scenario.table eRegisterKindLLDB 2 = Some ri /\
              kinds ri eRegisterKindDWARF = LLDB_INVALID_REGNUM /\
              LLDB_INVALID_REGNUM = LLDB_INVALID_REGNUM).
Proof.
  exact (ConvertBetweenRegisterKinds_failure_output Sim.handler Scenario.this0
           Scenario.table eRegisterKindLLDB eRegisterKindDWARF 2 77
           LLDB_INVALID_REGNUM Scenario.w_threads Scenario_table_at
           Scenario_table_small eq_refl).
Defined.

(** Generic sp is native register 1, and native register 1 is generic sp. *)
Lemma ConvertBetweenRegisterKinds_round_trip_witness :
  result Sim.handler
    (ConvertBetweenRegisterKinds Scenario.this0 eRegisterKindLLDB 1
       eRegisterKindGeneric 77) Scenario.w_threads
  = Some (true, LLDB_REGNUM_GENERIC_SP).
Proof.
  exact (ConvertBetweenRegisterKinds_round_trip Sim.handler Scenario.this0
           Scenario.table eRegisterKindGeneric eRegisterKindLLDB
           LLDB_REGNUM_GENERIC_SP 1 55 77 Scenario.w_threads
           Scenario_table_at Scenario_table_small Scenario_table_unique eq_refl).
Defined.

Section CopyWrites.
Context {RV : Type} {RVO : RegisterValueOps RV} {World : Type}.
Variable h : forall c : Call RV, World -> Answer c * World.

Lemma count_app (f : Event RV -> bool) (a b : list (Event RV)) :
  count f (a ++ b) = (count f a + count f b)%nat.
Proof. unfold count. rewrite filter_app, length_app. reflexivity. Qed.

Lemma writes_follow_reads_app (c : CtxH) (a b : list (Event RV)) :
  writes_follow_reads c a -> writes_follow_reads c b ->
  writes_follow_reads c (a ++ b).
Proof.
  unfold writes_follow_reads. intros [Ha1 Ha2] [Hb1 Hb2].
  rewrite !count_app. split; lia.
Qed.

Lemma writes_follow_reads_bind {A B : Type} (c : CtxH) (p : Prog RV A)
    (f : A -> Prog RV B) (w : World) :
  writes_follow_reads c (trace h p w) ->
  (forall a w1, writes_follow_reads c (trace h (f a) w1)) ->
  writes_follow_reads c (trace h (bind p f) w).
Proof.
  unfold trace. intros Hp Hf. rewrite run_bind.
  destruct (run h p w) as [[[a|] w1] t1]; simpl in *; [|exact Hp].
  specialize (Hf a w1).
  destruct (run h (f a) w1) as [[r w2] t2]. simpl in *.
  apply writes_follow_reads_app; assumption.
Qed.

Lemma copy_register_writes (this context : RegisterContext)
    (frame_zero : option CtxH) (reg : Z) (w : World) :
  writes_follow_reads (self this)
    (trace h (copy_register this context frame_zero reg) w).
Proof.
  unfold writes_follow_reads, trace, copy_register, count, writes_elsewhere,
    is_write, is_ReadRegister. simpl.
  destruct (h (GetRegisterInfoAtIndex (self this) reg) w) as [[ri|] w1]; simpl;
    [|auto].
  destruct (value_regs ri); simpl; [auto|].
  destruct (h (ReadRegister (self context) ri rv_default) w1) as [[[|] v] w2]; simpl.
  - destruct (h (WriteRegister (self this) ri v) w2) as [written w3]; simpl.
    rewrite Nat.eqb_refl. simpl. auto.
  - destruct frame_zero as [f|]; simpl; [|auto].
    destruct (h (ReadRegister f ri v) w2) as [[[|] v'] w3]; simpl; [|auto].
    destruct (h (WriteRegister (self this) ri v') w3) as [written w4]; simpl.
    rewrite Nat.eqb_refl. simpl. auto.
Qed.

Lemma copy_registers_writes (this context : RegisterContext)
    (frame_zero : option CtxH) (regs : list Z) :
  forall w : World,
    writes_follow_reads (self this)
      (trace h (copy_registers this context frame_zero regs) w).
Proof.
  induction regs as [|reg rest IH]; intro w; cbn [copy_registers].
  - split; auto.
  - apply writes_follow_reads_bind.
    + apply copy_register_writes.
    + intros _ w1. apply IH.
Qed.

Lemma copy_sets_writes (this context : RegisterContext)
    (frame_zero : option CtxH) (remaining : nat) :
  forall (set_idx : Z) (w : World),
    writes_follow_reads (self this)
      (trace h (copy_sets this context frame_zero remaining set_idx) w).
Proof.
  induction remaining as [|n IH]; intros set_idx w; cbn [copy_sets].
  - split; auto.
  - apply writes_follow_reads_bind.
    + unfold trace. simpl. destruct (h _ w) as [x w1]. split; auto.
    + intros [rs|] w1; [|split; auto].
      apply writes_follow_reads_bind.
      * apply copy_registers_writes.
      * intros _ w2. apply IH.
Qed.

(** X14. Whatever the backend answers and however the call ends,
    [CopyFromRegisterContext] writes registers of this context only (never
    of the source or the frame zero context), and every write it makes
    follows a read of its own: it makes no more writes than reads. *)
Theorem CopyFromRegisterContext_writes_this_only
    (this context : RegisterContext) (w : World) :
  writes_follow_reads (self this)
    (trace h (CopyFromRegisterContext this context) w).
Proof.
  unfold CopyFromRegisterContext, GetThreadID.
  apply writes_follow_reads_bind.
  { unfold trace. simpl. destruct (h _ w) as [x w1]. split; auto. }
  intros n w1. cbv zeta. apply writes_follow_reads_bind.
  { unfold trace. simpl. destruct (h _ w1) as [x w2]. split; auto. }
  intros tc w2. apply writes_follow_reads_bind.
  { unfold trace. simpl. destruct (h _ w2) as [x w3]. split; auto. }
  intros tt' w3. destruct (negb (tc =? tt')); [split; auto|].
  apply writes_follow_reads_bind.
  { unfold trace. simpl. destruct (h _ w3) as [x w4]. split; auto. }
  intros n' w4. destruct (negb (to_uint32 n =? n')); [split; auto|].
  apply writes_follow_reads_bind.
  { unfold trace. simpl. destruct (h _ w4) as [x w5]. split; auto. }
  intros fz w5. apply writes_follow_reads_bind.
  - apply copy_sets_writes.
  - intros _ w6. split; auto.
Qed.

End CopyWrites.

Section Construction.
Context {RV : Type} {RVO : RegisterValueOps RV} {World : Type}.
Variable h : forall c : Call RV, World -> Answer c * World.

(** X15. A context is constructed with the stop generation of the process
    at that moment: as long as the process is found at that generation, an
    unforced [InvalidateIfNeeded] of the new context invalidates nothing
    and leaves it as it is.  Constructing a context on a thread whose
    process is gone dereferences a null pointer. *)
Theorem RegisterContext_new_is_fresh
    (self0 : CtxH) (thread : ThreadH) (concrete_frame_idx : Z) (w : World) :
  (forall (this : RegisterContext) (w1 : World) (calls : list (Event RV)),
      run h (RegisterContext_new self0 thread concrete_frame_idx) w
      = (Some this, w1, calls) ->
      (self this = self0 /\ m_thread this = thread /\
       m_concrete_frame_idx this = concrete_frame_idx /\
       process_generation h thread w = Some (m_stop_id this)) /\
      (process_generation h thread w1 = Some (m_stop_id this) ->
       invalidations h this false w1 = O /\
       result h (InvalidateIfNeeded this false) w1 = Some this)) /\
  (fst (h (Thread_GetProcess thread) w) = None ->
   result h (RegisterContext_new self0 thread concrete_frame_idx) w = None).
Proof.
  split.
  - intros this w1 calls.
    unfold RegisterContext_new, process_generation. simpl.
    destruct (h (Thread_GetProcess thread) w) as [[p|] wa]; simpl; [|discriminate].
    destruct (h (Process_GetStopID p) wa) as [g wb]. simpl.
    intro H. injection H as <- <- _. simpl.
    split; [auto|].
    intro Hgen.
    destruct (InvalidateIfNeeded_run h
                {| self := self0; m_thread := thread;
                   m_concrete_frame_idx := concrete_frame_idx; m_stop_id := g |}
                false wb) as [Hc Hr].
    unfold invalidations. rewrite Hc, Hr. unfold stale. simpl.
    unfold process_generation in *. simpl in *. rewrite Hgen.
    unfold GetStopID. simpl. rewrite Z.eqb_refl. simpl. auto.
  - unfold result, RegisterContext_new. simpl.
    destruct (h (Thread_GetProcess thread) w) as [[p|] wa]; simpl;
      [discriminate | reflexivity].
Qed.

End Construction.

(** A context made while the process is at generation 5 records 5 and is
    not stale. *)
Lemma RegisterContext_new_is_fresh_witness :
  invalidations Sim.handler (Scenario.ctx O O 0 5) false Scenario.w_resumed = O /\
  result Sim.handler (InvalidateIfNeeded (Scenario.ctx O O 0 5) false)
    Scenario.w_resumed = Some (Scenario.ctx O O 0 5).
Proof.
  destruct (RegisterContext_new_is_fresh Sim.handler O O 0 Scenario.w_resumed)
    as [H _].
  destruct (H (Scenario.ctx O O 0 5) Scenario.w_resumed
              (trace Sim.handler (RegisterContext_new O O 0) Scenario.w_resumed)
              eq_refl) as [_ Hfresh].
  apply Hfresh. reflexivity.
Defined.

(** * Properties of the callers *)

Section CallerRuns.
Context {RV : Type} {RVO : RegisterValueOps RV} {World : Type}.
Variable hx : forall c : XCall RV, World -> XAnswer c * World.

Lemma xrun_bind {A B : Type} (p : XProg RV A) (f : A -> XProg RV B) (w : World) :
  xrun hx (xbind p f) w =
  match xrun hx p w with
  | (Some a, w1, t1) =>
      let '(r, w2, t2) := xrun hx (f a) w1 in (r, w2, (t1 ++ t2)%list)
  | (None, w1, t1) => (None, w1, t1)
  end.
Proof.
  revert w. induction p as [a | c k IH | ]; intro w; simpl.
  - destruct (xrun hx (f a) w) as [[r w2] t2]. reflexivity.
  - destruct (hx c w) as [x w1]. rewrite IH.
    destruct (xrun hx (k x) w1) as [[[a|] w2] t1]; [|reflexivity].
    destruct (xrun hx (f a) w2) as [[r w3] t2]. reflexivity.
  - reflexivity.
Qed.

Lemma xrun_lift {R : Type} (p : Prog RV R) (w : World) :
  xrun hx (lift p) w =
  let '(r, w1, tr) := run (base_handler hx) p w in (r, w1, map lift_event tr).
Proof.
  revert w. induction p as [r | c k IH | ]; intro w; simpl; try reflexivity.
  unfold base_handler at 1. destruct (hx (Base c) w) as [x w1]. rewrite IH.
  destruct (run (base_handler hx) (k x) w1) as [[r w2] tr]. reflexivity.
Qed.

(** X16. [SetPC(Address)] asks the thread for its target and the address
    for its callable load address there.  When that is
    [LLDB_INVALID_ADDRESS] it returns false having made no other call: no
    register is written and no frame is touched.  Otherwise it goes on
    exactly as [SetPC] of that address. *)
Theorem SetPC_Address_resolves_first
    (this : RegisterContext) (addr : AddressH) (w w1 w2 : World)
    (target : option TargetH) (callAddr : Z) :
  hx (Base (Thread_CalculateTarget (m_thread this))) w = (target, w1) ->
  hx (Address_GetCallableLoadAddress addr target) w1 = (callAddr, w2) ->
  (callAddr = LLDB_INVALID_ADDRESS ->
   xrun hx (SetPC_Address this addr) w
   = (Some false, w2,
      [XEv (Base (Thread_CalculateTarget (m_thread this))) target;
       XEv (Address_GetCallableLoadAddress addr target) callAddr])) /\
  (callAddr <> LLDB_INVALID_ADDRESS ->
   xrun hx (SetPC_Address this addr) w
   = (fst (fst (run (base_handler hx) (SetPC this callAddr) w2)),
      snd (fst (run (base_handler hx) (SetPC this callAddr) w2)),
      XEv (Base (Thread_CalculateTarget (m_thread this))) target
        :: XEv (Address_GetCallableLoadAddress addr target) callAddr
        :: map lift_event (snd (run (base_handler hx) (SetPC this callAddr) w2)))).
Proof.
  intros Ht Ha. unfold SetPC_Address. split; intro Hc.
  - simpl. rewrite Ht. simpl. rewrite Ha. simpl.
    apply Z.eqb_eq in Hc. rewrite Hc. reflexivity.
  - cbn [xbind xcall xrun]. rewrite Ht. cbn [xbind xrun]. rewrite Ha.
    apply Z.eqb_neq in Hc. rewrite Hc. rewrite xrun_lift.
    destruct (run (base_handler hx) (SetPC this callAddr) w2) as [[r w3] tr].
    reflexivity.
Qed.

(** X17. [DoGetFrameCount] always returns, with the unwinder marked
    complete and the count of the frames it then holds.  It asks the stub
    for the call stack at most once, with an empty vector, and not at all
    when the unwinder was complete already; called again on the resulting
    object it makes no call and returns the same count and object. *)
Theorem DoGetFrameCount_asks_once (this : UnwindWasm) (w : World) :
  exists (n : Z) (this1 : UnwindWasm),
    xresult hx (DoGetFrameCount this) w = Some (n, this1) /\
    m_unwind_complete this1 = true /\
    GetThread this1 = GetThread this /\
    n = to_uint32 (size (m_frames this1)) /\
    (xcount is_GetWasmCallStack (xtrace hx (DoGetFrameCount this) w) <= 1)%nat /\
    (if m_unwind_complete this
     then xrun hx (DoGetFrameCount this) w = (Some (n, this), w, [])
     else m_frames this1 = [] \/
          exists p, In (XEv (GDBRemote_GetWasmCallStack p []) (true, m_frames this1))
                       (xtrace hx (DoGetFrameCount this) w)) /\
    (forall w' : World,
        xrun hx (DoGetFrameCount this1) w' = (Some (n, this1), w', [])).
Proof.
  unfold xresult, xtrace, DoGetFrameCount.
  destruct this as [t frames complete]. simpl.
  destruct complete; simpl.
  { eexists _, _. repeat split; auto. }
  destruct (hx (Base (Thread_GetProcess t)) w) as [[p|] w1]; simpl.
  2: { eexists _, _. repeat split; auto. }
  destruct (hx (GDBRemote_GetWasmCallStack p []) w1) as [[[|] fs] w2]; simpl.
  - eexists _, _. split; [reflexivity|]. simpl.
    repeat split; auto. right. exists p. right. left. reflexivity.
  - eexists _, _. repeat split; auto.
Qed.

(** X18. A complete unwinder answers the frames after the first from its
    vector without any call: the frame's pc when [frame_idx] is in range,
    and false with pc 0 when it is not.  [cfa] is always 0, and the
    unwinder is left as it was. *)
Theorem DoGetFrameInfoAtIndex_cached (this : UnwindWasm) (frame_idx : Z) (w : World) :
  m_unwind_complete this = true ->
  0 < frame_idx ->
  xrun hx (DoGetFrameInfoAtIndex this frame_idx) w
  = (Some (if frame_idx <? size (m_frames this)
           then (true, 0, nth (Z.to_nat frame_idx) (m_frames this) 0, this)
           else (false, 0, 0, this)),
     w, []).
Proof.
  intros Hc Hpos.
  assert (Hidx : (frame_idx =? 0) = false) by (apply Z.eqb_neq; lia).
  unfold DoGetFrameInfoAtIndex, DoGetFrameCount.
  destruct this as [t frames complete]. simpl in *. subst complete.
  destruct (size frames =? 0) eqn:Hs; simpl; rewrite Hidx.
  - destruct (frame_idx <? size frames); reflexivity.
  - destruct (frame_idx <? size frames); reflexivity.
Qed.

(** X19. Frame 0 is not taken from the vector: a complete unwinder, even
    one with no frames, asks the thread for its register context and
    returns true with the pc that context's [GetPC()] gives.  Without a
    register context the call dereferences a null pointer. *)
Theorem DoGetFrameInfoAtIndex_frame_zero
    (this : UnwindWasm) (w w1 : World) (reg_ctx_sp : option CtxH) :
  m_unwind_complete this = true ->
  hx (Base (Thread_GetRegisterContext (GetThread this))) w = (reg_ctx_sp, w1) ->
  match reg_ctx_sp with
  | None => xresult hx (DoGetFrameInfoAtIndex this 0) w = None
  | Some c =>
      let '(thread, idx, stop_id) := fst (hx (RegisterContext_members c) w1) in
      let reg_ctx :=
        {| self := c; m_thread := thread; m_concrete_frame_idx := idx;
           m_stop_id := stop_id |} in
      exists pc : Z,
        result (base_handler hx) (GetPC reg_ctx LLDB_INVALID_ADDRESS)
          (snd (hx (RegisterContext_members c) w1)) = Some pc /\
        xresult hx (DoGetFrameInfoAtIndex this 0) w = Some (true, 0, pc, this)
  end.
Proof.
  intros Hc Hctx.
  assert (Hensure :
    xrun hx (if size (m_frames this) =? 0
             then xbind (DoGetFrameCount this) (fun x => match x with (_, this0) => XRet this0 end)
             else XRet this) w = (Some this, w, [])).
  { unfold DoGetFrameCount. destruct this as [t frames complete].
    simpl in *. subst complete. destruct (size frames =? 0); reflexivity. }
  unfold xresult, DoGetFrameInfoAtIndex. rewrite xrun_bind, Hensure.
  cbn [Z.eqb xbind xcall xrun]. rewrite Hctx.
  destruct reg_ctx_sp as [c|]; [|reflexivity].
  cbn [xbind xrun].
  destruct (hx (RegisterContext_members c) w1) as [[[thread idx] stop_id] w2].
  cbn [fst snd]. rewrite xrun_bind, xrun_lift.
  destruct (GetPC_defined (base_handler hx)
              {| self := c; m_thread := thread; m_concrete_frame_idx := idx;
                 m_stop_id := stop_id |} LLDB_INVALID_ADDRESS w2) as (pc & Hpc).
  exists pc. split; [exact Hpc|].
  unfold result in Hpc.
  destruct (run (base_handler hx) (GetPC _ LLDB_INVALID_ADDRESS) w2) as [[r w4] tr].
  simpl in Hpc. subst r. reflexivity.
Qed.

End CallerRuns.

(** An address that does not resolve, and one that resolves to 0x4010. *)
Lemma SetPC_Address_resolves_first_witness :
  xresult XSim.handler (SetPC_Address Scenario.this0 1%nat)
    (XSim.world Scenario.w_frame1_cached None) = Some false /\
  xresult XSim.handler (SetPC_Address Scenario.this0 O)
    (XSim.world Scenario.w_frame1_cached None) = Some true.
Proof.
  pose proof (fun addr callAddr =>
    SetPC_Address_resolves_first XSim.handler Scenario.this0 addr
      (XSim.world Scenario.w_frame1_cached None)
      (XSim.world Scenario.w_frame1_cached None)
      (XSim.world Scenario.w_frame1_cached None) (Some O) callAddr eq_refl) as H.
  split.
  - destruct (H 1%nat LLDB_INVALID_ADDRESS eq_refl) as [Hbad _].
    exact (f_equal (fun r => fst (fst r)) (Hbad eq_refl)).
  - destruct (H O 16400 eq_refl) as [_ Hgood].
    assert (Hne : 16400 <> LLDB_INVALID_ADDRESS) by discriminate.
    exact (f_equal (fun r => fst (fst r)) (Hgood Hne)).
Defined.

(** A complete unwinder holding three frames. *)
Lemma DoGetFrameInfoAtIndex_cached_witness :
  let unwinder :=
    {| GetThread := O; m_frames := [100; 200; 300]; m_unwind_complete := true |} in
  xresult XSim.handler (DoGetFrameInfoAtIndex unwinder 2)
    (XSim.world Scenario.w_threads None) = Some (true, 0, 300, unwinder) /\
  xresult XSim.handler (DoGetFrameInfoAtIndex unwinder 3)
    (XSim.world Scenario.w_threads None) = Some (false, 0, 0, unwinder).
Proof.
  intro unwinder.
  pose proof (fun idx =>
    DoGetFrameInfoAtIndex_cached XSim.handler unwinder idx
      (XSim.world Scenario.w_threads None) eq_refl) as H.
  split.
  - assert (Hpos : 0 < 2) by reflexivity.
    exact (f_equal (fun r => fst (fst r)) (H 2 Hpos)).
  - assert (Hpos : 0 < 3) by reflexivity.
    exact (f_equal (fun r => fst (fst r)) (H 3 Hpos)).
Defined.

(** The stub gave no call stack; frame 0 still has the pc of the thread's
    register context. *)
Lemma DoGetFrameInfoAtIndex_frame_zero_witness :
  let unwinder := {| GetThread := O; m_frames := []; m_unwind_complete := true |} in
  xresult XSim.handler (DoGetFrameInfoAtIndex unwinder 0)
    (XSim.world Scenario.w_read_only None) = Some (true, 0, 4096, unwinder).
Proof.
  intro unwinder.
  pose proof (DoGetFrameInfoAtIndex_frame_zero XSim.handler unwinder
                (XSim.world Scenario.w_read_only None)
                (XSim.world Scenario.w_read_only None) (Some O) eq_refl eq_refl) as H.
  cbv beta iota zeta in H. simpl fst in H. simpl snd in H.
  destruct H as (pc & Hpc & Hres).
  assert (Hval : Some 4096 = Some pc) by exact Hpc.
  injection Hval as <-. exact Hres.
Defined.

Section FirstUse.
Context {RV : Type} {RVO : RegisterValueOps RV} {World : Type}.
Variable hx : forall c : XCall RV, World -> XAnswer c * World.

Lemma first_use (u : UnwindWasm) (frame_idx : Z) (w w1 w2 : World)
    (p : ProcessH) (ok : bool) (frames : list Z) :
  m_frames u = [] -> m_unwind_complete u = false ->
  frame_idx <> 0 ->
  hx (Base (Thread_GetProcess (GetThread u))) w = (Some p, w1) ->
  hx (GDBRemote_GetWasmCallStack p []) w1 = ((ok, frames), w2) ->
  xrun hx (DoGetFrameInfoAtIndex u frame_idx) w
  = (Some (if frame_idx <? size (m_frames (fetched (GetThread u) ok frames))
           then (true, 0,
                 nth (Z.to_nat frame_idx) (m_frames (fetched (GetThread u) ok frames)) 0,
                 fetched (GetThread u) ok frames)
           else (false, 0, 0, fetched (GetThread u) ok frames)),
     w2,
     [XEv (Base (Thread_GetProcess (GetThread u))) (Some p);
      XEv (GDBRemote_GetWasmCallStack p []) (ok, frames)]).
Proof.
  intros Hf Hc Hidx Hp Hs. apply Z.eqb_neq in Hidx.
  unfold DoGetFrameInfoAtIndex, DoGetFrameCount, fetched.
  destruct u as [t fs complete]. simpl in *. subst fs complete. simpl.
  rewrite Hp. simpl. rewrite Hs. simpl.
  destruct ok; simpl; rewrite Hidx.
  - destruct (frame_idx <? size frames); reflexivity.
  - destruct (frame_idx <? size []); reflexivity.
Qed.

(** X20. The first request for a frame after the first, made to a new or
    a cleared unwinder, fetches the call stack from the stub (one query,
    with an empty vector) and is answered from it: the frame's pc when
    [frame_idx] is in range of the stack fetched, false with pc 0
    otherwise and whenever the stub fails.  The unwinder is then complete. *)
Theorem DoGetFrameInfoAtIndex_first_use
    (this : UnwindWasm) (frame_idx : Z) (w w1 w2 : World)
    (p : ProcessH) (ok : bool) (frames : list Z) :
  0 < frame_idx ->
  hx (Base (Thread_GetProcess (GetThread this))) w = (Some p, w1) ->
  hx (GDBRemote_GetWasmCallStack p []) w1 = ((ok, frames), w2) ->
  let after := fetched (GetThread this) ok frames in
  let answer :=
    if frame_idx <? size (m_frames after)
    then (true, 0, nth (Z.to_nat frame_idx) (m_frames after) 0, after)
    else (false, 0, 0, after) in
  let calls :=
    [XEv (Base (Thread_GetProcess (GetThread this))) (Some p);
     XEv (GDBRemote_GetWasmCallStack p []) (ok, frames)] in
  xrun hx (DoGetFrameInfoAtIndex (DoClear this) frame_idx) w
  = (Some answer, w2, calls) /\
  xrun hx (DoGetFrameInfoAtIndex (UnwindWasm_new (GetThread this)) frame_idx) w
  = (Some answer, w2, calls) /\
  (ok = false -> answer = (false, 0, 0, after)).
Proof.
  intros Hpos Hp Hs after answer calls.
  assert (Hidx : frame_idx <> 0) by lia.
  split; [|split].
  - exact (first_use (DoClear this) frame_idx w w1 w2 p ok frames
             eq_refl eq_refl Hidx Hp Hs).
  - exact (first_use (UnwindWasm_new (GetThread this)) frame_idx w w1 w2 p ok frames
             eq_refl eq_refl Hidx Hp Hs).
  - intros ->. unfold answer, after, fetched. simpl.
    destruct (frame_idx <? size []) eqn:E; [|reflexivity].
    apply Z.ltb_lt in E. unfold size in E. simpl in E. lia.
Qed.

End FirstUse.

(** The stub hands out three frames. *)
Lemma DoGetFrameInfoAtIndex_first_use_witness :
  xresult XSim.handler (DoGetFrameInfoAtIndex (UnwindWasm_new O) 1)
    (XSim.world Scenario.w_threads (Some [100; 200; 300]))
  = Some (true, 0, 200, fetched O true [100; 200; 300]) /\
  xresult XSim.handler (DoGetFrameInfoAtIndex (UnwindWasm_new O) 1)
    (XSim.world Scenario.w_threads None)
  = Some (false, 0, 0, fetched O false []).
Proof.
  assert (Hne : 0 < 1) by reflexivity.
  split.
  - destruct (DoGetFrameInfoAtIndex_first_use XSim.handler (UnwindWasm_new O) 1
                (XSim.world Scenario.w_threads (Some [100; 200; 300]))
                (XSim.world Scenario.w_threads (Some [100; 200; 300]))
                (XSim.world Scenario.w_threads (Some [100; 200; 300]))
                O true [100; 200; 300] Hne eq_refl eq_refl) as (_ & H & _).
    exact (f_equal (fun r => fst (fst r)) H).
  - destruct (DoGetFrameInfoAtIndex_first_use XSim.handler (UnwindWasm_new O) 1
                (XSim.world Scenario.w_threads None)
                (XSim.world Scenario.w_threads None)
                (XSim.world Scenario.w_threads None)
                O false [] Hne eq_refl eq_refl) as (_ & H & _).
    exact (f_equal (fun r => fst (fst r)) H).
Defined.
